(** * Skin2Solid: a shallow embedding of [skin2solid.py]

    The add-on splits a skinned mesh into one rigid object per vertex
    group, parents every piece to the bone of the same name and bakes the
    motion.  This file embeds the functions of [skin2solid.py] that decide
    vertex membership, object naming, the order of the preparation steps
    and the operator preconditions, and proves what they do.

    Conventions of the embedding:
    - vertex weights and the weight threshold are rationals ([Q]); every
      finite float is one, and the source only compares them.  NaN is not
      represented;
    - a Python exception is the [Raise] outcome of a command; what a
      raising call left half-done is not represented;
    - [bpy.ops.object.mode_set] needs an active object: with none the
      host raises [RuntimeError], and so does the command; the other host
      operators are called with an active object and are taken to succeed;
    - [bpy.data.objects.remove] takes the object out of the scene: it is
      no longer the active object and no longer selected;
    - Blender datablocks that the source reaches through a reference and
      mutates (the armatures of [bpy.data.armatures]) live in a store;
      mesh data is owned by exactly one working object (every duplicate
      gets its own [data.copy()]) and is held by value;
    - each host call that changes the scene appends an [Event] to the log
      of the state, in program order. *)

From Stdlib Require Import String Ascii List ZArith QArith Bool Lia.
From stdpp Require Import base option gmap strings.
Import ListNotations.

Local Open Scope string_scope.
Local Open Scope nat_scope.
Local Open Scope list_scope.

(** ** Python strings *)

Module PyStr.

(** [str.replace(old, new)] for a non-empty [old]: scan from the left; at
    every position where [old] starts, emit [new] and jump over the match
    (matches never overlap).  [skip] counts the characters of the current
    match that are still to be jumped over. *)
Fixpoint replace_scan (old new : string) (skip : nat) (s : string) : string :=
  match s with
  | EmptyString => EmptyString
  | String c rest =>
      match skip with
      | S k => replace_scan old new k rest
      | O =>
          if String.prefix old s
          then String.append new (replace_scan old new (String.length old - 1) rest)
          else String c (replace_scan old new 0 rest)
      end
  end.

(** With an empty [old], Python puts [new] before every character and at
    the end. *)
Fixpoint interleave (new s : string) : string :=
  match s with
  | EmptyString => new
  | String c rest => String.append new (String c (interleave new rest))
  end.

Definition replace (s old new : string) : string :=
  match old with
  | EmptyString => interleave new s
  | String _ _ => replace_scan old new 0 s
  end.

(** [old] starts at one of the first [n] positions of [s]. *)
Fixpoint occurs_before (n : nat) (old s : string) : bool :=
  match n with
  | O => false
  | S k =>
      String.prefix old s
      || match s with
         | EmptyString => false
         | String _ rest => occurs_before k old rest
         end
  end.

(** [old] starts somewhere in [s]. *)
Definition occurs (old s : string) : bool :=
  occurs_before (S (String.length s)) old s.

End PyStr.

(** ** The scene data the add-on reads and writes *)

(** [obj.type]; every kind that the source does not name is [OTHER]. *)
Inductive object_type := MESH | ARMATURE | OTHER.

(** [mod.type] likewise. *)
Inductive modifier_type := MOD_ARMATURE | MOD_OTHER.

(** [armature.pose_position]. *)
Inductive pose_position_t := REST | POSE.

(** The interaction mode set by [bpy.ops.object.mode_set]. *)
Inductive mode_t := OBJECT_MODE | POSE_MODE.

(** One element of [vert.groups]. *)
Record VertexGroupElement := mkVGE { group : nat; weight : Q }.

(** A vertex of a mesh.  [index] is the position of the vertex in the mesh
    it was first read from; the embedding keeps it when vertices around it
    are deleted, so it names the source vertex (the host renumbers). *)
Record MeshVertex := mkVert { index : nat; groups : list VertexGroupElement }.

(** [obj.data] of a mesh object.  Edges and faces are not represented:
    [bmesh.ops.delete(..., context='VERTS')] removes them with their
    vertices and nothing in the source reads them. *)
Record Mesh := mkMesh { mesh_name : string; vertices : list MeshVertex }.

(** An element of [obj.vertex_groups]. *)
Record VertexGroup := mkVG { vg_index : nat; vg_name : string }.

(** An element of [obj.modifiers]; [mod_object] is the identity of the
    object the modifier points to. *)
Record Modifier := mkMod { mod_type : modifier_type; mod_object : option nat }.

(** [obj.data]: a mesh held by value, or the key of an armature in
    [bpy.data.armatures]. *)
Inductive ObjectData :=
| MeshData (m : Mesh)
| ArmatureData (key : string)
| NoData.

(** A scene object.  [oid] is its identity (what [==] compares in Python);
    [parent] is [(parent object, bone name)] after a bone parenting. *)
Record Object := mkObject {
  oid : nat;
  name : string;
  data : ObjectData;
  vertex_groups : list VertexGroup;
  modifiers : list Modifier;
  parent : option (nat * string)
}.

Definition type (obj : Object) : object_type :=
  match data obj with
  | MeshData _ => MESH
  | ArmatureData _ => ARMATURE
  | NoData => OTHER
  end.

Record Collection := mkCollection {
  coll_name : string;
  objects : list Object
}.

(** An armature datablock; [bones] are the names in [rig.pose.bones] and
    [rig.data.bones]. *)
Record Armature := mkArmature {
  pose_position : pose_position_t;
  bones : list string
}.

(** [Skin2SolidSettings]. *)
Record Skin2SolidSettings := mkSettings {
  objs_collection_original : option Collection;
  objs_collection_created : option Collection;
  rig : option Object;
  is_objects_prepared : bool;
  bake_frame_start : Z;
  bake_frame_end : Z;
  name_suffix : string;
  weight_threshold : Q
}.

(** The host calls that change the scene, one constructor per call site
    of [skin2solid.py]. *)
Inductive Event :=
| EvCollectionNew (collection_name : string)
    (* create_new_collection: bpy.data.collections.new, linked to the scene *)
| EvMaterialize (src dup : nat)
    (* create_working_collection: obj.copy() linked into the new collection *)
| EvPartition (src group_index dup : nat)
    (* separate_mesh_by_vertex_groups: mesh_obj.copy() linked, one per group *)
| EvRemoveObject (o : nat)
    (* separate_mesh_by_vertex_groups: unlink and bpy.data.objects.remove *)
| EvPosePosition (key : string) (p : pose_position_t)
    (* assignment to armature.pose_position *)
| EvModifierRemove (o : nat)
    (* clear_object_modifiers: obj.modifiers.remove(mod) *)
| EvOriginSet (o : nat)
    (* set_object_origins_to_center: bpy.ops.object.origin_set *)
| EvParentClear (o : nat)
    (* parent_objects_to_corresponding_bones: bpy.ops.object.parent_clear *)
| EvParentSet (o : nat) (bone : string)
    (* parent_objects_to_corresponding_bones: bpy.ops.object.parent_set *)
| EvBake (frame_start frame_end : Z) (selected : list nat)
    (* bake_animation: bpy.ops.nla.bake *).

(** The part of the Blender session the add-on touches. *)
Record State := mkState {
  settings : Skin2SolidSettings;
  armatures : gmap string Armature;      (* bpy.data.armatures *)
  next_oid : nat;                        (* identity of the next new object *)
  active : option nat;                   (* view_layer.objects.active *)
  selected : list nat;                   (* objects with select_get() *)
  mode : mode_t;
  log : list Event
}.

(** *** Field updates *)

Definition with_created (c : option Collection) (s : Skin2SolidSettings) :=
  mkSettings (objs_collection_original s) c (rig s) (is_objects_prepared s)
    (bake_frame_start s) (bake_frame_end s) (name_suffix s) (weight_threshold s).

Definition with_original (c : option Collection) (s : Skin2SolidSettings) :=
  mkSettings c (objs_collection_created s) (rig s) (is_objects_prepared s)
    (bake_frame_start s) (bake_frame_end s) (name_suffix s) (weight_threshold s).

Definition with_rig (r : option Object) (s : Skin2SolidSettings) :=
  mkSettings (objs_collection_original s) (objs_collection_created s) r
    (is_objects_prepared s) (bake_frame_start s) (bake_frame_end s)
    (name_suffix s) (weight_threshold s).

Definition with_prepared (b : bool) (s : Skin2SolidSettings) :=
  mkSettings (objs_collection_original s) (objs_collection_created s) (rig s) b
    (bake_frame_start s) (bake_frame_end s) (name_suffix s) (weight_threshold s).

Definition with_settings (f : Skin2SolidSettings -> Skin2SolidSettings) (st : State) :=
  mkState (f (settings st)) (armatures st) (next_oid st) (active st)
    (selected st) (mode st) (log st).

Definition with_armatures (a : gmap string Armature) (st : State) :=
  mkState (settings st) a (next_oid st) (active st) (selected st) (mode st) (log st).

Definition with_next_oid (n : nat) (st : State) :=
  mkState (settings st) (armatures st) n (active st) (selected st) (mode st) (log st).

Definition with_active (a : option nat) (st : State) :=
  mkState (settings st) (armatures st) (next_oid st) a (selected st) (mode st) (log st).

Definition with_selected (l : list nat) (st : State) :=
  mkState (settings st) (armatures st) (next_oid st) (active st) l (mode st) (log st).

Definition with_mode (m : mode_t) (st : State) :=
  mkState (settings st) (armatures st) (next_oid st) (active st) (selected st) m (log st).

Definition emit (e : Event) (st : State) :=
  mkState (settings st) (armatures st) (next_oid st) (active st) (selected st)
    (mode st) (log st ++ [e]).

(** ** Commands: state passing with Python exceptions *)

Inductive exn :=
| KeyError (key : string)
| IndexError
| AttributeError
| RuntimeError.

Inductive result (A : Type) :=
| Ok (a : A) (st : State)
| Raise (e : exn).
Arguments Ok {A} a st.
Arguments Raise {A} e.

Definition Cmd (A : Type) := State -> result A.

Definition ret {A} (a : A) : Cmd A := fun st => Ok a st.

Definition bind {A B} (c : Cmd A) (k : A -> Cmd B) : Cmd B :=
  fun st => match c st with
            | Ok a st' => k a st'
            | Raise e => Raise e
            end.

Definition raise {A} (e : exn) : Cmd A := fun _ => Raise e.
Definition get : Cmd State := fun st => Ok st st.
Definition modify (f : State -> State) : Cmd unit := fun st => Ok tt (f st).

Declare Scope cmd_scope.
Delimit Scope cmd_scope with cmd.
Notation "'let*' x ':=' c 'in' k" := (bind c (fun x => k))
  (at level 10, x name, c at level 100, k at level 200) : cmd_scope.
Notation "c ;; k" := (bind c (fun _ => k))
  (at level 100, k at level 200, right associativity) : cmd_scope.
Local Open Scope cmd_scope.

(** [for x in l: body x], left to right, stopping at the first exception. *)
Fixpoint for_each {A} (l : list A) (body : A -> Cmd unit) : Cmd unit :=
  match l with
  | [] => ret tt
  | x :: rest => body x ;; for_each rest body
  end.

(** [acc = f(acc, x)] for every [x] of [l]. *)
Fixpoint fold_each {A B} (l : list A) (body : B -> A -> Cmd B) (acc : B) : Cmd B :=
  match l with
  | [] => ret acc
  | x :: rest => let* acc' := body acc x in fold_each rest body acc'
  end.

(** A new object identity, as [obj.copy()] makes one. *)
Definition fresh_oid : Cmd nat :=
  fun st => Ok (next_oid st) (with_next_oid (S (next_oid st)) st).

(** ** [separate_mesh_by_vertex_groups] *)

Definition Qlt_bool (x y : Q) : bool := negb (Qle_bool y x).

(** Line 37: [(group.group, group.weight) for group in vert.groups]. *)
Definition group_data (vert : MeshVertex) : list (nat * Q) :=
  List.map (fun g => (group g, weight g)) (groups vert).

(** Lines 61-64: the inner loop appends [v] and breaks at the first entry
    of the group whose weight is under the threshold. *)
Fixpoint below_threshold (group_index : nat) (threshold : Q)
    (groups_for_vertex : list (nat * Q)) : bool :=
  match groups_for_vertex with
  | [] => false
  | vert_group :: rest =>
      if (fst vert_group =? group_index) && Qlt_bool (snd vert_group) threshold
      then true
      else below_threshold group_index threshold rest
  end.

(** Lines 53-64: [to_delete], as positions in [bm.verts].  Position [i]
    of the duplicate reads entry [i] of the table of the original; a
    missing entry is Python's [IndexError]. *)
Fixpoint mark_vertices (vertex_group_data : list (list (nat * Q)))
    (group_index : nat) (threshold : Q) (i : nat) (verts : list MeshVertex)
    (to_delete : list nat) : option (list nat) :=
  match verts with
  | [] => Some to_delete
  | _ :: rest =>
      match nth_error vertex_group_data i with
      | None => None
      | Some groups_for_vertex =>
          let vert_groups_of_vertex :=
            List.filter (fun gw => fst gw =? group_index) groups_for_vertex in
          let to_delete1 :=
            if List.length vert_groups_of_vertex =? 0 then to_delete ++ [i] else to_delete in
          let to_delete2 :=
            if below_threshold group_index threshold groups_for_vertex
            then to_delete1 ++ [i] else to_delete1 in
          mark_vertices vertex_group_data group_index threshold (S i) rest to_delete2
      end
  end.

(** Line 67: [bmesh.ops.delete(bm, geom=to_delete, context='VERTS')]; [i]
    is the position of the head of [verts] in [bm.verts]. *)
Fixpoint bmesh_delete_verts (to_delete : list nat) (i : nat) (verts : list MeshVertex)
    : list MeshVertex :=
  match verts with
  | [] => []
  | v :: rest =>
      if existsb (Nat.eqb i) to_delete
      then bmesh_delete_verts to_delete (S i) rest
      else v :: bmesh_delete_verts to_delete (S i) rest
  end.

(** Line 74: the f-string, [.replace(suffix, "")], [+ suffix]. *)
Definition partition_name (suffix mesh_obj_name group_name : string) : string :=
  String.append
    (PyStr.replace (String.append mesh_obj_name (String.append "_" group_name)) suffix "")
    suffix.

(** Lines 78-84.  The loop removes from [duplicate.vertex_groups] while it
    iterates over it; the embedding takes the iteration to visit every
    group, so that exactly the groups of another name go.  The host
    renumbers the groups that stay and drops the weights of those that go;
    the source reads neither afterwards and the embedding leaves both as
    they were. *)
Definition keep_relevant_group (group_name : string) (vgs : list VertexGroup)
    : list VertexGroup :=
  if existsb (String.eqb group_name) (List.map vg_name vgs)
  then List.filter (fun vg => String.eqb (vg_name vg) group_name) vgs
  else vgs ++ [mkVG (List.length vgs) group_name].

(** [collection.objects.link(obj)] on the working collection. *)
Definition link_object (obj : Object) (c : Collection) : Collection :=
  mkCollection (coll_name c) (objects c ++ [obj]).

Definition link_created (obj : Object) : Cmd unit :=
  fun st =>
    match objs_collection_created (settings st) with
    | None => Raise AttributeError
    | Some c => Ok tt (with_settings (with_created (Some (link_object obj c))) st)
    end.

(** [collection.objects.unlink(obj)]: the object of that identity leaves
    the list; the host raises [RuntimeError] when it is not there. *)
Fixpoint unlink_object (o : nat) (l : list Object) : option (list Object) :=
  match l with
  | [] => None
  | x :: rest =>
      if oid x =? o then Some rest
      else match unlink_object o rest with
           | Some rest' => Some (x :: rest')
           | None => None
           end
  end.

Definition unlink_created (obj : Object) : Cmd unit :=
  fun st =>
    match objs_collection_created (settings st) with
    | None => Raise AttributeError
    | Some c =>
        match unlink_object (oid obj) (objects c) with
        | None => Raise RuntimeError
        | Some l =>
            Ok tt (with_settings (with_created (Some (mkCollection (coll_name c) l))) st)
        end
    end.

(** [bpy.data.objects.remove(obj)] (line 88): the host drops the object
    from the scene, so it stops being the active object and leaves the
    selection. *)
Definition drop_active (o : nat) (a : option nat) : option nat :=
  match a with
  | Some x => if x =? o then None else Some x
  | None => None
  end.

Definition data_objects_remove (o : nat) (st : State) : State :=
  emit (EvRemoveObject o)
    (with_selected (List.filter (fun x => negb (x =? o)) (selected st))
       (with_active (drop_active o (active st)) st)).

(** Lines 43-84 without the link: the duplicate made for [group], with the
    identity [dup_oid].  The copy starts as [mesh_obj] with its own mesh;
    it is reachable only through the local variable and the collection, and
    nothing reads the collection before line 84, so the embedding builds
    the finished object and links that. *)
Definition partition_duplicate (s : Skin2SolidSettings) (mesh_obj : Object) (m : Mesh)
    (vertex_group_data : list (list (nat * Q))) (group : VertexGroup) (dup_oid : nat)
    : option Object :=
  match mark_vertices vertex_group_data (vg_index group) (weight_threshold s) 0
          (vertices m) [] with
  | None => None
  | Some to_delete =>
      let new_name := partition_name (name_suffix s) (name mesh_obj) (vg_name group) in
      Some (mkObject dup_oid new_name
              (MeshData (mkMesh new_name (bmesh_delete_verts to_delete 0 (vertices m))))
              (keep_relevant_group (vg_name group) (vertex_groups mesh_obj))
              (modifiers mesh_obj)
              (parent mesh_obj))
  end.

(** One turn of the loop of line 41. *)
Definition separate_group (mesh_obj : Object) (m : Mesh)
    (vertex_group_data : list (list (nat * Q))) (group : VertexGroup) : Cmd unit :=
  let* dup_oid := fresh_oid in
  let* st := get in
  match partition_duplicate (settings st) mesh_obj m vertex_group_data group dup_oid with
  | None => raise IndexError
  | Some duplicate =>
      link_created duplicate ;;
      modify (emit (EvPartition (oid mesh_obj) (vg_index group) dup_oid))
  end.

Definition separate_mesh_by_vertex_groups (mesh_obj : Object) : Cmd unit :=
  match data mesh_obj with
  | MeshData m =>
      let* st := get in
      match objs_collection_created (settings st) with
      | None => ret tt
      | Some _ =>
          let vertex_group_data := List.map group_data (vertices m) in
          for_each (vertex_groups mesh_obj) (separate_group mesh_obj m vertex_group_data) ;;
          unlink_created mesh_obj ;;
          modify (data_objects_remove (oid mesh_obj))
      end
  | _ => ret tt      (* print("The provided object is not a mesh!") *)
  end.

(** ** [update_property] and the pointer properties that call it *)

(** Lines 375-377. *)
Definition update_property (s : Skin2SolidSettings) : Skin2SolidSettings :=
  with_prepared false s.

(** [settings.objs_collection_original = c], [... .objs_collection_created
    = c] and [settings.rig = r]: the three properties are declared with
    [update=update_property] (lines 381-398), which the host calls after
    storing the new value. *)
Definition set_objs_collection_original (c : option Collection) (s : Skin2SolidSettings) :=
  update_property (with_original c s).

Definition set_objs_collection_created (c : option Collection) (s : Skin2SolidSettings) :=
  update_property (with_created c s).

Definition set_rig (r : option Object) (s : Skin2SolidSettings) :=
  update_property (with_rig r s).

(** ** [set_rig_to_rest_pose] *)

(** Line 105 writes to [bpy.data.armatures["Armature"]], whatever [rig]
    is; a missing key is Python's [KeyError]. *)
Definition set_rig_to_rest_pose (rig : Object) : Cmd unit :=
  match type rig with
  | ARMATURE =>
      let* st := get in
      match armatures st !! "Armature" with
      | None => raise (KeyError "Armature")
      | Some a =>
          modify (with_armatures (<["Armature" := mkArmature REST (bones a)]> (armatures st))) ;;
          modify (emit (EvPosePosition "Armature" REST))
      end
  | _ => ret tt      (* print("The provided object is not an armature!") *)
  end.

(** ** [clear_object_modifiers] *)

(** [x = f(x)] for every element of a list that the loop body mutates in
    place. *)
Fixpoint map_each {A} (l : list A) (body : A -> Cmd A) : Cmd (list A) :=
  match l with
  | [] => ret []
  | x :: rest =>
      let* x' := body x in
      let* rest' := map_each rest body in
      ret (x' :: rest')
  end.

(** The objects of the working collection after a loop that mutated them
    in place. *)
Definition store_created_objects (l : list Object) : Cmd unit :=
  fun st =>
    match objs_collection_created (settings st) with
    | None => Raise AttributeError
    | Some c =>
        Ok tt (with_settings (with_created (Some (mkCollection (coll_name c) l))) st)
    end.

Definition is_armature_modifier (md : Modifier) : bool :=
  match mod_type md with MOD_ARMATURE => true | MOD_OTHER => false end.

(** Lines 121-128 for one object.  The inner loop removes from
    [obj.modifiers] while iterating over it; as for the vertex groups, the
    embedding takes it to visit every modifier. *)
Definition clear_armature_modifiers (obj : Object) : Cmd Object :=
  match type obj with
  | MESH =>
      for_each (modifiers obj)
        (fun md => if is_armature_modifier md
                   then modify (emit (EvModifierRemove (oid obj)))
                   else ret tt) ;;
      ret (mkObject (oid obj) (name obj) (data obj) (vertex_groups obj)
             (List.filter (fun md => negb (is_armature_modifier md)) (modifiers obj))
             (parent obj))
  | _ => ret obj
  end.

Definition clear_object_modifiers : Cmd unit :=
  let* st := get in
  match objs_collection_created (settings st) with
  | None => ret tt      (* print("Collection not set!") *)
  | Some c =>
      let* objs := map_each (objects c) clear_armature_modifiers in
      store_created_objects objs
  end.

(** ** [parent_objects_to_corresponding_bones] *)

(** [rig.pose.bones]: [rig] may be [None], and [rig.pose] is [None] for an
    object that is not an armature; both are [AttributeError]. *)
Definition rig_pose_bones (rig : option Object) : Cmd (list string) :=
  match rig with
  | None => raise AttributeError
  | Some r =>
      match data r with
      | ArmatureData key =>
          let* st := get in
          match armatures st !! key with
          | Some a => ret (bones a)
          | None => raise (KeyError key)
          end
      | _ => raise AttributeError
      end
  end.

Definition select_set (o : nat) (st : State) : State :=
  with_selected (selected st ++ [o]) st.

(** [bpy.ops.object.mode_set(mode=...)]: the operator polls for an active
    object and the host raises [RuntimeError] when there is none. *)
Definition mode_set (m : mode_t) : Cmd unit :=
  fun st =>
    match active st with
    | None => Raise RuntimeError
    | Some _ => Ok tt (with_mode m st)
    end.

Definition set_parent (p : option (nat * string)) (obj : Object) : Object :=
  mkObject (oid obj) (name obj) (data obj) (vertex_groups obj) (modifiers obj) p.

(** Lines 141-174 for one object. *)
Definition parent_to_bone (rig : option Object) (obj : Object) : Cmd Object :=
  match type obj with
  | MESH =>
      match vertex_groups obj with
      | [] => ret obj
      | vg0 :: _ =>
          let bone_name := vg_name vg0 in
          let* pose_bones := rig_pose_bones rig in
          if negb (existsb (String.eqb bone_name) pose_bones) then ret obj
          else
            match rig with
            | None => raise AttributeError
            | Some r =>
                mode_set OBJECT_MODE ;;
                modify (with_selected []) ;;
                modify (select_set (oid obj)) ;;
                modify (with_active (Some (oid obj))) ;;
                modify (emit (EvParentClear (oid obj))) ;;
                modify (select_set (oid r)) ;;
                modify (with_active (Some (oid r))) ;;
                mode_set POSE_MODE ;;
                modify (emit (EvParentSet (oid obj) bone_name)) ;;
                ret (set_parent (Some (oid r, bone_name)) obj)
            end
      end
  | _ => ret obj
  end.

(** Line 177: [rig.data.pose_position = 'POSE']. *)
Definition set_rig_data_pose_position (rig : option Object) (p : pose_position_t)
    : Cmd unit :=
  match rig with
  | None => raise AttributeError
  | Some r =>
      match data r with
      | ArmatureData key =>
          let* st := get in
          match armatures st !! key with
          | Some a =>
              modify (with_armatures (<[key := mkArmature p (bones a)]> (armatures st))) ;;
              modify (emit (EvPosePosition key p))
          | None => raise (KeyError key)
          end
      | _ => raise AttributeError
      end
  end.

Definition parent_objects_to_corresponding_bones : Cmd unit :=
  let* st := get in
  let rig := rig (settings st) in
  match objs_collection_created (settings st) with
  | None => raise AttributeError
  | Some c =>
      let* objs := map_each (objects c) (parent_to_bone rig) in
      store_created_objects objs ;;
      mode_set OBJECT_MODE ;;
      set_rig_data_pose_position rig POSE
  end.

(** ** [should_object_be_processed] and [create_working_collection] *)

(** Lines 201-205: some modifier is an armature modifier whose object is
    the rig. *)
Definition has_correct_armature_modifier (r : Object) (obj : Object) : bool :=
  existsb
    (fun md => is_armature_modifier md
               && match mod_object md with
                  | Some o => o =? oid r
                  | None => false
                  end)
    (modifiers obj).

Definition should_object_be_processed (s : Skin2SolidSettings) (obj : Object) : bool :=
  match rig s with
  | None => false
  | Some r =>
      match type obj with
      | MESH =>
          if List.length (vertex_groups obj) =? 0 then false
          else if negb (has_correct_armature_modifier r obj) then false
          else true
      | _ => false
      end
  end.

Definition create_new_collection (collection_name : string) : Cmd Collection :=
  modify (emit (EvCollectionNew collection_name)) ;;
  ret (mkCollection collection_name []).

(** [obj.data.copy()] followed by [duplicate.data.name = obj.data.name +
    suffix] (lines 255-256). *)
Definition copy_data_with_suffix (d : ObjectData) (suffix : string) : ObjectData :=
  match d with
  | MeshData m => MeshData (mkMesh (String.append (mesh_name m) suffix) (vertices m))
  | other => other
  end.

(** Lines 248-257: one turn of the loop; [collection] is the local
    variable. *)
Definition materialize (collection : Collection) (obj : Object) : Cmd Collection :=
  let* st := get in
  if negb (should_object_be_processed (settings st) obj) then ret collection
  else
    modify (with_active (Some (oid obj))) ;;
    let* dup_oid := fresh_oid in
    let suffix := name_suffix (settings st) in
    let duplicate :=
      mkObject dup_oid (String.append (name obj) suffix)
        (copy_data_with_suffix (data obj) suffix)
        (vertex_groups obj) (modifiers obj) (parent obj) in
    modify (emit (EvMaterialize (oid obj) dup_oid)) ;;
    ret (link_object duplicate collection).

Definition create_working_collection : Cmd (option Collection) :=
  let* st := get in
  match objs_collection_original (settings st) with
  | None => ret None      (* print("Collection not set!") *)
  | Some objs_collection_original =>
      let* collection0 :=
        create_new_collection
          (String.append (coll_name objs_collection_original) (name_suffix (settings st))) in
      let* collection := fold_each (objects objs_collection_original) materialize collection0 in
      modify (with_settings (set_objs_collection_created (Some collection))) ;;
      ret (Some collection)
  end.

(** ** [set_object_origins_to_center] *)

Definition origin_to_center (obj : Object) : Cmd unit :=
  match type obj with
  | MESH =>
      modify (with_selected []) ;;
      modify (select_set (oid obj)) ;;
      modify (with_active (Some (oid obj))) ;;
      modify (emit (EvOriginSet (oid obj)))
  | _ => ret tt
  end.

Definition set_object_origins_to_center : Cmd unit :=
  let* st := get in
  match objs_collection_created (settings st) with
  | None => ret tt
  | Some c =>
      mode_set OBJECT_MODE ;;
      for_each (objects c) origin_to_center
  end.

(** ** [prepare_objects] *)

(** Lines 304-309 for one object. *)
Definition separate_if_multiple_groups (obj : Object) : Cmd unit :=
  match type obj with
  | MESH =>
      if 1 <? List.length (vertex_groups obj)
      then separate_mesh_by_vertex_groups obj
      else ret tt
  | _ => ret tt
  end.

(** The loop of line 304 runs over the collection while
    [separate_mesh_by_vertex_groups] links and unlinks objects in it.  The
    embedding iterates over the objects that [create_working_collection]
    put there; the objects linked meanwhile are the partition results. *)
Definition prepare_objects : Cmd unit :=
  let* st := get in
  match objs_collection_original (settings st) with
  | None => ret tt      (* print("Collection not set!") *)
  | Some _ =>
      match rig (settings st) with
      | None => ret tt      (* print("Rig not set! ...") *)
      | Some rig =>
          let* objs_collection_created := create_working_collection in
          match objs_collection_created with
          | None => raise AttributeError
          | Some c =>
              for_each (objects c) separate_if_multiple_groups ;;
              set_rig_to_rest_pose rig ;;
              clear_object_modifiers ;;
              set_object_origins_to_center ;;
              parent_objects_to_corresponding_bones ;;
              modify (with_settings (with_prepared true))
          end
      end
  end.

(** ** [bake_animation] *)

Definition select_if_mesh (obj : Object) : Cmd unit :=
  match type obj with
  | MESH =>
      modify (select_set (oid obj)) ;;
      modify (with_active (Some (oid obj)))
  | _ => ret tt
  end.

(** [bpy.ops.nla.bake(..., only_selected=True, clear_parents=True)]: the
    host keys the selected objects and clears their parents. *)
Definition nla_bake : Cmd unit :=
  let* st := get in
  let s := settings st in
  modify (emit (EvBake (bake_frame_start s) (bake_frame_end s) (selected st))) ;;
  match objs_collection_created s with
  | None => ret tt
  | Some c =>
      store_created_objects
        (List.map (fun obj => if existsb (Nat.eqb (oid obj)) (selected st)
                              then set_parent None obj else obj)
           (objects c))
  end.

(** Lines 343-357: line 344 is reached with an active object only
    (lines 338-341). *)
Definition select_and_bake (c : Collection) : Cmd unit :=
  mode_set OBJECT_MODE ;;
  modify (with_selected []) ;;
  for_each (objects c) select_if_mesh ;;
  nla_bake.

Definition bake_animation : Cmd unit :=
  let* st := get in
  match objs_collection_created (settings st) with
  | None => ret tt      (* print("Collection not set!") *)
  | Some c =>
      match active st with
      | None =>
          match objects c with
          | [] => ret tt
          | first :: _ =>
              modify (with_active (Some (oid first))) ;;
              select_and_bake c
          end
      | Some _ => select_and_bake c
      end
  end.

(** ** [verify_operator] and the operators *)

Inductive report_type := ERROR | WARNING | INFO.

Record Report := mkReport { report_level : report_type; report_message : string }.

Definition msg_collection_not_set : string :=
  "Collection not set! Please select a collection first.".
Definition msg_rig_not_set : string :=
  "Rig not set! Please select a rig object first.".
Definition msg_not_prepared : string :=
  "Objects aren't prepared! Please run the 'Prepare Objects' operator first. ".

(** Lines 360-372: the value returned and what [operator.report] was
    called with. *)
Definition verify_operator (s : Skin2SolidSettings) (check_preparation : bool)
    : bool * list Report :=
  match objs_collection_original s with
  | None => (false, [mkReport ERROR msg_collection_not_set])
  | Some _ =>
      match rig s with
      | None => (false, [mkReport ERROR msg_rig_not_set])
      | Some _ =>
          if check_preparation && negb (is_objects_prepared s)
          then (false, [mkReport ERROR msg_not_prepared])
          else (true, [])
      end
  end.

Inductive op_status := FINISHED | CANCELLED.

(** What one [execute] gives back to the host: the reports and either the
    returned status with the new state or the exception. *)
Definition Execute := State -> list Report * result op_status.

Definition SKIN2SOLID_OT_separate_by_vertex_groups (active_object : option Object) : Execute :=
  fun st =>
    let (ok, reports) := verify_operator (settings st) false in
    if negb ok then (reports, Ok CANCELLED st)
    else
      match active_object with
      | None => (reports, Raise AttributeError)
      | Some obj => (reports, (separate_mesh_by_vertex_groups obj ;; ret FINISHED) st)
      end.

Definition SKIN2SOLID_OT_prepare_objects : Execute :=
  fun st =>
    let (ok, reports) := verify_operator (settings st) false in
    if negb ok then (reports, Ok CANCELLED st)
    else (reports, (prepare_objects ;; ret FINISHED) st).

Definition SKIN2SOLID_OT_bake_animation : Execute :=
  fun st =>
    let (ok, reports) := verify_operator (settings st) true in
    if negb ok then (reports, Ok CANCELLED st)
    else (reports, (bake_animation ;; ret FINISHED) st).

(** ** Derived notions used in the statements *)

(** The test that the marking loop applies to one vertex: it has an entry
    for the group and no entry of the group is under the threshold. *)
Definition survives (group_index : nat) (threshold : Q) (v : MeshVertex) : bool :=
  negb (List.length (List.filter (fun gw => fst gw =? group_index) (group_data v)) =? 0)
  && negb (below_threshold group_index threshold (group_data v)).

(** The object that one turn of the loop of line 41 links for [group], in
    closed form: proved below to be what [partition_duplicate] returns. *)
Definition sub_object (suffix : string) (threshold : Q) (mesh_obj : Object) (m : Mesh)
    (group : VertexGroup) (dup_oid : nat) : Object :=
  let new_name := partition_name suffix (name mesh_obj) (vg_name group) in
  mkObject dup_oid new_name
    (MeshData (mkMesh new_name
                 (List.filter (survives (vg_index group) threshold) (vertices m))))
    (keep_relevant_group (vg_name group) (vertex_groups mesh_obj))
    (modifiers mesh_obj)
    (parent mesh_obj).

(** The objects linked by the whole loop, the first with identity [n]. *)
Fixpoint sub_objects (suffix : string) (threshold : Q) (mesh_obj : Object) (m : Mesh)
    (n : nat) (vgs : list VertexGroup) : list Object :=
  match vgs with
  | [] => []
  | g :: rest =>
      sub_object suffix threshold mesh_obj m g n
      :: sub_objects suffix threshold mesh_obj m (S n) rest
  end.

Fixpoint partition_events (src n : nat) (vgs : list VertexGroup) : list Event :=
  match vgs with
  | [] => []
  | g :: rest => EvPartition src (vg_index g) n :: partition_events src (S n) rest
  end.

(** The mesh of a mesh object; no vertices otherwise. *)
Definition object_vertices (obj : Object) : list MeshVertex :=
  match data obj with
  | MeshData m => vertices m
  | _ => []
  end.

(** The name of [obj.data] of a mesh object. *)
Definition data_name (obj : Object) : string :=
  match data obj with
  | MeshData m => mesh_name m
  | ArmatureData key => key
  | NoData => EmptyString
  end.

(** Membership as the specification words it: the vertex has an entry
    for the group with a weight of at least the threshold. *)
Definition qualifies (threshold : Q) (group_index : nat) (v : MeshVertex) : Prop :=
  exists w, In (mkVGE group_index w) (groups v) /\ (threshold <= w)%Q.

(** At most one entry per group in the weight table of a vertex, as the
    host keeps it. *)
Definition one_weight_per_group (v : MeshVertex) : Prop :=
  List.NoDup (List.map group (groups v)).

(** ** A worked scene

    The example of the specification: four vertices, bones A and B,
    threshold 0.3.  The rig object uses the armature datablock "Rig";
    another armature is called "Armature". *)

Definition demo_rig : Object :=
  mkObject 1 "Rig" (ArmatureData "Rig") [] [] None.

Definition demo_armatures : gmap string Armature :=
  <["Armature" := mkArmature POSE ["Root"]]>
    (<["Rig" := mkArmature POSE ["A"; "B"]]> ∅).

Definition demo_v0 : MeshVertex := mkVert 0 [mkVGE 0 (9 # 10)].
Definition demo_v1 : MeshVertex := mkVert 1 [mkVGE 0 (2 # 10)].
Definition demo_v2 : MeshVertex := mkVert 2 [mkVGE 1 1].
Definition demo_v3 : MeshVertex := mkVert 3 [].

Definition demo_mesh : Mesh :=
  mkMesh "BodyMesh" [demo_v0; demo_v1; demo_v2; demo_v3].

Definition demo_groups : list VertexGroup := [mkVG 0 "A"; mkVG 1 "B"].

Definition demo_body : Object :=
  mkObject 2 "Body" (MeshData demo_mesh) demo_groups
    [mkMod MOD_ARMATURE (Some 1)] None.

Definition demo_settings : Skin2SolidSettings :=
  mkSettings (Some (mkCollection "Src" [demo_body])) None (Some demo_rig) false
    0 250 "_Solid" (3 # 10).

Definition demo_state : State :=
  mkState demo_settings demo_armatures 10 None [] OBJECT_MODE [].

(** The working copy of [demo_body] and a state in which it is linked in
    the working collection. *)
Definition demo_work : Object :=
  mkObject 10 "Body_Solid" (MeshData (mkMesh "BodyMesh_Solid" (vertices demo_mesh)))
    demo_groups [mkMod MOD_ARMATURE (Some 1)] None.

Definition demo_work_state : State :=
  mkState (with_created (Some (mkCollection "Src_Solid" [demo_work])) demo_settings)
    demo_armatures 11 None [] OBJECT_MODE [].

(** The same state with the working copy as the active object. *)
Definition demo_bind_state : State :=
  mkState (with_created (Some (mkCollection "Src_Solid" [demo_work])) demo_settings)
    demo_armatures 11 (Some 10) [] OBJECT_MODE [].

(** A mesh whose single vertex is weighted one half to each of two bones. *)
Definition shared_vertex : MeshVertex := mkVert 0 [mkVGE 0 (1 # 2); mkVGE 1 (1 # 2)].

Definition shared_work : Object :=
  mkObject 10 "Arm_Solid" (MeshData (mkMesh "ArmMesh_Solid" [shared_vertex]))
    demo_groups [mkMod MOD_ARMATURE (Some 1)] None.

Definition shared_state : State :=
  mkState (with_created (Some (mkCollection "Src_Solid" [shared_work])) demo_settings)
    demo_armatures 11 None [] OBJECT_MODE [].

(** The worked scene with a threshold that no weight reaches. *)
Definition strict_work_state : State :=
  mkState
    (mkSettings (Some (mkCollection "Src" [demo_body]))
       (Some (mkCollection "Src_Solid" [demo_work])) (Some demo_rig) false
       0 250 "_Solid" 2)
    demo_armatures 11 None [] OBJECT_MODE [].

(** Source objects that [should_object_be_processed] turns down: a mesh
    without vertex groups, a mesh deformed by another rig, an object that
    is no mesh. *)
Definition plain_mesh : Object :=
  mkObject 3 "Plain" (MeshData (mkMesh "PlainMesh" [demo_v3])) []
    [mkMod MOD_ARMATURE (Some 1)] None.

Definition foreign_mesh : Object :=
  mkObject 4 "Foreign" (MeshData demo_mesh) demo_groups
    [mkMod MOD_OTHER None; mkMod MOD_ARMATURE (Some 7)] None.

Definition lamp : Object :=
  mkObject 5 "Lamp" NoData demo_groups [mkMod MOD_ARMATURE (Some 1)] None.

Definition mixed_state : State :=
  mkState
    (with_original
       (Some (mkCollection "Src" [plain_mesh; demo_body; foreign_mesh; lamp; demo_rig]))
       demo_settings)
    demo_armatures 10 None [] OBJECT_MODE [].

(** A session in which nothing has been chosen yet, and one with a source
    collection but no rig. *)
Definition unconfigured_state : State :=
  mkState (mkSettings None None None false 0 250 "_Solid" (3 # 10))
    demo_armatures 10 None [] OBJECT_MODE [].

Definition rigless_state : State :=
  mkState (with_rig None demo_settings) demo_armatures 10 None [] OBJECT_MODE [].

(** A source object whose name already ends in the suffix. *)
Definition suffixed_body : Object :=
  mkObject 2 "X_Solid" (MeshData (mkMesh "X_Solid" [demo_v0])) [mkVG 0 "A"]
    [mkMod MOD_ARMATURE (Some 1)] None.

Definition suffixed_state : State :=
  mkState (with_original (Some (mkCollection "Src" [suffixed_body])) demo_settings)
    demo_armatures 10 None [] OBJECT_MODE [].

(** ** The order of the preparation steps *)

(** The step of [prepare_objects] (lines 300-320) that an event belongs
    to, [7] for the bake. *)
Definition step_of (e : Event) : nat :=
  match e with
  | EvCollectionNew _ | EvMaterialize _ _ => 1
  | EvPartition _ _ _ | EvRemoveObject _ => 2
  | EvPosePosition _ REST => 3
  | EvModifierRemove _ => 4
  | EvOriginSet _ => 5
  | EvParentClear _ | EvParentSet _ _ | EvPosePosition _ POSE => 6
  | EvBake _ _ _ => 7
  end.

(** [st'] comes after [st]: the rig reference and the armatures are the
    same, a working collection is still set if one was, and the log grew
    by events of step [n]. *)
Definition keeps (n : nat) (st st' : State) : Prop :=
  rig (settings st') = rig (settings st) /\
  armatures st' = armatures st /\
  (is_Some (objs_collection_created (settings st)) ->
   is_Some (objs_collection_created (settings st'))) /\
  exists evs, log st' = log st ++ evs /\ Forall (fun e => step_of e = n) evs.

(** The test of lines 305-308: a mesh object with more than one vertex
    group. *)
Definition multiple_groups (obj : Object) : bool :=
  match type obj with
  | MESH => 1 <? List.length (vertex_groups obj)
  | _ => false
  end.

(** The events of one turn of the loop of line 304, when the next new
    object gets identity [n]. *)
Definition separation_events (n : nat) (obj : Object) : list Event :=
  if multiple_groups obj
  then partition_events (oid obj) n (vertex_groups obj) ++ [EvRemoveObject (oid obj)]
  else [].

(** The events [evs] record the partition of exactly those objects of
    [objs] that have more than one vertex group: for each of them one
    [EvPartition] per vertex group and its [EvRemoveObject], and no
    [EvRemoveObject] for another object. *)
Definition partitions_exactly (objs : list Object) (evs : list Event) : Prop :=
  (forall o, In o objs -> multiple_groups o = true ->
             In (EvRemoveObject (oid o)) evs /\
             forall g, In g (vertex_groups o) ->
                       exists d, In (EvPartition (oid o) (vg_index g) d) evs) /\
  (forall o', In (EvRemoveObject o') evs ->
              exists o, In o objs /\ multiple_groups o = true /\ oid o = o').

(** The pose position of the armature of the configured rig. *)
Definition rig_pose_position (st : State) : option pose_position_t :=
  match rig (settings st) with
  | Some r =>
      match data r with
      | ArmatureData key => option_map pose_position (armatures st !! key)
      | _ => None
      end
  | None => None
  end.

(** ** Materialization in closed form *)

(** The duplicate that lines 253-256 make of [obj], with identity
    [dup_oid]. *)
Definition working_copy (suffix : string) (obj : Object) (dup_oid : nat) : Object :=
  mkObject dup_oid (String.append (name obj) suffix)
    (copy_data_with_suffix (data obj) suffix)
    (vertex_groups obj) (modifiers obj) (parent obj).

(** The duplicates of the objects of [objs] that pass
    [should_object_be_processed], the first with identity [n]. *)
Fixpoint working_copies (s : Skin2SolidSettings) (n : nat) (objs : list Object)
    : list Object :=
  match objs with
  | [] => []
  | obj :: rest =>
      if should_object_be_processed s obj
      then working_copy (name_suffix s) obj n :: working_copies s (S n) rest
      else working_copies s n rest
  end.

(** Eligibility as the specification words it: a mesh object with at
    least one vertex group
    and an armature modifier whose object is the configured rig. *)
Definition eligible (s : Skin2SolidSettings) (obj : Object) : Prop :=
  type obj = MESH /\
  vertex_groups obj <> [] /\
  exists r md,
    rig s = Some r /\ In md (modifiers obj) /\
    mod_type md = MOD_ARMATURE /\ mod_object md = Some (oid r).

(** ** Proof automation *)

(** [keeps n st st'] when [st'] is [st] after a few field updates and
    [emit]s of events of step [n]. *)
Ltac keeps_by_computation :=
  unfold keeps; simpl;
  split; [reflexivity|]; split; [reflexivity|]; split; [auto|];
  eexists; split;
  [ rewrite <- ?app_assoc; simpl; reflexivity
  | repeat constructor ].

(** Case analysis on every [match] scrutinee of a hypothesis. *)
Ltac destruct_matches H :=
  repeat match type of H with
         | context [match ?x with _ => _ end] => destruct x eqn:?
         end.

(** ** Notions for the properties of the remaining code *)

(** The settings that no function of the add-on assigns: the source
    collection, the rig, the frame range, the suffix and the threshold. *)
Definition same_config (s s' : Skin2SolidSettings) : Prop :=
  objs_collection_original s' = objs_collection_original s /\
  rig s' = rig s /\
  bake_frame_start s' = bake_frame_start s /\
  bake_frame_end s' = bake_frame_end s /\
  name_suffix s' = name_suffix s /\
  weight_threshold s' = weight_threshold s.


(** The worked scene with a higher threshold. *)
Definition demo_high_settings : Skin2SolidSettings :=
  mkSettings (Some (mkCollection "Src" [demo_body])) None (Some demo_rig) false
    0 250 "_Solid" (1 # 2).

(** [st] with the events [evs] appended to its log. *)
Definition emit_all (evs : list Event) (st : State) : State :=
  mkState (settings st) (armatures st) (next_oid st) (active st) (selected st)
    (mode st) (log st ++ evs).

(** [st] with the objects of its working collection replaced by [objs]. *)
Definition with_created_objects (c : Collection) (objs : list Object) (st : State) : State :=
  with_settings (with_created (Some (mkCollection (coll_name c) objs))) st.

(** What lines 121-128 leave of one object, in closed form: proved below
    to be what [clear_armature_modifiers] returns. *)
Definition without_armature_modifiers (obj : Object) : Object :=
  match type obj with
  | MESH =>
      mkObject (oid obj) (name obj) (data obj) (vertex_groups obj)
        (List.filter (fun md => negb (is_armature_modifier md)) (modifiers obj))
        (parent obj)
  | _ => obj
  end.

(** The removals logged for one object. *)
Definition modifier_events (obj : Object) : list Event :=
  match type obj with
  | MESH =>
      List.map (fun _ => EvModifierRemove (oid obj))
        (List.filter is_armature_modifier (modifiers obj))
  | _ => []
  end.

(** The bone that lines 142-152 pick for an object: the name of its first
    vertex group, for a mesh object, when the rig has a bone of that name. *)
Definition bone_of (rig_bones : list string) (obj : Object) : option string :=
  match type obj with
  | MESH =>
      match vertex_groups obj with
      | [] => None
      | vg0 :: _ =>
          if existsb (String.eqb (vg_name vg0)) rig_bones then Some (vg_name vg0) else None
      end
  | _ => None
  end.

(** What lines 141-174 leave of one object, in closed form: proved below
    to be what [parent_to_bone] returns. *)
Definition bound_to (r : Object) (rig_bones : list string) (obj : Object) : Object :=
  match bone_of rig_bones obj with
  | Some b => set_parent (Some (oid r, b)) obj
  | None => obj
  end.

(** The events logged for one object. *)
Definition parent_events (rig_bones : list string) (obj : Object) : list Event :=
  match bone_of rig_bones obj with
  | Some b => [EvParentClear (oid obj); EvParentSet (oid obj) b]
  | None => []
  end.

Definition is_mesh (obj : Object) : bool :=
  match type obj with MESH => true | _ => false end.

(** The identities of the mesh objects of a list, in its order. *)
Definition mesh_oids (objs : list Object) : list nat :=
  List.map oid (List.filter is_mesh objs).

(** What [nla.bake(..., clear_parents=True)] leaves of an object when the
    objects of identities [sel] are selected. *)
Definition baked (sel : list nat) (obj : Object) : Object :=
  if existsb (Nat.eqb (oid obj)) sel then set_parent None obj else obj.

(** A mesh object with at least one vertex group whose groups have
    different names, as the host keeps them. *)
Definition well_grouped (o : Object) : Prop :=
  type o = MESH /\ vertex_groups o <> [] /\
  List.NoDup (List.map vg_name (vertex_groups o)).

Definition single_group (o : Object) : Prop :=
  exists g, vertex_groups o = [g].

(** What [verify_operator] asks of the settings before any operator runs. *)
Definition unconfigured (s : Skin2SolidSettings) : Prop :=
  objs_collection_original s = None \/ rig s = None.

(** The two ways an [execute] can end for the host: cancelled with one
    error report and the state it found, or run (to [FINISHED] or to an
    exception) without any report. *)
Definition cancelled_unchanged (st : State) (out : list Report * result op_status) : Prop :=
  exists msg, out = ([mkReport ERROR msg], Ok CANCELLED st).

Definition ran_unreported (out : list Report * result op_status) : Prop :=
  fst out = [] /\ forall st', snd out <> Ok CANCELLED st'.

(** The state the prepare operator leaves of the worked scene. *)
Definition demo_prepared_state : State :=
  match snd (SKIN2SOLID_OT_prepare_objects demo_state) with
  | Ok _ st => st
  | Raise _ => demo_state
  end.


(** ** The run of [prepare_objects] in closed form *)

(** Some object of [objs] passes [should_object_be_processed]. *)
Definition some_eligible (s : Skin2SolidSettings) (objs : list Object) : Prop :=
  exists o, In o objs /\ should_object_be_processed s o = true.

(** The events of the loop of line 247, the first duplicate getting
    identity [n]. *)
Fixpoint materialize_events (s : Skin2SolidSettings) (n : nat) (objs : list Object)
    : list Event :=
  match objs with
  | [] => []
  | obj :: rest =>
      if should_object_be_processed s obj
      then EvMaterialize (oid obj) n :: materialize_events s (S n) rest
      else materialize_events s n rest
  end.

(** The active object after that loop: line 250 makes every object it
    duplicates the active one. *)
Fixpoint active_after_materialize (s : Skin2SolidSettings) (a : option nat)
    (objs : list Object) : option nat :=
  match objs with
  | [] => a
  | obj :: rest =>
      active_after_materialize s
        (if should_object_be_processed s obj then Some (oid obj) else a) rest
  end.

(** The number of duplicates that one turn of the loop of line 304 links
    for [obj], and the duplicates, the first with identity [n]. *)
Definition pieces_count (obj : Object) : nat :=
  if multiple_groups obj then List.length (vertex_groups obj) else 0.

Definition pieces (suffix : string) (threshold : Q) (obj : Object) (n : nat) : list Object :=
  match data obj with
  | MeshData m =>
      if multiple_groups obj
      then sub_objects suffix threshold obj m n (vertex_groups obj)
      else []
  | _ => []
  end.

Fixpoint all_pieces (suffix : string) (threshold : Q) (n : nat) (objs : list Object)
    : list Object :=
  match objs with
  | [] => []
  | x :: rest =>
      pieces suffix threshold x n ++ all_pieces suffix threshold (n + pieces_count x) rest
  end.

(** The events of the whole loop of line 304. *)
Fixpoint separation_log (n : nat) (objs : list Object) : list Event :=
  match objs with
  | [] => []
  | x :: rest => separation_events n x ++ separation_log (n + pieces_count x) rest
  end.

(** The working collection after the loop of line 304 over the working
    copies [objs]: the copies with at most one vertex group stay where they
    are, the others are unlinked, and their pieces follow in the order in
    which they were linked. *)
Definition separated (suffix : string) (threshold : Q) (n : nat) (objs : list Object)
    : list Object :=
  List.filter (fun o => negb (multiple_groups o)) objs ++ all_pieces suffix threshold n objs.

(** A write of [pose_position]. *)
Definition pose_write (e : Event) : bool :=
  match e with
  | EvPosePosition _ _ => true
  | _ => false
  end.
(** * Properties *)

(** ** Vertex membership *)

Lemma Qlt_bool_iff (x y : Q) : Qlt_bool x y = true <-> (x < y)%Q.
Proof.
  unfold Qlt_bool. rewrite negb_true_iff. split.
  - intros H. apply Qnot_le_lt. intros Hle. apply Qle_bool_iff in Hle. congruence.
  - intros H. destruct (Qle_bool y x) eqn:E; [|reflexivity].
    apply Qle_bool_iff in E. exfalso. exact (Qlt_not_le _ _ H E).
Qed.

Lemma below_threshold_true gi t l :
  below_threshold gi t l = true <->
  exists w, In (gi, w) l /\ (w < t)%Q.
Proof.
  induction l as [|[g w] l IH]; simpl.
  - split; [discriminate | intros (w & [] & _)].
  - destruct (Nat.eqb_spec g gi) as [->|Hne]; simpl.
    + destruct (Qlt_bool w t) eqn:E.
      * split; [|reflexivity]. intros _. exists w. split; [now left|].
        now apply Qlt_bool_iff.
      * rewrite IH. split.
        -- intros (w' & Hin & Hlt). exists w'. split; [now right | exact Hlt].
        -- intros (w' & [Heq | Hin] & Hlt).
           ++ inversion Heq; subst w'. apply Qlt_bool_iff in Hlt. congruence.
           ++ exists w'. split; assumption.
    + rewrite IH. split.
      * intros (w' & Hin & Hlt). exists w'. split; [now right | exact Hlt].
      * intros (w' & [Heq | Hin] & Hlt).
        -- inversion Heq; congruence.
        -- exists w'. split; assumption.
Qed.

Lemma has_entry_iff gi (l : list (nat * Q)) :
  (List.length (List.filter (fun gw => fst gw =? gi) l) =? 0) = false <->
  exists w, In (gi, w) l.
Proof.
  induction l as [|[g w] l IH]; simpl.
  - split; [discriminate | intros (w & [])].
  - destruct (Nat.eqb_spec g gi) as [->|Hne]; simpl.
    + split; [|reflexivity]. intros _. exists w. now left.
    + rewrite IH. split.
      * intros (w' & Hin). exists w'. now right.
      * intros (w' & [Heq | Hin]); [inversion Heq; congruence | now exists w'].
Qed.

Lemma in_group_data gi w (v : MeshVertex) :
  In (gi, w) (group_data v) <-> In (mkVGE gi w) (groups v).
Proof.
  unfold group_data. rewrite in_map_iff. split.
  - intros ([g' w'] & Heq & Hin). simpl in Heq. now inversion Heq; subst.
  - intros Hin. exists (mkVGE gi w). split; [reflexivity | exact Hin].
Qed.

(** What [survives] decides, without any assumption on the table. *)
Lemma survives_iff gi t v :
  survives gi t v = true <->
  (exists w, In (mkVGE gi w) (groups v)) /\
  (forall w, In (mkVGE gi w) (groups v) -> (t <= w)%Q).
Proof.
  unfold survives. rewrite andb_true_iff, !negb_true_iff, has_entry_iff. split.
  - intros [(w & Hin) Hbt]. split.
    + exists w. now apply in_group_data.
    + intros w' Hin'. apply Qnot_lt_le. intros Hlt.
      assert (below_threshold gi t (group_data v) = true) as Habs; [|congruence].
      apply below_threshold_true. exists w'. split; [now apply in_group_data | exact Hlt].
  - intros [(w & Hin) Hall]. split.
    + exists w. now apply in_group_data.
    + destruct (below_threshold gi t (group_data v)) eqn:E; [|reflexivity].
      apply below_threshold_true in E. destruct E as (w' & Hin' & Hlt).
      apply in_group_data in Hin'. specialize (Hall _ Hin').
      exfalso. exact (Qlt_not_le _ _ Hlt Hall).
Qed.

(** *** The marking loop and the deletion compute a filter *)

Lemma mark_vertices_spec vgd gi t verts :
  forall i td,
    (forall j v, nth_error verts j = Some v ->
                 nth_error vgd (i + j) = Some (group_data v)) ->
    exists td',
      mark_vertices vgd gi t i verts td = Some td' /\
      forall p, In p td' <->
                In p td \/
                exists j v, p = i + j /\ nth_error verts j = Some v /\
                            survives gi t v = false.
Proof.
  induction verts as [|v rest IH]; intros i td Hvgd; simpl.
  - exists td. split; [reflexivity|]. intros p. split; [now left|].
    intros [H | (j & v & _ & Hj & _)]; [exact H | now destruct j].
  - pose proof (Hvgd 0 v eq_refl) as H0. rewrite Nat.add_0_r in H0. rewrite H0.
    match goal with
    | |- exists td', mark_vertices _ _ _ _ _ ?x = _ /\ _ => set (td2 := x)
    end.
    assert (Htd2 : forall p, In p td2 <-> In p td \/ (p = i /\ survives gi t v = false)).
    { intros p. subst td2. unfold survives.
      destruct (List.length _ =? 0) eqn:EA;
        destruct (below_threshold gi t (group_data v)) eqn:EB; simpl;
        rewrite ?in_app_iff; simpl; intuition (try congruence; auto). }
    destruct (IH (S i) td2) as (td' & Hrun & Hmem).
    { intros j v' Hj. replace (S i + j) with (i + S j) by lia. now apply Hvgd. }
    exists td'. split; [exact Hrun|]. intros p. rewrite Hmem, Htd2. split.
    + intros [[H | [-> Hs]] | (j & v' & -> & Hj & Hs)].
      * now left.
      * right. exists 0, v. rewrite Nat.add_0_r. now repeat split.
      * right. exists (S j), v'. repeat split; [lia | exact Hj | exact Hs].
    + intros [H | (j & v' & -> & Hj & Hs)]; [now left; left|].
      destruct j as [|j]; simpl in Hj.
      * inversion Hj; subst v'. left; right. split; [lia | exact Hs].
      * right. exists j, v'. repeat split; [lia | exact Hj | exact Hs].
Qed.

Lemma bmesh_delete_verts_spec td (keep : MeshVertex -> bool) verts :
  forall i,
    (forall j v, nth_error verts j = Some v ->
                 existsb (Nat.eqb (i + j)) td = negb (keep v)) ->
    bmesh_delete_verts td i verts = List.filter keep verts.
Proof.
  induction verts as [|v rest IH]; intros i Hk; simpl; [reflexivity|].
  pose proof (Hk 0 v eq_refl) as H0. rewrite Nat.add_0_r in H0. rewrite H0.
  rewrite (IH (S i)).
  - now destruct (keep v).
  - intros j v' Hj. replace (S i + j) with (i + S j) by lia. now apply Hk.
Qed.

Lemma mark_then_delete gi t verts :
  exists td,
    mark_vertices (List.map group_data verts) gi t 0 verts [] = Some td /\
    bmesh_delete_verts td 0 verts = List.filter (survives gi t) verts.
Proof.
  destruct (mark_vertices_spec (List.map group_data verts) gi t verts 0 [])
    as (td & Hrun & Hmem).
  { intros j v Hj. simpl. rewrite nth_error_map, Hj. reflexivity. }
  exists td. split; [exact Hrun|].
  apply bmesh_delete_verts_spec. intros j v Hj. simpl.
  destruct (survives gi t v) eqn:Es; simpl.
  - destruct (existsb (Nat.eqb j) td) eqn:Ex; [|reflexivity].
    apply existsb_exists in Ex. destruct Ex as (p & Hp & Heq).
    apply Nat.eqb_eq in Heq. subst p.
    apply Hmem in Hp. destruct Hp as [[] | (j' & v' & Hjj & Hj' & Hs)].
    simpl in Hjj. subst j'. congruence.
  - apply existsb_exists. exists j. split; [|apply Nat.eqb_refl].
    apply Hmem. right. exists j, v. now repeat split.
Qed.

(** *** What the partition loop does to the state *)

Lemma partition_duplicate_closed s mesh_obj m g n :
  partition_duplicate s mesh_obj m (List.map group_data (vertices m)) g n =
  Some (sub_object (name_suffix s) (weight_threshold s) mesh_obj m g n).
Proof.
  unfold partition_duplicate, sub_object.
  destruct (mark_then_delete (vg_index g) (weight_threshold s) (vertices m))
    as (td & -> & ->).
  reflexivity.
Qed.

Lemma separate_loop mesh_obj m vgs :
  forall st c,
    objs_collection_created (settings st) = Some c ->
    for_each vgs (separate_group mesh_obj m (List.map group_data (vertices m))) st =
    Ok tt
      (mkState
         (with_created
            (Some (mkCollection (coll_name c)
                     (objects c ++
                      sub_objects (name_suffix (settings st))
                        (weight_threshold (settings st)) mesh_obj m (next_oid st) vgs)))
            (settings st))
         (armatures st) (next_oid st + List.length vgs) (active st) (selected st)
         (mode st) (log st ++ partition_events (oid mesh_obj) (next_oid st) vgs)).
Proof.
  induction vgs as [|g rest IH]; intros st c Hc.
  - destruct st as [s ? ? ? ? ? ?]. destruct s. destruct c. simpl in *. subst.
    unfold ret, with_created. simpl. rewrite !app_nil_r, Nat.add_0_r. reflexivity.
  - simpl. unfold bind at 1. unfold separate_group, bind, fresh_oid, get. simpl.
    rewrite partition_duplicate_closed. unfold link_created. simpl. rewrite Hc.
    unfold modify. simpl.
    erewrite IH by (simpl; reflexivity). simpl.
    unfold with_created. simpl.
    rewrite <- !app_assoc, Nat.add_succ_r. reflexivity.
Qed.

Lemma unlink_object_app o l1 l1' l2 :
  unlink_object o l1 = Some l1' ->
  unlink_object o (l1 ++ l2) = Some (l1' ++ l2).
Proof.
  revert l1'. induction l1 as [|x l1 IH]; intros l1' H; simpl in *; [discriminate|].
  destruct (oid x =? o).
  - now inversion H.
  - destruct (unlink_object o l1) as [r|]; [|discriminate].
    inversion H; subst. now rewrite (IH r eq_refl).
Qed.

Lemma unlink_object_in obj l :
  In obj l -> exists l', unlink_object (oid obj) l = Some l'.
Proof.
  induction l as [|x l IH]; intros Hin; simpl in *; [contradiction|].
  destruct (Nat.eqb_spec (oid x) (oid obj)) as [_|Hne]; [eauto|].
  destruct Hin as [-> | Hin]; [congruence|].
  destruct (IH Hin) as (l' & ->). eauto.
Qed.

Lemma nth_error_sub_objects suffix t mesh_obj m vgs :
  forall n k,
    nth_error (sub_objects suffix t mesh_obj m n vgs) k =
    option_map (fun g => sub_object suffix t mesh_obj m g (n + k)) (nth_error vgs k).
Proof.
  induction vgs as [|g rest IH]; intros n k; simpl.
  - now destruct k.
  - destruct k as [|k]; simpl.
    + now rewrite Nat.add_0_r.
    + rewrite IH. now rewrite Nat.add_succ_r.
Qed.

Lemma length_sub_objects suffix t mesh_obj m vgs :
  forall n, List.length (sub_objects suffix t mesh_obj m n vgs) = List.length vgs.
Proof. induction vgs; intros n; simpl; [reflexivity | now rewrite IHvgs]. Qed.

(** The whole of [separate_mesh_by_vertex_groups] on a mesh object that is
    linked in the working collection: it returns, the object has left the
    collection and one duplicate per vertex group has joined it, in the
    order of the groups. *)
Lemma separate_mesh_by_vertex_groups_spec st mesh_obj m c :
  data mesh_obj = MeshData m ->
  objs_collection_created (settings st) = Some c ->
  In mesh_obj (objects c) ->
  exists l,
    unlink_object (oid mesh_obj) (objects c) = Some l /\
    separate_mesh_by_vertex_groups mesh_obj st =
    Ok tt
      (mkState
         (with_created
            (Some (mkCollection (coll_name c)
                     (l ++ sub_objects (name_suffix (settings st))
                             (weight_threshold (settings st)) mesh_obj m (next_oid st)
                             (vertex_groups mesh_obj))))
            (settings st))
         (armatures st) (next_oid st + List.length (vertex_groups mesh_obj))
         (drop_active (oid mesh_obj) (active st))
         (List.filter (fun x => negb (x =? oid mesh_obj)) (selected st)) (mode st)
         (log st ++ partition_events (oid mesh_obj) (next_oid st) (vertex_groups mesh_obj)
                 ++ [EvRemoveObject (oid mesh_obj)])).
Proof.
  intros Hdata Hc Hin.
  destruct (unlink_object_in _ _ Hin) as (l & Hl).
  exists l. split; [exact Hl|].
  unfold separate_mesh_by_vertex_groups. rewrite Hdata.
  unfold bind at 1. unfold get. rewrite Hc.
  unfold bind at 1. rewrite (separate_loop _ _ _ _ _ Hc).
  unfold bind, unlink_created, modify. simpl.
  rewrite (unlink_object_app _ _ _ _ Hl). simpl.
  unfold with_created, data_objects_remove, emit. simpl.
  rewrite <- app_assoc. reflexivity.
Qed.

Lemma qualifies_survives t gi v :
  one_weight_per_group v ->
  (survives gi t v = true <-> qualifies t gi v).
Proof.
  intros Hnd. rewrite survives_iff. unfold qualifies. split.
  - intros [(w & Hin) Hall]. exists w. split; [exact Hin | now apply Hall].
  - intros (w & Hin & Hle). split; [now exists w|].
    intros w' Hin'. 
    assert (w' = w) as ->; [|exact Hle].
    unfold one_weight_per_group in Hnd.
    revert Hnd Hin Hin'. generalize (groups v) as l.
    induction l as [|e l IH]; simpl; [contradiction|].
    intros Hnd [He | Hin] [He' | Hin'].
    + congruence.
    + exfalso. inversion Hnd as [|? ? Hnotin _]; subst. apply Hnotin.
      apply in_map_iff. now exists (mkVGE gi w').
    + exfalso. inversion Hnd as [|? ? Hnotin _]; subst. apply Hnotin.
      apply in_map_iff. now exists (mkVGE gi w).
    + inversion Hnd; subst. now apply IH.
Qed.

Lemma survives_qualifies t gi v : survives gi t v = true -> qualifies t gi v.
Proof.
  rewrite survives_iff. intros [(w & Hin) Hall]. exists w. split; [exact Hin | now apply Hall].
Qed.

Lemma in_sub_object_vertices suffix t mesh_obj m g n v :
  In v (object_vertices (sub_object suffix t mesh_obj m g n)) <->
  In v (vertices m) /\ survives (vg_index g) t v = true.
Proof. unfold object_vertices, sub_object. simpl. apply filter_In. Qed.

(** ** C1 *)

(** C1 (partition completeness).  [separate_mesh_by_vertex_groups] on a
    mesh object of the working collection returns; afterwards the
    collection holds, after the objects that were there (the original
    unlinked), one duplicate per vertex group in group order; and a vertex
    [v] of the source mesh is in the duplicate made for [g] if and only if
    the weight table of the original has an entry for [g] at [v] whose
    weight is at least the threshold.  In particular a vertex all of whose
    entries are under the threshold is in no duplicate.  The table holds at
    most one entry per group and vertex. *)
Theorem partition_completeness st mesh_obj m c :
  data mesh_obj = MeshData m ->
  objs_collection_created (settings st) = Some c ->
  In mesh_obj (objects c) ->
  (forall v, In v (vertices m) -> one_weight_per_group v) ->
  exists st' l dups,
    separate_mesh_by_vertex_groups mesh_obj st = Ok tt st' /\
    unlink_object (oid mesh_obj) (objects c) = Some l /\
    objs_collection_created (settings st') = Some (mkCollection (coll_name c) (l ++ dups)) /\
    List.length dups = List.length (vertex_groups mesh_obj) /\
    forall k g,
      nth_error (vertex_groups mesh_obj) k = Some g ->
      exists d,
        nth_error dups k = Some d /\
        forall v,
          In v (vertices m) ->
          (In v (object_vertices d) <->
           qualifies (weight_threshold (settings st)) (vg_index g) v) /\
          ((forall e, In e (groups v) ->
                      (weight e < weight_threshold (settings st))%Q) ->
           ~ In v (object_vertices d)).
Proof.
  intros Hdata Hc Hin Hone.
  destruct (separate_mesh_by_vertex_groups_spec st mesh_obj m c Hdata Hc Hin)
    as (l & Hl & Hrun).
  eexists _, l, _. split; [exact Hrun|]. split; [exact Hl|].
  split; [reflexivity|]. split; [apply length_sub_objects|].
  intros k g Hk. rewrite nth_error_sub_objects, Hk. simpl.
  eexists. split; [reflexivity|]. intros v Hv.
  rewrite in_sub_object_vertices. split.
  - rewrite (qualifies_survives _ _ _ (Hone v Hv)). tauto.
  - intros Hlow [_ Hs]. apply survives_qualifies in Hs.
    destruct Hs as (w & He & Hle). specialize (Hlow _ He). simpl in Hlow.
    exact (Qlt_not_le _ _ Hlow Hle).
Qed.

Lemma partition_completeness_witness :
  data demo_work = MeshData (mkMesh "BodyMesh_Solid" (vertices demo_mesh)) /\
  objs_collection_created (settings demo_work_state)
  = Some (mkCollection "Src_Solid" [demo_work]) /\
  In demo_work [demo_work] /\
  (forall v, In v (vertices demo_mesh) -> one_weight_per_group v) /\
  exists st' l dups,
    separate_mesh_by_vertex_groups demo_work demo_work_state = Ok tt st' /\
    unlink_object (oid demo_work) [demo_work] = Some l /\
    objs_collection_created (settings st') = Some (mkCollection "Src_Solid" (l ++ dups)) /\
    List.length dups = List.length (vertex_groups demo_work) /\
    forall k g,
      nth_error (vertex_groups demo_work) k = Some g ->
      exists d,
        nth_error dups k = Some d /\
        forall v,
          In v (vertices demo_mesh) ->
          (In v (object_vertices d) <->
           qualifies (weight_threshold (settings demo_work_state)) (vg_index g) v) /\
          ((forall e, In e (groups v) ->
                      (weight e < weight_threshold (settings demo_work_state))%Q) ->
           ~ In v (object_vertices d)).
Proof.
  split; [reflexivity|]. split; [reflexivity|]. split; [simpl; left; reflexivity|].
  split;
    [intros v Hv; simpl in Hv; unfold one_weight_per_group;
     destruct Hv as [<- | [<- | [<- | [<- | []]]]]; simpl;
     repeat constructor; simpl; tauto|].
  apply (partition_completeness demo_work_state demo_work
           (mkMesh "BodyMesh_Solid" (vertices demo_mesh))
           (mkCollection "Src_Solid" [demo_work])).
  - reflexivity.
  - reflexivity.
  - simpl; left; reflexivity.
  - intros v Hv; simpl in Hv; unfold one_weight_per_group;
      destruct Hv as [<- | [<- | [<- | [<- | []]]]]; simpl;
      repeat constructor; simpl; tauto.
Defined.

(** The run of the specification's example: the duplicate for A keeps
    vertex 0 only, the duplicate for B keeps vertex 2 only. *)
Example demo_partition :
  exists st',
    separate_mesh_by_vertex_groups demo_work demo_work_state = Ok tt st' /\
    option_map (fun c => List.map (fun d => (name d, List.map index (object_vertices d)))
                           (objects c))
      (objs_collection_created (settings st'))
    = Some [("Body_A_Solid", [0]); ("Body_B_Solid", [2])].
Proof. eexists. split; vm_compute; reflexivity. Qed.

(** ** C2 *)

(** C2, as stated, fails: the vertex of [shared_work] carries weight 1/2
    for group 0 and for group 1, the threshold is 0.3, and the vertex is
    in the duplicate made for group 0 and in the one made for group 1. *)
Lemma partition_disjointness_counterexample :
  exists st' c' d0 d1,
    separate_mesh_by_vertex_groups shared_work shared_state = Ok tt st' /\
    log st' = [EvPartition 10 0 11; EvPartition 10 1 12; EvRemoveObject 10] /\
    objs_collection_created (settings st') = Some c' /\
    objects c' = [d0; d1] /\
    oid d0 = 11 /\ oid d1 = 12 /\
    In shared_vertex (vertices (mkMesh "ArmMesh_Solid" [shared_vertex])) /\
    In shared_vertex (object_vertices d0) /\
    In shared_vertex (object_vertices d1).
Proof.
  eexists _, _, _, _.
  split; [vm_compute; reflexivity|].
  split; [reflexivity|].
  split; [reflexivity|].
  split; [reflexivity|].
  split; [reflexivity|]. split; [reflexivity|].
  split; [left; reflexivity|].
  split; left; reflexivity.
Qed.

(** C2 (partition overlap, amended).  For two different positions in the
    list of vertex groups, a source vertex is in both duplicates exactly
    when its weight reaches the threshold for both groups; so the two
    duplicates share no source vertex when no vertex reaches the threshold
    for both. *)
Theorem partition_overlap st mesh_obj m c :
  data mesh_obj = MeshData m ->
  objs_collection_created (settings st) = Some c ->
  In mesh_obj (objects c) ->
  (forall v, In v (vertices m) -> one_weight_per_group v) ->
  exists st' l dups,
    separate_mesh_by_vertex_groups mesh_obj st = Ok tt st' /\
    objs_collection_created (settings st') = Some (mkCollection (coll_name c) (l ++ dups)) /\
    forall k1 k2 g1 g2,
      k1 <> k2 ->
      nth_error (vertex_groups mesh_obj) k1 = Some g1 ->
      nth_error (vertex_groups mesh_obj) k2 = Some g2 ->
      exists d1 d2,
        nth_error dups k1 = Some d1 /\
        nth_error dups k2 = Some d2 /\
        (forall v,
            In v (vertices m) ->
            (In v (object_vertices d1) /\ In v (object_vertices d2) <->
             qualifies (weight_threshold (settings st)) (vg_index g1) v /\
             qualifies (weight_threshold (settings st)) (vg_index g2) v)) /\
        ((forall v, In v (vertices m) ->
                    ~ (qualifies (weight_threshold (settings st)) (vg_index g1) v /\
                       qualifies (weight_threshold (settings st)) (vg_index g2) v)) ->
         forall v, ~ (In v (object_vertices d1) /\ In v (object_vertices d2))).
Proof.
  intros Hdata Hc Hin Hone.
  destruct (separate_mesh_by_vertex_groups_spec st mesh_obj m c Hdata Hc Hin)
    as (l & Hl & Hrun).
  eexists _, l, _. split; [exact Hrun|]. split; [reflexivity|].
  intros k1 k2 g1 g2 _ Hk1 Hk2.
  rewrite !nth_error_sub_objects, Hk1, Hk2. simpl.
  eexists _, _. split; [reflexivity|]. split; [reflexivity|]. split.
  - intros v Hv. rewrite !in_sub_object_vertices.
    rewrite <- !(qualifies_survives _ _ _ (Hone v Hv)). tauto.
  - intros Hnone v [H1 H2].
    apply in_sub_object_vertices in H1, H2. destruct H1 as [Hv H1], H2 as [_ H2].
    apply (Hnone v Hv). split; now apply survives_qualifies.
Qed.

Lemma partition_overlap_witness :
  data demo_work = MeshData (mkMesh "BodyMesh_Solid" (vertices demo_mesh)) /\
  objs_collection_created (settings demo_work_state)
  = Some (mkCollection "Src_Solid" [demo_work]) /\
  In demo_work [demo_work] /\
  (forall v, In v (vertices demo_mesh) -> one_weight_per_group v) /\
  exists st' l dups,
    separate_mesh_by_vertex_groups demo_work demo_work_state = Ok tt st' /\
    objs_collection_created (settings st') = Some (mkCollection "Src_Solid" (l ++ dups)) /\
    forall k1 k2 g1 g2,
      k1 <> k2 ->
      nth_error (vertex_groups demo_work) k1 = Some g1 ->
      nth_error (vertex_groups demo_work) k2 = Some g2 ->
      exists d1 d2,
        nth_error dups k1 = Some d1 /\
        nth_error dups k2 = Some d2 /\
        (forall v,
            In v (vertices demo_mesh) ->
            (In v (object_vertices d1) /\ In v (object_vertices d2) <->
             qualifies (weight_threshold (settings demo_work_state)) (vg_index g1) v /\
             qualifies (weight_threshold (settings demo_work_state)) (vg_index g2) v)) /\
        ((forall v, In v (vertices demo_mesh) ->
                    ~ (qualifies (weight_threshold (settings demo_work_state)) (vg_index g1) v /\
                       qualifies (weight_threshold (settings demo_work_state)) (vg_index g2) v)) ->
         forall v, ~ (In v (object_vertices d1) /\ In v (object_vertices d2))).
Proof.
  split; [reflexivity|]. split; [reflexivity|]. split; [simpl; left; reflexivity|].
  split;
    [intros v Hv; simpl in Hv; unfold one_weight_per_group;
     destruct Hv as [<- | [<- | [<- | [<- | []]]]]; simpl;
     repeat constructor; simpl; tauto|].
  apply (partition_overlap demo_work_state demo_work
           (mkMesh "BodyMesh_Solid" (vertices demo_mesh))
           (mkCollection "Src_Solid" [demo_work])).
  - reflexivity.
  - reflexivity.
  - simpl; left; reflexivity.
  - intros v Hv; simpl in Hv; unfold one_weight_per_group;
      destruct Hv as [<- | [<- | [<- | [<- | []]]]]; simpl;
      repeat constructor; simpl; tauto.
Defined.

(** ** C4 *)

Lemma in_partition_events src vgs :
  forall n k g,
    nth_error vgs k = Some g ->
    In (EvPartition src (vg_index g) (n + k)) (partition_events src n vgs).
Proof.
  induction vgs as [|g0 rest IH]; intros n k g Hk; [now destruct k|].
  destruct k as [|k]; simpl in *.
  - inversion Hk; subst. rewrite Nat.add_0_r. now left.
  - right. rewrite Nat.add_succ_r. now apply (IH (S n)).
Qed.

(** C4 (empty partitions).  [separate_mesh_by_vertex_groups] on a mesh
    object of the working collection returns, and for every vertex group
    [g] of the object a duplicate made for [g] is in the working collection
    afterwards: a mesh object, named after [g], recorded in the log as
    linked for [g].  When no vertex reaches the threshold for [g] the
    duplicate is there all the same and has no vertex. *)
Theorem empty_partition_not_skipped st mesh_obj m c :
  data mesh_obj = MeshData m ->
  objs_collection_created (settings st) = Some c ->
  In mesh_obj (objects c) ->
  exists st' c',
    separate_mesh_by_vertex_groups mesh_obj st = Ok tt st' /\
    objs_collection_created (settings st') = Some c' /\
    forall k g,
      nth_error (vertex_groups mesh_obj) k = Some g ->
      exists d,
        In d (objects c') /\
        oid d = next_oid st + k /\
        type d = MESH /\
        name d = partition_name (name_suffix (settings st)) (name mesh_obj) (vg_name g) /\
        In (EvPartition (oid mesh_obj) (vg_index g) (oid d)) (log st') /\
        ((forall v, In v (vertices m) ->
                    ~ qualifies (weight_threshold (settings st)) (vg_index g) v) ->
         object_vertices d = []).
Proof.
  intros Hdata Hc Hin.
  destruct (separate_mesh_by_vertex_groups_spec st mesh_obj m c Hdata Hc Hin)
    as (l & Hl & Hrun).
  eexists _, _. split; [exact Hrun|]. split; [reflexivity|].
  intros k g Hk.
  exists (sub_object (name_suffix (settings st)) (weight_threshold (settings st))
            mesh_obj m g (next_oid st + k)).
  split.
  { simpl. apply in_or_app. right. apply (nth_error_In _ k).
    rewrite nth_error_sub_objects, Hk. reflexivity. }
  split; [reflexivity|]. split; [reflexivity|]. split; [reflexivity|]. split.
  { simpl. apply in_or_app. right. apply in_or_app. left.
    now apply in_partition_events. }
  intros Hnone. unfold object_vertices, sub_object. simpl.
  induction (vertices m) as [|v vs IH]; [reflexivity|]. simpl.
  destruct (survives (vg_index g) (weight_threshold (settings st)) v) eqn:Es.
  - exfalso. apply (Hnone v); [now left | now apply survives_qualifies].
  - apply IH. intros v' Hv'. apply Hnone. now right.
Qed.

Lemma empty_partition_not_skipped_witness :
  data demo_work = MeshData (mkMesh "BodyMesh_Solid" (vertices demo_mesh)) /\
  objs_collection_created (settings demo_work_state)
  = Some (mkCollection "Src_Solid" [demo_work]) /\
  In demo_work [demo_work] /\
  exists st' c',
    separate_mesh_by_vertex_groups demo_work demo_work_state = Ok tt st' /\
    objs_collection_created (settings st') = Some c' /\
    forall k g,
      nth_error (vertex_groups demo_work) k = Some g ->
      exists d,
        In d (objects c') /\
        oid d = next_oid demo_work_state + k /\
        type d = MESH /\
        name d = partition_name (name_suffix (settings demo_work_state))
                   (name demo_work) (vg_name g) /\
        In (EvPartition (oid demo_work) (vg_index g) (oid d)) (log st') /\
        ((forall v, In v (vertices demo_mesh) ->
                    ~ qualifies (weight_threshold (settings demo_work_state)) (vg_index g) v) ->
         object_vertices d = []).
Proof.
  split; [reflexivity|]. split; [reflexivity|]. split; [simpl; left; reflexivity|].
  apply (empty_partition_not_skipped demo_work_state demo_work
           (mkMesh "BodyMesh_Solid" (vertices demo_mesh))
           (mkCollection "Src_Solid" [demo_work])).
  - reflexivity.
  - reflexivity.
  - simpl; left; reflexivity.
Defined.

(** With a threshold of 2 no vertex of the worked scene qualifies for any
    group; both duplicates are linked, without vertices. *)
Example demo_empty_partitions :
  exists st',
    separate_mesh_by_vertex_groups demo_work strict_work_state = Ok tt st' /\
    option_map (fun c => List.map (fun d => (oid d, name d, object_vertices d)) (objects c))
      (objs_collection_created (settings st'))
    = Some [(11, "Body_A_Solid", []); (12, "Body_B_Solid", [])] /\
    log st' = [EvPartition 10 0 11; EvPartition 10 1 12; EvRemoveObject 10].
Proof. eexists. split; [vm_compute; reflexivity|]. split; vm_compute; reflexivity. Qed.

(** The operator on the working copy, and on the source object, which is
    not linked in the working collection: the unlink of line 87 raises. *)
Example separate_operator_runs :
  (exists st',
      SKIN2SOLID_OT_separate_by_vertex_groups (Some demo_work) demo_work_state
      = ([], Ok FINISHED st')) /\
  SKIN2SOLID_OT_separate_by_vertex_groups (Some demo_body) demo_work_state
  = ([], Raise RuntimeError).
Proof. split; [eexists|]; vm_compute; reflexivity. Qed.

(** ** Names *)

Lemma append_nil_l (b : string) : String.append EmptyString b = b.
Proof. reflexivity. Qed.

Lemma append_cons c (a b : string) :
  String.append (String c a) b = String c (String.append a b).
Proof. reflexivity. Qed.

Lemma prefix_append old b : String.prefix old (String.append old b) = true.
Proof.
  induction old as [|c old IH].
  - rewrite append_nil_l. now destruct b.
  - rewrite append_cons. cbn [String.prefix].
    destruct (Ascii.ascii_dec c c); [exact IH | congruence].
Qed.

Lemma append_empty_r s : String.append s EmptyString = s.
Proof.
  induction s as [|a s IH]; [reflexivity|]. rewrite append_cons. now f_equal.
Qed.

Lemma append_assoc (a b c : string) :
  String.append (String.append a b) c = String.append a (String.append b c).
Proof.
  induction a as [|x a IH]; [reflexivity|]. rewrite !append_cons. now f_equal.
Qed.

(** Jumping over the rest of a match. *)
Lemma replace_scan_skip old new a b :
  PyStr.replace_scan old new (String.length a) (String.append a b) =
  PyStr.replace_scan old new 0 b.
Proof.
  induction a as [|c a IH]; [|rewrite append_cons; exact IH].
  rewrite append_nil_l. destruct b; reflexivity.
Qed.

(** A match at the head is replaced and the scan goes on behind it. *)
Lemma replace_scan_hit c old new b :
  PyStr.replace_scan (String c old) new 0 (String.append (String c old) b) =
  String.append new (PyStr.replace_scan (String c old) new 0 b).
Proof.
  pose proof (prefix_append (String c old) b) as Hp.
  rewrite append_cons in *.
  cbn [PyStr.replace_scan]. rewrite Hp.
  cbn [String.length]. rewrite Nat.sub_succ, Nat.sub_0_r.
  now rewrite replace_scan_skip.
Qed.

(** No match starts in [x]: the scan copies [x]. *)
Lemma replace_scan_copy old new x rest :
  PyStr.occurs_before (String.length x) old (String.append x rest) = false ->
  PyStr.replace_scan old new 0 (String.append x rest) =
  String.append x (PyStr.replace_scan old new 0 rest).
Proof.
  induction x as [|c x IH]; intros H; [reflexivity|].
  rewrite !append_cons in *.
  cbn [String.length PyStr.occurs_before] in H.
  apply orb_false_iff in H. destruct H as [Hp Hrest].
  cbn [PyStr.replace_scan]. rewrite Hp. f_equal. now apply IH.
Qed.

Lemma occurs_before_length old s :
  PyStr.occurs old s = false ->
  PyStr.occurs_before (String.length s) old s = false.
Proof.
  unfold PyStr.occurs. induction s as [|a s IH]; intros H; [reflexivity|].
  cbn [String.length PyStr.occurs_before] in *.
  apply orb_false_iff in H. destruct H as [Hp Hrest].
  rewrite Hp. now apply IH.
Qed.

Lemma replace_scan_none c old new s :
  PyStr.occurs (String c old) s = false ->
  PyStr.replace_scan (String c old) new 0 s = s.
Proof.
  intros H. apply occurs_before_length in H.
  rewrite <- (append_empty_r s) in H at 2.
  pose proof (replace_scan_copy (String c old) new s EmptyString H) as E.
  rewrite append_empty_r in E. rewrite E. cbn [PyStr.replace_scan].
  apply append_empty_r.
Qed.

(** Stripping the suffix from [x ++ suffix] gives [x] when the suffix does
    not start inside [x]. *)
Lemma replace_strips_final_suffix x suffix :
  suffix <> EmptyString ->
  PyStr.occurs_before (String.length x) suffix (String.append x suffix) = false ->
  PyStr.replace (String.append x suffix) suffix "" = x.
Proof.
  intros Hne H. destruct suffix as [|c suffix]; [congruence|].
  unfold PyStr.replace. rewrite (replace_scan_copy _ _ _ _ H).
  pose proof (replace_scan_hit c suffix "" EmptyString) as E.
  rewrite append_empty_r in E. rewrite E. cbn [PyStr.replace_scan].
  rewrite append_nil_l. apply append_empty_r.
Qed.

(** Stripping the suffix from [x ++ suffix ++ tail] gives [x ++ tail] when
    the suffix starts neither inside [x] nor in [tail]. *)
Lemma replace_strips_inner_suffix x suffix tail :
  suffix <> EmptyString ->
  PyStr.occurs_before (String.length x) suffix
    (String.append x (String.append suffix tail)) = false ->
  PyStr.occurs suffix tail = false ->
  PyStr.replace (String.append x (String.append suffix tail)) suffix "" =
  String.append x tail.
Proof.
  intros Hne H Htail. destruct suffix as [|c suffix]; [congruence|].
  unfold PyStr.replace. rewrite (replace_scan_copy _ _ _ _ H).
  rewrite replace_scan_hit, append_nil_l. now rewrite replace_scan_none.
Qed.

(** ** C3 *)

(** C3, as stated, fails.  The source object is named X_Solid and the
    suffix is _Solid: [create_working_collection] names the duplicate and
    its mesh X_Solid_Solid, and that is the name the object still has when
    [prepare_objects] is done (it has one vertex group and is not
    partitioned).  The rename of line 74 can leave a doubled suffix too:
    removing the match from X__So_Solidlid brings a new one together. *)
Lemma idempotent_naming_counterexample :
  name suffixed_body = "X_Solid" /\
  name_suffix (settings suffixed_state) = "_Solid" /\
  (exists st' c' d,
      create_working_collection suffixed_state = Ok (Some c') st' /\
      objects c' = [d] /\
      name d = "X_Solid_Solid" /\
      data_name d = "X_Solid_Solid") /\
  (exists st' c',
      prepare_objects suffixed_state = Ok tt st' /\
      objs_collection_created (settings st') = Some c' /\
      List.map name (objects c') = ["X_Solid_Solid"]) /\
  partition_name "_Solid" "X" "_So_Solidlid" = "X__Solid_Solid".
Proof.
  split; [reflexivity|]. split; [reflexivity|]. split; [|split].
  - eexists _, _, _. split; [vm_compute; reflexivity|].
    split; [reflexivity|]. split; reflexivity.
  - eexists _, _. split; [vm_compute; reflexivity|].
    split; reflexivity.
  - reflexivity.
Qed.

(** C3 (partition naming, amended).  With a non-empty suffix, the
    duplicate made for a group is named by line 74: the left-to-right
    matches of the suffix are removed from [mesh_obj.name + "_" +
    group.name] and the suffix is appended once; its mesh data gets the
    same name.  If the combined string is [y + suffix] and the suffix does
    not start inside [y], the name is [y + suffix], not doubled.  If the
    object is a working copy [x + suffix], and the suffix starts neither
    inside [x] nor in ["_" + group.name], the name is [x + "_" +
    group.name + suffix]. *)
Theorem partition_naming st mesh_obj m c :
  data mesh_obj = MeshData m ->
  objs_collection_created (settings st) = Some c ->
  In mesh_obj (objects c) ->
  name_suffix (settings st) <> EmptyString ->
  exists st' c',
    separate_mesh_by_vertex_groups mesh_obj st = Ok tt st' /\
    objs_collection_created (settings st') = Some c' /\
    forall k g,
      nth_error (vertex_groups mesh_obj) k = Some g ->
      let suffix := name_suffix (settings st) in
      let combined := String.append (name mesh_obj) (String.append "_" (vg_name g)) in
      exists d,
        In d (objects c') /\
        oid d = next_oid st + k /\
        name d = String.append (PyStr.replace combined suffix "") suffix /\
        data_name d = name d /\
        (forall y,
            combined = String.append y suffix ->
            PyStr.occurs_before (String.length y) suffix combined = false ->
            name d = String.append y suffix) /\
        (forall x,
            name mesh_obj = String.append x suffix ->
            PyStr.occurs_before (String.length x) suffix combined = false ->
            PyStr.occurs suffix (String.append "_" (vg_name g)) = false ->
            name d = String.append x (String.append (String.append "_" (vg_name g)) suffix)).
Proof.
  intros Hdata Hc Hin Hne.
  destruct (separate_mesh_by_vertex_groups_spec st mesh_obj m c Hdata Hc Hin)
    as (l & Hl & Hrun).
  eexists _, _. split; [exact Hrun|]. split; [reflexivity|].
  intros k g Hk suffix combined. subst suffix combined.
  exists (sub_object (name_suffix (settings st)) (weight_threshold (settings st))
            mesh_obj m g (next_oid st + k)).
  split.
  { simpl. apply in_or_app. right. apply (nth_error_In _ k).
    rewrite nth_error_sub_objects, Hk. reflexivity. }
  split; [reflexivity|]. split; [reflexivity|]. split; [reflexivity|].
  unfold sub_object, partition_name. cbn [name]. split.
  - intros y Hy Hocc. rewrite Hy in *. f_equal.
    now apply replace_strips_final_suffix.
  - intros x Hx Hocc Htail. rewrite Hx in *.
    rewrite append_assoc in *.
    rewrite (replace_strips_inner_suffix _ _ _ Hne Hocc Htail).
    now rewrite append_assoc.
Qed.

Lemma partition_naming_witness :
  data demo_work = MeshData (mkMesh "BodyMesh_Solid" (vertices demo_mesh)) /\
  objs_collection_created (settings demo_work_state)
  = Some (mkCollection "Src_Solid" [demo_work]) /\
  In demo_work [demo_work] /\
  name_suffix (settings demo_work_state) <> EmptyString /\
  exists st' c',
    separate_mesh_by_vertex_groups demo_work demo_work_state = Ok tt st' /\
    objs_collection_created (settings st') = Some c' /\
    forall k g,
      nth_error (vertex_groups demo_work) k = Some g ->
      let suffix := name_suffix (settings demo_work_state) in
      let combined := String.append (name demo_work) (String.append "_" (vg_name g)) in
      exists d,
        In d (objects c') /\
        oid d = next_oid demo_work_state + k /\
        name d = String.append (PyStr.replace combined suffix "") suffix /\
        data_name d = name d /\
        (forall y,
            combined = String.append y suffix ->
            PyStr.occurs_before (String.length y) suffix combined = false ->
            name d = String.append y suffix) /\
        (forall x,
            name demo_work = String.append x suffix ->
            PyStr.occurs_before (String.length x) suffix combined = false ->
            PyStr.occurs suffix (String.append "_" (vg_name g)) = false ->
            name d = String.append x (String.append (String.append "_" (vg_name g)) suffix)).
Proof.
  split; [reflexivity|]. split; [reflexivity|]. split; [simpl; left; reflexivity|].
  split; [discriminate|].
  apply (partition_naming demo_work_state demo_work
           (mkMesh "BodyMesh_Solid" (vertices demo_mesh))
           (mkCollection "Src_Solid" [demo_work])).
  - reflexivity.
  - reflexivity.
  - simpl; left; reflexivity.
  - discriminate.
Defined.

(** The two conditional cases of the theorem at work. *)
Example partition_name_working_copy :
  partition_name "_Solid" "Body_Solid" "A" = "Body_A_Solid".
Proof. reflexivity. Qed.

Example partition_name_not_doubled :
  partition_name "_Solid" "Body" "Arm_Solid" = "Body_Arm_Solid".
Proof. reflexivity. Qed.

(** ** Loops and the log *)

Lemma bind_ok {A B} (c : Cmd A) (k : A -> Cmd B) st a st1 :
  c st = Ok a st1 -> bind c k st = k a st1.
Proof. intros H. unfold bind. now rewrite H. Qed.

Lemma keeps_refl n st : keeps n st st.
Proof.
  repeat split; auto. exists []. split; [now rewrite app_nil_r | constructor].
Qed.

Lemma keeps_trans n st1 st2 st3 : keeps n st1 st2 -> keeps n st2 st3 -> keeps n st1 st3.
Proof.
  intros (Hr1 & Ha1 & Hc1 & e1 & Hl1 & Hf1) (Hr2 & Ha2 & Hc2 & e2 & Hl2 & Hf2).
  repeat split; try congruence; auto.
  exists (e1 ++ e2). split.
  - rewrite Hl2, Hl1. now rewrite app_assoc.
  - apply Forall_app; auto.
Qed.

(** ** [mode_set] *)

Lemma mode_set_active m st : active st <> None -> mode_set m st = Ok tt (with_mode m st).
Proof. unfold mode_set. destruct (active st); [reflexivity | intros H; now contradiction H]. Qed.

Lemma mode_set_no_active m st : active st = None -> mode_set m st = Raise RuntimeError.
Proof. unfold mode_set. now intros ->. Qed.

Lemma mode_set_inv m st st' :
  mode_set m st = Ok tt st' -> active st <> None /\ st' = with_mode m st.
Proof.
  unfold mode_set. destruct (active st); [|discriminate].
  intros H. injection H as <-. split; [discriminate | reflexivity].
Qed.

Lemma bind_inv {A B} (c : Cmd A) (k : A -> Cmd B) st b st' :
  bind c k st = Ok b st' -> exists a st1, c st = Ok a st1 /\ k a st1 = Ok b st'.
Proof.
  unfold bind. destruct (c st) as [a st1|]; [|discriminate]. intros H. now exists a, st1.
Qed.

(** ** The bone binding *)

Lemma existsb_eqb_In s l : existsb (String.eqb s) l = true <-> In s l.
Proof.
  rewrite existsb_exists. split.
  - intros (x & Hx & Heq). apply String.eqb_eq in Heq. now subst.
  - intros H. exists s. split; [exact H | apply String.eqb_refl].
Qed.

(** One turn of the loop of line 141 when an object is active. *)
Lemma parent_to_bone_result r key a obj st :
  data r = ArmatureData key ->
  armatures st !! key = Some a ->
  active st <> None ->
  exists st',
    parent_to_bone (Some r) obj st = Ok (bound_to r (bones a) obj) st' /\
    settings st' = settings st /\
    armatures st' = armatures st /\
    next_oid st' = next_oid st /\
    active st' <> None /\
    log st' = log st ++ parent_events (bones a) obj.
Proof.
  intros Hd Ha Hact.
  assert (Hsame : exists st', Ok obj st = Ok obj st' /\ settings st' = settings st /\
                              armatures st' = armatures st /\ next_oid st' = next_oid st /\
                              active st' <> None /\ log st' = log st ++ []).
  { exists st. rewrite app_nil_r. repeat split. exact Hact. }
  unfold parent_to_bone, bound_to, parent_events, bone_of.
  destruct (type obj); try exact Hsame.
  destruct (vertex_groups obj) as [|vg0 vgs]; [exact Hsame|].
  unfold bind at 1. unfold rig_pose_bones. rewrite Hd.
  unfold bind at 1. unfold get. rewrite Ha. unfold ret at 1.
  destruct (existsb (String.eqb (vg_name vg0)) (bones a)); simpl; [|exact Hsame].
  unfold bind at 1. rewrite (mode_set_active _ _ Hact).
  unfold bind, modify, mode_set, ret. simpl.
  eexists. split; [reflexivity|]. simpl.
  split; [reflexivity|]. split; [reflexivity|]. split; [reflexivity|].
  split; [discriminate|]. now rewrite <- app_assoc.
Qed.

(** The same turn without an active object: the first object that would
    be parented stops the loop at the [mode_set] of line 155. *)
Lemma parent_to_bone_no_active r key a obj st :
  data r = ArmatureData key ->
  armatures st !! key = Some a ->
  active st = None ->
  parent_to_bone (Some r) obj st
  = match bone_of (bones a) obj with
    | None => Ok obj st
    | Some _ => Raise RuntimeError
    end.
Proof.
  intros Hd Ha Hact. unfold parent_to_bone, bone_of.
  destruct (type obj); try reflexivity.
  destruct (vertex_groups obj) as [|vg0 vgs]; [reflexivity|].
  unfold bind at 1. unfold rig_pose_bones. rewrite Hd.
  unfold bind at 1. unfold get. rewrite Ha. unfold ret at 1.
  destruct (existsb (String.eqb (vg_name vg0)) (bones a)); simpl; [|reflexivity].
  unfold bind at 1. now rewrite (mode_set_no_active _ _ Hact).
Qed.

Lemma map_each_parent_result r key a l :
  data r = ArmatureData key ->
  forall st,
    armatures st !! key = Some a ->
    active st <> None ->
    exists st',
      map_each l (parent_to_bone (Some r)) st = Ok (List.map (bound_to r (bones a)) l) st' /\
      settings st' = settings st /\
      armatures st' = armatures st /\
      next_oid st' = next_oid st /\
      active st' <> None /\
      log st' = log st ++ concat (List.map (parent_events (bones a)) l).
Proof.
  intros Hd. induction l as [|x rest IH]; intros st Ha Hact.
  - exists st. simpl. rewrite app_nil_r. repeat split. exact Hact.
  - destruct (parent_to_bone_result r key a x st Hd Ha Hact)
      as (st1 & Hx & Hs1 & Ha1 & Hn1 & Hact1 & Hl1).
    destruct (IH st1) as (st2 & Hrest & Hs2 & Ha2 & Hn2 & Hact2 & Hl2);
      [now rewrite Ha1 | exact Hact1 |].
    exists st2. cbn [map_each]. unfold bind. rewrite Hx, Hrest. unfold ret.
    split; [reflexivity|]. split; [congruence|]. split; [congruence|]. split; [congruence|].
    split; [exact Hact2|]. simpl. rewrite Hl2, Hl1. now rewrite app_assoc.
Qed.

Lemma map_each_parent_no_active r key a l :
  data r = ArmatureData key ->
  forall st,
    armatures st !! key = Some a ->
    active st = None ->
    map_each l (parent_to_bone (Some r)) st = Ok l st \/
    map_each l (parent_to_bone (Some r)) st = Raise RuntimeError.
Proof.
  intros Hd. induction l as [|x rest IH]; intros st Ha Hact.
  - left. reflexivity.
  - cbn [map_each].
    pose proof (parent_to_bone_no_active r key a x st Hd Ha Hact) as Hx.
    destruct (bone_of (bones a) x).
    + right. unfold bind. now rewrite Hx.
    + destruct (IH st Ha Hact) as [H | H]; [left | right];
        unfold bind; rewrite Hx, H; reflexivity.
Qed.

(** The binder with an active object: what it returns. *)
Lemma parent_objects_result st c r key a :
  objs_collection_created (settings st) = Some c ->
  rig (settings st) = Some r ->
  data r = ArmatureData key ->
  armatures st !! key = Some a ->
  active st <> None ->
  exists st',
    parent_objects_to_corresponding_bones st = Ok tt st' /\
    settings st' = with_created
                     (Some (mkCollection (coll_name c)
                              (List.map (bound_to r (bones a)) (objects c))))
                     (settings st) /\
    armatures st' = <[key := mkArmature POSE (bones a)]> (armatures st) /\
    next_oid st' = next_oid st /\
    mode st' = OBJECT_MODE /\
    active st' <> None /\
    log st' = log st ++ concat (List.map (parent_events (bones a)) (objects c))
                     ++ [EvPosePosition key POSE].
Proof.
  intros Hc Hr Hd Ha Hact.
  destruct (map_each_parent_result r key a (objects c) Hd st Ha Hact)
    as (st1 & Hmap & Hs1 & Ha1 & Hn1 & Hact1 & Hl1).
  eexists. split.
  { unfold parent_objects_to_corresponding_bones.
    unfold bind at 1. unfold get. rewrite Hc, Hr.
    unfold bind at 1. rewrite Hmap.
    unfold bind at 1. unfold store_created_objects. rewrite Hs1, Hc.
    unfold bind at 1. rewrite mode_set_active by exact Hact1.
    unfold set_rig_data_pose_position. rewrite Hd.
    unfold bind at 1. unfold get. simpl. rewrite Ha1, Ha.
    unfold bind, modify. reflexivity. }
  simpl. rewrite ?Hs1, ?Ha1, ?Hn1, ?Hl1, <- ?app_assoc.
  repeat split; try reflexivity. exact Hact1.
Qed.

(** The binder without an active object raises at a [mode_set]: that of
    line 155 for the first object it would parent, else that of line
    176. *)
Lemma parent_objects_no_active st c r key a :
  objs_collection_created (settings st) = Some c ->
  rig (settings st) = Some r ->
  data r = ArmatureData key ->
  armatures st !! key = Some a ->
  active st = None ->
  parent_objects_to_corresponding_bones st = Raise RuntimeError.
Proof.
  intros Hc Hr Hd Ha Hact.
  unfold parent_objects_to_corresponding_bones.
  unfold bind at 1. unfold get. rewrite Hc, Hr.
  unfold bind at 1.
  destruct (map_each_parent_no_active r key a (objects c) Hd st Ha Hact) as [-> | ->];
    [|reflexivity].
  unfold bind at 1. unfold store_created_objects. rewrite Hc.
  unfold bind at 1. now rewrite mode_set_no_active.
Qed.

Lemma map_each_keeps {A} n (body : A -> Cmd A) :
  (forall x st y st', body x st = Ok y st' -> keeps n st st') ->
  forall l st l' st', map_each l body st = Ok l' st' -> keeps n st st'.
Proof.
  intros Hbody. induction l as [|x rest IH]; intros st l' st' H; simpl in H.
  - inversion H; subst. apply keeps_refl.
  - unfold bind in H. destruct (body x st) as [y st1|] eqn:Hx; [|discriminate].
    destruct (map_each rest body st1) as [r st2|] eqn:Hr; [|discriminate].
    inversion H; subst. eapply keeps_trans; eauto.
Qed.

Lemma rig_pose_bones_inv rg st a st' :
  rig_pose_bones rg st = Ok a st' ->
  st' = st /\
  exists r key arm,
    rg = Some r /\ data r = ArmatureData key /\
    armatures st !! key = Some arm /\ a = bones arm.
Proof.
  unfold rig_pose_bones. destruct rg as [r|]; [|discriminate].
  destruct (data r) as [|key|] eqn:Hd; try discriminate.
  unfold bind, get. destruct (armatures st !! key) as [arm|] eqn:Ha; [|discriminate].
  unfold ret. intros H. inversion H; subst. split; [reflexivity|]. eauto 10.
Qed.

Lemma parent_to_bone_keeps rg obj st obj' st' :
  parent_to_bone rg obj st = Ok obj' st' ->
  keeps 6 st st' /\ settings st' = settings st.
Proof.
  unfold parent_to_bone.
  destruct (type obj);
    try (intros H; inversion H; subst; split; [apply keeps_refl | reflexivity]).
  destruct (vertex_groups obj) as [|vg0 vgs];
    [intros H; inversion H; subst; split; [apply keeps_refl | reflexivity]|].
  unfold bind at 1.
  destruct (rig_pose_bones rg st) as [a st1|] eqn:Hb; [|discriminate].
  apply rig_pose_bones_inv in Hb. destruct Hb as (-> & r & key & arm & -> & _ & _ & _).
  destruct (negb (existsb (String.eqb (vg_name vg0)) a));
    [intros H; inversion H; subst; split; [apply keeps_refl | reflexivity]|].
  intros H. apply bind_inv in H. destruct H as ([] & st1 & Hm & H).
  apply mode_set_inv in Hm. destruct Hm as [_ ->].
  unfold bind, modify, mode_set, ret in H. simpl in H. inversion H; subst.
  split; [keeps_by_computation | reflexivity].
Qed.

Lemma map_each_parent_settings rg l :
  forall st objs st1,
    map_each l (parent_to_bone rg) st = Ok objs st1 -> settings st1 = settings st.
Proof.
  induction l as [|x rest IH]; intros st objs st1 H; simpl in H.
  - now inversion H.
  - unfold bind in H.
    destruct (parent_to_bone rg x st) as [y st2|] eqn:Hx; [|discriminate].
    destruct (map_each rest (parent_to_bone rg) st2) as [r st3|] eqn:Hr; [|discriminate].
    inversion H; subst. rewrite (IH _ _ _ Hr).
    exact (proj2 (parent_to_bone_keeps _ _ _ _ _ Hx)).
Qed.

(** What the last line of the binder leaves behind. *)
Lemma set_rig_data_pose_position_inv rg p st st' :
  set_rig_data_pose_position rg p st = Ok tt st' ->
  exists r key a,
    rg = Some r /\ data r = ArmatureData key /\ armatures st !! key = Some a /\
    st' = emit (EvPosePosition key p)
            (with_armatures (<[key := mkArmature p (bones a)]> (armatures st)) st).
Proof.
  intros H. unfold set_rig_data_pose_position, bind, get, raise, modify in H.
  destruct_matches H; inversion H; subst. eauto 10.
Qed.

Lemma parent_objects_inv st st' :
  parent_objects_to_corresponding_bones st = Ok tt st' ->
  exists c r key a evs,
    objs_collection_created (settings st) = Some c /\
    rig (settings st) = Some r /\ data r = ArmatureData key /\
    armatures st !! key = Some a /\
    rig (settings st') = Some r /\
    armatures st' = <[key := mkArmature POSE (bones a)]> (armatures st) /\
    is_Some (objs_collection_created (settings st')) /\
    is_objects_prepared (settings st') = is_objects_prepared (settings st) /\
    log st' = log st ++ evs ++ [EvPosePosition key POSE] /\
    Forall (fun e => step_of e = 6) evs.
Proof.
  intros H. unfold parent_objects_to_corresponding_bones in H.
  unfold bind at 1 in H. unfold get in H.
  destruct (objs_collection_created (settings st)) as [c|] eqn:Hc; [|discriminate].
  unfold bind at 1 in H.
  destruct (map_each (objects c) (parent_to_bone (rig (settings st))) st)
    as [objs st1|] eqn:Hmap; [|discriminate].
  pose proof (map_each_keeps 6 _
                (fun x s y s' E => proj1 (parent_to_bone_keeps (rig (settings st)) x s y s' E))
                _ _ _ _ Hmap)
    as (Hr & Ha & Hcr & evs & Hlog & Hev).
  pose proof (map_each_parent_settings _ _ _ _ _ Hmap) as Hs1.
  unfold bind at 1 in H. unfold store_created_objects in H.
  rewrite Hs1, Hc in H. apply bind_inv in H. destruct H as ([] & st2 & Hm & H).
  apply mode_set_inv in Hm. destruct Hm as [_ ->].
  apply set_rig_data_pose_position_inv in H.
  destruct H as (r & key & a & Hrig & Hdata & Hlook & ->).
  simpl in Hlook. rewrite Ha in Hlook.
  exists c, r, key, a, evs. simpl. rewrite Hs1, Ha, Hlog, <- app_assoc.
  repeat split; eauto.
Qed.

(** Whenever the binder returns, the armature of the configured rig is in
    pose position. *)
Lemma parent_objects_completion_pose st st' :
  parent_objects_to_corresponding_bones st = Ok tt st' ->
  rig_pose_position st' = Some POSE.
Proof.
  intros H. apply parent_objects_inv in H.
  destruct H as (c & r & key & a & evs & _ & _ & Hdata & _ & Hr' & Ha' & _).
  unfold rig_pose_position. rewrite Hr', Hdata, Ha', lookup_insert_eq. reflexivity.
Qed.

(** ** C10 *)

(** C10 (pose position after the binding).  With a working collection and
    a rig whose data is an armature of [bpy.data.armatures],
    [parent_objects_to_corresponding_bones] returns exactly when some
    object is active (its [mode_set] calls need one; without one it raises
    the host's [RuntimeError]).  In every state in which it returns the
    armature of the rig has [pose_position = POSE], written by the last
    event of the log, whatever the position was before. *)
Theorem binding_leaves_pose_position st c r key :
  objs_collection_created (settings st) = Some c ->
  rig (settings st) = Some r ->
  data r = ArmatureData key ->
  is_Some (armatures st !! key) ->
  ((exists st', parent_objects_to_corresponding_bones st = Ok tt st') <->
   active st <> None) /\
  (active st = None -> parent_objects_to_corresponding_bones st = Raise RuntimeError) /\
  (forall st',
      parent_objects_to_corresponding_bones st = Ok tt st' ->
      rig_pose_position st' = Some POSE /\
      exists evs, log st' = log st ++ evs ++ [EvPosePosition key POSE]).
Proof.
  intros Hc Hr Hdata [a Harm]. split; [|split].
  - split.
    + intros (st' & H) Hact.
      rewrite (parent_objects_no_active st c r key a Hc Hr Hdata Harm Hact) in H.
      discriminate H.
    + intros Hact.
      destruct (parent_objects_result st c r key a Hc Hr Hdata Harm Hact) as (st' & H & _).
      now exists st'.
  - now apply (parent_objects_no_active st c r key a).
  - intros st' H. split; [now apply (parent_objects_completion_pose st)|].
    apply parent_objects_inv in H.
    destruct H as (c' & r' & key' & a' & evs & _ & Hr' & Hdata' & _ & _ & _ & _ & _ & Hlog & _).
    assert (r' = r) by congruence. subst r'.
    assert (key' = key) by congruence. subst key'.
    now exists evs.
Qed.

Lemma binding_leaves_pose_position_witness :
  objs_collection_created (settings demo_bind_state)
  = Some (mkCollection "Src_Solid" [demo_work]) /\
  rig (settings demo_bind_state) = Some demo_rig /\
  data demo_rig = ArmatureData "Rig" /\
  is_Some (armatures demo_bind_state !! "Rig") /\
  ((exists st', parent_objects_to_corresponding_bones demo_bind_state = Ok tt st') <->
   active demo_bind_state <> None) /\
  (active demo_bind_state = None ->
   parent_objects_to_corresponding_bones demo_bind_state = Raise RuntimeError) /\
  (forall st',
      parent_objects_to_corresponding_bones demo_bind_state = Ok tt st' ->
      rig_pose_position st' = Some POSE /\
      exists evs, log st' = log demo_bind_state ++ evs ++ [EvPosePosition "Rig" POSE]).
Proof.
  assert (Harm : is_Some (armatures demo_bind_state !! "Rig")).
  { exists (mkArmature POSE ["A"; "B"]). vm_compute. reflexivity. }
  split; [reflexivity|]. split; [reflexivity|]. split; [reflexivity|].
  split; [exact Harm|].
  apply (binding_leaves_pose_position demo_bind_state
           (mkCollection "Src_Solid" [demo_work]) demo_rig "Rig").
  - reflexivity.
  - reflexivity.
  - reflexivity.
  - exact Harm.
Defined.

(** The binder on [demo_bind_state], whose rig starts in pose position,
    and on the same state with the rig at rest; on [demo_work_state],
    where no object is active, it raises. *)
Example binding_from_rest :
  let at_rest := <["Rig" := mkArmature REST ["A"; "B"]]> demo_armatures in
  exists st',
    parent_objects_to_corresponding_bones (with_armatures at_rest demo_bind_state)
    = Ok tt st' /\
    rig_pose_position (with_armatures at_rest demo_bind_state) = Some REST /\
    rig_pose_position st' = Some POSE.
Proof. eexists. split; [vm_compute; reflexivity|]. split; vm_compute; reflexivity. Qed.

Example binding_without_active_object :
  parent_objects_to_corresponding_bones demo_work_state = Raise RuntimeError.
Proof. vm_compute. reflexivity. Qed.

(** ** C5 *)

(** C5, as stated, fails on the error that is reported: in a session
    without a source collection, and in one without a rig, the flag is
    false and the bake operator is cancelled, but the error it reports is
    the one about the missing collection or rig, which [verify_operator]
    tests first, not the one about unprepared objects. *)
Lemma bake_precondition_counterexample :
  is_objects_prepared (settings unconfigured_state) = false /\
  SKIN2SOLID_OT_bake_animation unconfigured_state
  = ([mkReport ERROR msg_collection_not_set], Ok CANCELLED unconfigured_state) /\
  is_objects_prepared (settings rigless_state) = false /\
  SKIN2SOLID_OT_bake_animation rigless_state
  = ([mkReport ERROR msg_rig_not_set], Ok CANCELLED rigless_state) /\
  msg_collection_not_set <> msg_not_prepared /\
  msg_rig_not_set <> msg_not_prepared.
Proof.
  split; [reflexivity|]. split; [reflexivity|].
  split; [reflexivity|]. split; [reflexivity|].
  split; discriminate.
Qed.

(** C5 (bake precondition, amended).  In every state in which
    [is_objects_prepared] is false the bake operator reports exactly one
    error, returns CANCELLED and hands back the state it was given: no
    field of the settings, no object of the working collection, no
    armature and no log entry has changed.  The error is the one about
    unprepared objects when the collection and the rig are set; otherwise
    it is the one about the missing collection, or else about the missing
    rig. *)
Theorem bake_requires_prepared st :
  is_objects_prepared (settings st) = false ->
  exists msg,
    SKIN2SOLID_OT_bake_animation st = ([mkReport ERROR msg], Ok CANCELLED st) /\
    (objs_collection_original (settings st) <> None ->
     rig (settings st) <> None ->
     msg = msg_not_prepared) /\
    (objs_collection_original (settings st) = None -> msg = msg_collection_not_set) /\
    (objs_collection_original (settings st) <> None ->
     rig (settings st) = None ->
     msg = msg_rig_not_set).
Proof.
  intros Hp. unfold SKIN2SOLID_OT_bake_animation, verify_operator.
  destruct (objs_collection_original (settings st)) as [c|].
  - destruct (rig (settings st)) as [r|].
    + rewrite Hp. simpl. exists msg_not_prepared. split; [reflexivity|].
      repeat split; congruence.
    + simpl. exists msg_rig_not_set. split; [reflexivity|].
      repeat split; congruence.
  - simpl. exists msg_collection_not_set. split; [reflexivity|].
    repeat split; congruence.
Qed.

Lemma bake_requires_prepared_witness :
  is_objects_prepared (settings demo_work_state) = false /\
  exists msg,
    SKIN2SOLID_OT_bake_animation demo_work_state
    = ([mkReport ERROR msg], Ok CANCELLED demo_work_state) /\
    (objs_collection_original (settings demo_work_state) <> None ->
     rig (settings demo_work_state) <> None ->
     msg = msg_not_prepared) /\
    (objs_collection_original (settings demo_work_state) = None ->
     msg = msg_collection_not_set) /\
    (objs_collection_original (settings demo_work_state) <> None ->
     rig (settings demo_work_state) = None ->
     msg = msg_rig_not_set).
Proof.
  split; [reflexivity|].
  apply (bake_requires_prepared demo_work_state). reflexivity.
Defined.

(** With the flag set, the same operator on the same scene bakes. *)
Example bake_when_prepared :
  exists st',
    SKIN2SOLID_OT_bake_animation
      (with_settings (with_prepared true) demo_work_state) = ([], Ok FINISHED st') /\
    log st' = [EvBake 0 250 [10]].
Proof. eexists. split; vm_compute; reflexivity. Qed.

(** ** Materialization *)

Lemma should_object_be_processed_iff s obj :
  should_object_be_processed s obj = true <-> eligible s obj.
Proof.
  unfold should_object_be_processed, eligible, has_correct_armature_modifier.
  destruct (rig s) as [r|].
  2:{ split; [discriminate | intros (_ & _ & r & md & Hr & _); discriminate]. }
  destruct (type obj);
    try (split; [discriminate | intros (Ht & _); discriminate]).
  destruct (vertex_groups obj) as [|vg vgs]; simpl.
  { split; [discriminate | intros (_ & Hne & _); congruence]. }
  match goal with |- context [existsb ?f ?l] => destruct (existsb f l) eqn:E end; simpl.
  - split; [|reflexivity]. intros _. split; [reflexivity|]. split; [discriminate|].
    apply existsb_exists in E. destruct E as (md & Hin & Hmd).
    apply andb_true_iff in Hmd. destruct Hmd as [Hty Hobj].
    exists r, md. split; [reflexivity|]. split; [exact Hin|].
    unfold is_armature_modifier in Hty.
    destruct (mod_type md); [|discriminate]. split; [reflexivity|].
    destruct (mod_object md) as [o|]; [|discriminate].
    apply Nat.eqb_eq in Hobj. now subst.
  - split; [discriminate|]. intros (_ & _ & r' & md & Hr & Hin & Hty & Hobj).
    inversion Hr; subst r'.
    assert (existsb
              (fun md => is_armature_modifier md &&
                         match mod_object md with Some o => o =? oid r | None => false end)
              (modifiers obj) = true) as Habs; [|congruence].
    apply existsb_exists. exists md. split; [exact Hin|].
    unfold is_armature_modifier. rewrite Hty, Hobj. simpl. apply Nat.eqb_refl.
Qed.

Lemma materialize_spec coll obj st :
  exists st',
    materialize coll obj st =
    Ok (mkCollection (coll_name coll)
          (objects coll ++ working_copies (settings st) (next_oid st) [obj])) st' /\
    settings st' = settings st /\
    armatures st' = armatures st /\
    next_oid st' = next_oid st + List.length (working_copies (settings st) (next_oid st) [obj]) /\
    exists evs, log st' = log st ++ evs /\ Forall (fun e => step_of e = 1) evs.
Proof.
  unfold materialize, bind, get. simpl.
  destruct (should_object_be_processed (settings st) obj); simpl.
  - eexists. split; [reflexivity|]. simpl.
    split; [reflexivity|]. split; [reflexivity|]. split; [lia|].
    eexists. split; [reflexivity | repeat constructor].
  - exists st. unfold ret. rewrite app_nil_r. destruct coll. simpl.
    split; [reflexivity|]. split; [reflexivity|]. split; [reflexivity|]. split; [lia|].
    exists []. split; [now rewrite app_nil_r | constructor].
Qed.

Lemma working_copies_app s objs1 :
  forall n objs2,
    working_copies s n (objs1 ++ objs2) =
    working_copies s n objs1 ++
    working_copies s (n + List.length (working_copies s n objs1)) objs2.
Proof.
  induction objs1 as [|x rest IH]; intros n objs2; simpl.
  - now rewrite Nat.add_0_r.
  - destruct (should_object_be_processed s x); simpl.
    + rewrite IH. now rewrite Nat.add_succ_r.
    + apply IH.
Qed.

Lemma fold_materialize_spec objs :
  forall coll st,
    exists st',
      fold_each objs materialize coll st =
      Ok (mkCollection (coll_name coll)
            (objects coll ++ working_copies (settings st) (next_oid st) objs)) st' /\
      settings st' = settings st /\
      armatures st' = armatures st /\
      next_oid st' = next_oid st + List.length (working_copies (settings st) (next_oid st) objs) /\
      exists evs, log st' = log st ++ evs /\ Forall (fun e => step_of e = 1) evs.
Proof.
  induction objs as [|x rest IH]; intros coll st.
  - exists st. simpl. unfold ret. rewrite app_nil_r. destruct coll. simpl.
    repeat split; try lia. exists []. split; [now rewrite app_nil_r | constructor].
  - destruct (materialize_spec coll x st) as (st1 & Hx & Hs1 & Ha1 & Hn1 & e1 & Hl1 & Hf1).
    destruct (IH (mkCollection (coll_name coll)
                    (objects coll ++ working_copies (settings st) (next_oid st) [x])) st1)
      as (st2 & Hrest & Hs2 & Ha2 & Hn2 & e2 & Hl2 & Hf2).
    exists st2. cbn [fold_each]. unfold bind. rewrite Hx, Hrest.
    cbn [coll_name objects]. rewrite Hs1, Hn1 in *.
    change (x :: rest) with ([x] ++ rest). rewrite (working_copies_app _ [x]).
    rewrite <- app_assoc.
    split; [reflexivity|]. split; [congruence|]. split; [congruence|].
    split; [rewrite length_app; lia|].
    exists (e1 ++ e2). split; [rewrite Hl2, Hl1; now rewrite app_assoc | now apply Forall_app].
Qed.

Lemma create_working_collection_spec st src :
  objs_collection_original (settings st) = Some src ->
  exists st' coll,
    create_working_collection st = Ok (Some coll) st' /\
    coll = mkCollection (String.append (coll_name src) (name_suffix (settings st)))
             (working_copies (settings st) (next_oid st) (objects src)) /\
    settings st' = set_objs_collection_created (Some coll) (settings st) /\
    armatures st' = armatures st /\
    next_oid st' = next_oid st + List.length (objects coll) /\
    exists evs, log st' = log st ++ evs /\ Forall (fun e => step_of e = 1) evs.
Proof.
  intros Ho. unfold create_working_collection.
  unfold bind at 1. unfold get. rewrite Ho.
  unfold bind at 1. unfold create_new_collection, bind at 1, modify, ret at 1.
  destruct (fold_materialize_spec (objects src)
              (mkCollection (String.append (coll_name src) (name_suffix (settings st))) [])
              (emit (EvCollectionNew (String.append (coll_name src) (name_suffix (settings st)))) st))
    as (st1 & Hfold & Hs1 & Ha1 & Hn1 & e1 & Hl1 & Hf1).
  simpl in Hfold, Hs1, Ha1, Hn1, Hl1.
  unfold bind at 1. rewrite Hfold. unfold bind, ret. simpl.
  eexists _, _. split; [reflexivity|]. split; [reflexivity|].
  simpl. rewrite Hs1. split; [reflexivity|]. split; [exact Ha1|]. split; [exact Hn1|].
  exists (EvCollectionNew (String.append (coll_name src) (name_suffix (settings st))) :: e1).
  split; [rewrite Hl1, <- app_assoc; reflexivity|].
  constructor; [reflexivity | exact Hf1].
Qed.

Lemma in_working_copies s objs :
  forall n d,
    In d (working_copies s n objs) ->
    exists obj k,
      In obj objs /\ should_object_be_processed s obj = true /\
      d = working_copy (name_suffix s) obj k.
Proof.
  induction objs as [|x rest IH]; intros n d Hin; simpl in Hin; [contradiction|].
  destruct (should_object_be_processed s x) eqn:Ex.
  - destruct Hin as [<- | Hin].
    + exists x, n. split; [now left|]. now split.
    + destruct (IH _ _ Hin) as (obj & k & Ho & Hs & Hd).
      exists obj, k. split; [now right|]. now split.
  - destruct (IH _ _ Hin) as (obj & k & Ho & Hs & Hd).
    exists obj, k. split; [now right|]. now split.
Qed.

Lemma working_copy_in s objs obj :
  In obj objs ->
  should_object_be_processed s obj = true ->
  forall n, exists k, In (working_copy (name_suffix s) obj k) (working_copies s n objs).
Proof.
  induction objs as [|x rest IH]; intros Hin Hs n; [contradiction|]. simpl.
  destruct Hin as [-> | Hin].
  - rewrite Hs. exists n. now left.
  - destruct (should_object_be_processed s x).
    + destruct (IH Hin Hs (S n)) as (k & Hk). exists k. now right.
    + apply (IH Hin Hs n).
Qed.

Lemma type_copy_data obj suffix k :
  type (working_copy suffix obj k) = type obj.
Proof. unfold type, working_copy. simpl. now destruct (data obj). Qed.

Lemma should_object_be_processed_ext s o1 o2 :
  type o1 = type o2 ->
  vertex_groups o1 = vertex_groups o2 ->
  modifiers o1 = modifiers o2 ->
  should_object_be_processed s o1 = should_object_be_processed s o2.
Proof.
  intros Ht Hv Hm. unfold should_object_be_processed, has_correct_armature_modifier.
  now rewrite Ht, Hv, Hm.
Qed.

Lemma data_name_working_copy suffix obj k :
  type obj = MESH ->
  data_name (working_copy suffix obj k) = String.append (data_name obj) suffix.
Proof.
  unfold type, data_name, working_copy. simpl.
  destruct (data obj); try discriminate. reflexivity.
Qed.

Lemma object_vertices_working_copy suffix obj k :
  object_vertices (working_copy suffix obj k) = object_vertices obj.
Proof. unfold object_vertices, working_copy. simpl. now destruct (data obj). Qed.

(** ** C8 *)

(** C8 (materialization eligibility).  With a source collection set,
    [create_working_collection] returns a new collection, named after the
    source collection with the suffix, and stores it in the settings.  An
    object of the source collection has a duplicate in it if and only if it
    is a mesh object with at least one vertex group and an armature
    modifier whose object is the configured rig.  Every object of the new
    collection is such a duplicate: the object is named [obj.name +
    suffix] and its mesh data [obj.data.name + suffix], with the vertices
    of the source.  No object makes the call raise. *)
Theorem materialization_eligibility st src :
  objs_collection_original (settings st) = Some src ->
  exists st' coll,
    create_working_collection st = Ok (Some coll) st' /\
    objs_collection_created (settings st') = Some coll /\
    coll_name coll = String.append (coll_name src) (name_suffix (settings st)) /\
    (forall obj,
        In obj (objects src) ->
        ((exists k, In (working_copy (name_suffix (settings st)) obj k) (objects coll)) <->
         eligible (settings st) obj)) /\
    (forall d,
        In d (objects coll) ->
        exists obj,
          In obj (objects src) /\ eligible (settings st) obj /\
          name d = String.append (name obj) (name_suffix (settings st)) /\
          data_name d = String.append (data_name obj) (name_suffix (settings st)) /\
          type d = MESH /\
          object_vertices d = object_vertices obj).
Proof.
  intros Ho.
  destruct (create_working_collection_spec st src Ho)
    as (st' & coll & Hrun & Hcoll & Hs' & _).
  exists st', coll. split; [exact Hrun|].
  split; [rewrite Hs'; reflexivity|].
  split; [rewrite Hcoll; reflexivity|].
  rewrite Hcoll. cbn [objects]. split.
  - intros obj Hin. rewrite <- should_object_be_processed_iff. split.
    + intros (k & Hk). apply in_working_copies in Hk.
      destruct Hk as (obj' & k' & _ & Hs & Heq).
      rewrite <- Hs. apply should_object_be_processed_ext.
      * rewrite <- (type_copy_data obj (name_suffix (settings st)) k), Heq.
        apply type_copy_data.
      * now apply (f_equal vertex_groups) in Heq.
      * now apply (f_equal modifiers) in Heq.
    + intros Hs. now apply working_copy_in.
  - intros d Hd. apply in_working_copies in Hd.
    destruct Hd as (obj & k & Hin & Hs & ->).
    pose proof (proj1 (should_object_be_processed_iff _ _) Hs) as He.
    exists obj. split; [exact Hin|]. split; [exact He|].
    split; [reflexivity|].
    split; [apply data_name_working_copy; apply He|].
    split; [rewrite type_copy_data; apply He|].
    apply object_vertices_working_copy.
Qed.

Lemma materialization_eligibility_witness :
  objs_collection_original (settings demo_state) = Some (mkCollection "Src" [demo_body]) /\
  exists st' coll,
    create_working_collection demo_state = Ok (Some coll) st' /\
    objs_collection_created (settings st') = Some coll /\
    coll_name coll = String.append "Src" (name_suffix (settings demo_state)) /\
    (forall obj,
        In obj [demo_body] ->
        ((exists k, In (working_copy (name_suffix (settings demo_state)) obj k) (objects coll)) <->
         eligible (settings demo_state) obj)) /\
    (forall d,
        In d (objects coll) ->
        exists obj,
          In obj [demo_body] /\ eligible (settings demo_state) obj /\
          name d = String.append (name obj) (name_suffix (settings demo_state)) /\
          data_name d = String.append (data_name obj) (name_suffix (settings demo_state)) /\
          type d = MESH /\
          object_vertices d = object_vertices obj).
Proof.
  split; [reflexivity|].
  apply (materialization_eligibility demo_state (mkCollection "Src" [demo_body])).
  reflexivity.
Defined.

(** Of the five objects of [mixed_state] only [demo_body] is duplicated;
    the call returns. *)
Example demo_materialization :
  exists st' coll,
    create_working_collection mixed_state = Ok (Some coll) st' /\
    List.map (fun d => (name d, data_name d)) (objects coll)
    = [("Body_Solid", "BodyMesh_Solid")] /\
    log st' = [EvCollectionNew "Src_Solid"; EvMaterialize 2 10].
Proof. eexists _, _. split; [vm_compute; reflexivity|]. split; reflexivity. Qed.

(** ** The steps of [prepare_objects] *)

Lemma map_oid_working_copies s objs :
  forall n,
    List.map oid (working_copies s n objs) =
    seq n (List.length (working_copies s n objs)).
Proof.
  induction objs as [|x rest IH]; intros n; simpl; [reflexivity|].
  destruct (should_object_be_processed s x); simpl; [|apply IH].
  now rewrite IH.
Qed.


Lemma remove_in_separation_events n x o :
  In (EvRemoveObject o) (separation_events n x) <->
  multiple_groups x = true /\ oid x = o.
Proof.
  unfold separation_events. destruct (multiple_groups x).
  - rewrite in_app_iff. split.
    + intros [H | [H | []]].
      * exfalso. revert n H. induction (vertex_groups x) as [|g gs IH]; intros n H;
          simpl in H; [contradiction|].
        destruct H as [H | H]; [discriminate | exact (IH _ H)].
      * inversion H. now split.
    + intros [_ <-]. right. now left.
  - split; [contradiction | intros [H _]; discriminate].
Qed.

Lemma partition_in_separation_events n x g :
  multiple_groups x = true ->
  In g (vertex_groups x) ->
  exists d, In (EvPartition (oid x) (vg_index g) d) (separation_events n x).
Proof.
  intros Hm Hg. unfold separation_events. rewrite Hm.
  apply In_nth_error in Hg. destruct Hg as (k & Hk).
  exists (n + k). apply in_or_app. left. now apply in_partition_events.
Qed.

(** *** Step 1: the working collection *)

Lemma fold_materialize_run objs :
  forall coll st,
    fold_each objs materialize coll st =
    Ok (mkCollection (coll_name coll)
          (objects coll ++ working_copies (settings st) (next_oid st) objs))
       (mkState (settings st) (armatures st)
          (next_oid st + List.length (working_copies (settings st) (next_oid st) objs))
          (active_after_materialize (settings st) (active st) objs)
          (selected st) (mode st)
          (log st ++ materialize_events (settings st) (next_oid st) objs)).
Proof.
  induction objs as [|x rest IH]; intros coll st.
  - destruct coll, st. simpl. unfold ret. now rewrite !app_nil_r, Nat.add_0_r.
  - cbn [fold_each]. unfold bind at 1. unfold materialize at 1. unfold bind at 1, get.
    cbn [working_copies materialize_events active_after_materialize].
    destruct (should_object_be_processed (settings st) x); cbn [negb].
    + unfold bind, modify, fresh_oid, ret. rewrite IH.
      cbn [settings armatures next_oid active selected mode log emit with_next_oid
             with_active link_object coll_name objects List.length].
      rewrite <- !app_assoc, Nat.add_succ_r. reflexivity.
    + unfold ret. now rewrite IH.
Qed.

Lemma create_working_collection_run st src :
  objs_collection_original (settings st) = Some src ->
  let nm := String.append (coll_name src) (name_suffix (settings st)) in
  let copies := working_copies (settings st) (next_oid st) (objects src) in
  create_working_collection st =
  Ok (Some (mkCollection nm copies))
     (mkState (set_objs_collection_created (Some (mkCollection nm copies)) (settings st))
        (armatures st) (next_oid st + List.length copies)
        (active_after_materialize (settings st) (active st) (objects src))
        (selected st) (mode st)
        (log st ++ EvCollectionNew nm :: materialize_events (settings st) (next_oid st)
                                          (objects src))).
Proof.
  intros Ho nm copies. unfold create_working_collection.
  unfold bind at 1. unfold get. rewrite Ho.
  unfold bind at 1. unfold create_new_collection, bind at 1, modify, ret at 1.
  unfold bind at 1. rewrite fold_materialize_run.
  unfold bind, modify, ret.
  cbn [settings armatures next_oid active selected mode log emit with_settings
         coll_name objects app].
  rewrite <- app_assoc. reflexivity.
Qed.

Lemma active_after_materialize_not_none s objs :
  forall a,
    active_after_materialize s a objs <> None <-> a <> None \/ some_eligible s objs.
Proof.
  unfold some_eligible.
  induction objs as [|x rest IH]; intros a; simpl.
  - split; [now left | intros [H | (o & [] & _)]; exact H].
  - rewrite IH. destruct (should_object_be_processed s x) eqn:E; split.
    + intros _. right. exists x. split; [now left | exact E].
    + intros _. left. discriminate.
    + intros [H | (o & Ho & Hs)]; [now left | right; exists o; split; [now right | exact Hs]].
    + intros [H | (o & [<- | Ho] & Hs)]; [now left | congruence |].
      right. now exists o.
Qed.

(** The object left active is one that was active before, when nothing
    was duplicated, or else an object of the source collection. *)
Lemma active_after_materialize_some s objs :
  forall a x,
    active_after_materialize s a objs = Some x ->
    (a = Some x /\ forall n, working_copies s n objs = []) \/
    exists o, In o objs /\ oid o = x.
Proof.
  induction objs as [|o rest IH]; intros a x H; simpl in H.
  - left. now split.
  - destruct (should_object_be_processed s o) eqn:E.
    + right. destruct (IH _ _ H) as [[Heq _] | (o' & Ho' & Hx)].
      * injection Heq as <-. exists o. split; [now left | reflexivity].
      * exists o'. split; [now right | exact Hx].
    + destruct (IH _ _ H) as [[Heq Hnil] | (o' & Ho' & Hx)].
      * left. split; [exact Heq|]. intros n. simpl. rewrite E. apply Hnil.
      * right. exists o'. split; [now right | exact Hx].
Qed.

(** *** Step 2: the partition loop *)

Lemma unlink_object_middle x kept tail :
  (forall o, In o kept -> oid o <> oid x) ->
  unlink_object (oid x) (kept ++ x :: tail) = Some (kept ++ tail).
Proof.
  induction kept as [|y kept IH]; intros H; simpl.
  - now rewrite Nat.eqb_refl.
  - destruct (Nat.eqb_spec (oid y) (oid x)) as [Heq | _].
    + exfalso. apply (H y); [now left | exact Heq].
    + rewrite IH; [reflexivity|]. intros o Ho. apply H. now right.
Qed.

Lemma multiple_groups_mesh x :
  multiple_groups x = true ->
  exists m, data x = MeshData m /\ type x = MESH /\
            (1 <? List.length (vertex_groups x)) = true.
Proof.
  unfold multiple_groups, type. destruct (data x) as [m| |]; try discriminate.
  intros H. now exists m.
Qed.

Lemma separate_if_not_multiple x st :
  multiple_groups x = false -> separate_if_multiple_groups x st = Ok tt st.
Proof.
  unfold multiple_groups, separate_if_multiple_groups.
  destruct (type x); try reflexivity. now intros ->.
Qed.

(** The loop of line 304 over the working copies still to be visited,
    [rest], when the working collection holds the copies already passed
    over, then [rest], then the pieces linked so far. *)
Lemma separate_loop_run suffix threshold nm rest :
  forall kept subs st,
    objs_collection_created (settings st) = Some (mkCollection nm (kept ++ rest ++ subs)) ->
    name_suffix (settings st) = suffix ->
    weight_threshold (settings st) = threshold ->
    List.NoDup (List.map oid (kept ++ rest)) ->
    exists st',
      for_each rest separate_if_multiple_groups st = Ok tt st' /\
      settings st' =
      with_created
        (Some (mkCollection nm
                 (kept ++ List.filter (fun o => negb (multiple_groups o)) rest
                       ++ subs ++ all_pieces suffix threshold (next_oid st) rest)))
        (settings st) /\
      armatures st' = armatures st /\
      mode st' = mode st /\
      log st' = log st ++ separation_log (next_oid st) rest /\
      (active st = None -> active st' = None) /\
      (forall a, active st = Some a -> (forall o, In o rest -> oid o <> a) ->
                 active st' = Some a).
Proof.
  induction rest as [|x rest IH]; intros kept subs st Hc Hsuf Hthr Hnd.
  - exists st. split; [reflexivity|]. simpl. rewrite !app_nil_r.
    split; [destruct (settings st); simpl in *; now rewrite Hc|].
    repeat split; auto.
  - assert (Hkx : forall o, In o kept -> oid o <> oid x).
    { intros o Ho Heq. rewrite map_app in Hnd. simpl in Hnd.
      apply List.NoDup_remove_2 in Hnd. apply Hnd. apply in_or_app. left.
      rewrite <- Heq. now apply in_map. }
    cbn [for_each all_pieces separation_log List.filter].
    destruct (multiple_groups x) eqn:Hm; cbn [negb].
    + destruct (multiple_groups_mesh x Hm) as (m & Hdata & Ht & Hlen).
      assert (Hin : In x (objects (mkCollection nm (kept ++ (x :: rest) ++ subs)))).
      { simpl. apply in_or_app. right. now left. }
      destruct (separate_mesh_by_vertex_groups_spec st x m _ Hdata Hc Hin) as (l & Hl & Hrun).
      cbn [objects] in Hl. change ((x :: rest) ++ subs) with (x :: rest ++ subs) in Hl.
      rewrite (unlink_object_middle x kept (rest ++ subs) Hkx) in Hl. injection Hl as <-.
      assert (Hx : separate_if_multiple_groups x st = separate_mesh_by_vertex_groups x st).
      { unfold separate_if_multiple_groups. now rewrite Ht, Hlen. }
      rewrite (bind_ok _ _ _ _ _ (eq_trans Hx Hrun)). clear Hx.
      match goal with
      | |- context [for_each rest _ ?s] => set (st1 := s)
      end.
      destruct (IH kept (subs ++ sub_objects suffix threshold x m (next_oid st) (vertex_groups x))
                  st1) as (st' & Hfor & Hs' & Ha' & Hmode & Hl' & Hnone & Hsome).
      * unfold st1. cbn [settings with_created objs_collection_created coll_name].
        rewrite Hsuf, Hthr, <- !app_assoc. reflexivity.
      * unfold st1. cbn [settings with_created name_suffix]. exact Hsuf.
      * unfold st1. cbn [settings with_created weight_threshold]. exact Hthr.
      * rewrite map_app in Hnd |- *. simpl in Hnd. now apply List.NoDup_remove_1 in Hnd.
      * exists st'. split; [exact Hfor|].
        unfold pieces, pieces_count, separation_events. rewrite Hdata, Hm.
        unfold st1 in Hs', Ha', Hmode, Hl', Hnone, Hsome.
        cbn [settings armatures next_oid active mode log] in Hs', Ha', Hmode, Hl', Hnone, Hsome.
        split; [rewrite Hs'; cbn [with_created]; rewrite <- !app_assoc; reflexivity|].
        split; [exact Ha'|]. split; [exact Hmode|].
        split; [rewrite Hl', <- !app_assoc; reflexivity|].
        split.
        -- intros Hact. apply Hnone. now rewrite Hact.
        -- intros a Hact Hne. apply Hsome.
           ++ rewrite Hact. unfold drop_active.
              destruct (Nat.eqb_spec a (oid x)) as [Heq | _]; [|reflexivity].
              exfalso. apply (Hne x); [now left | now symmetry].
           ++ intros o Ho. apply Hne. now right.
    + rewrite (bind_ok _ _ _ _ _ (separate_if_not_multiple x st Hm)).
      destruct (IH (kept ++ [x]) subs st) as (st' & Hfor & Hs' & Ha' & Hmode & Hl' & Hnone & Hsome).
      * rewrite Hc, <- !app_assoc. reflexivity.
      * exact Hsuf.
      * exact Hthr.
      * now rewrite <- app_assoc.
      * exists st'. split; [exact Hfor|].
        unfold pieces, pieces_count, separation_events. rewrite Hm.
        replace (match data x with MeshData _ => [] | _ => [] end) with (@nil Object)
          by (now destruct (data x)).
        rewrite Nat.add_0_r. cbn [app].
        split; [rewrite Hs', <- !app_assoc; reflexivity|].
        split; [exact Ha'|]. split; [exact Hmode|]. split; [exact Hl'|].
        split; [exact Hnone|].
        intros a Hact Hne. apply (Hsome a Hact). intros o Ho. apply Hne. now right.
Qed.

Lemma partitions_exactly_separation_log objs :
  forall n, partitions_exactly objs (separation_log n objs).
Proof.
  unfold partitions_exactly.
  induction objs as [|x rest IH]; intros n; simpl.
  - split; [intros o [] | intros o' []].
  - destruct (IH (n + pieces_count x)) as [Hin Hout]. split.
    + intros o [<- | Ho] Hm.
      * split.
        -- apply in_or_app. left. now apply remove_in_separation_events.
        -- intros g Hg.
           destruct (partition_in_separation_events n x g Hm Hg) as (d & Hd).
           exists d. apply in_or_app. now left.
      * destruct (Hin o Ho Hm) as [Hrm Hpart]. split.
        -- apply in_or_app. now right.
        -- intros g Hg. destruct (Hpart g Hg) as (d & Hd).
           exists d. apply in_or_app. now right.
    + intros o' Ho'. apply in_app_or in Ho'. destruct Ho' as [Ho' | Ho'].
      * apply remove_in_separation_events in Ho'. destruct Ho' as [Hm Heq].
        exists x. split; [now left | now split].
      * destruct (Hout o' Ho') as (o & Ho & Hm & Heq).
        exists o. split; [now right | now split].
Qed.

Lemma set_rig_to_rest_pose_run r key a0 st :
  data r = ArmatureData key ->
  armatures st !! "Armature" = Some a0 ->
  set_rig_to_rest_pose r st =
  Ok tt (emit (EvPosePosition "Armature" REST)
           (with_armatures (<["Armature" := mkArmature REST (bones a0)]> (armatures st)) st)).
Proof.
  intros Hd Ha. unfold set_rig_to_rest_pose, type. rewrite Hd.
  unfold bind at 1. unfold get. rewrite Ha. reflexivity.
Qed.

Lemma set_rig_to_rest_pose_inv r st st' :
  set_rig_to_rest_pose r st = Ok tt st' ->
  settings st' = settings st /\ active st' = active st /\
  ((type r <> ARMATURE /\ st' = st) \/
   (type r = ARMATURE /\
    exists a0, armatures st !! "Armature" = Some a0 /\
               armatures st' = <["Armature" := mkArmature REST (bones a0)]> (armatures st))).
Proof.
  unfold set_rig_to_rest_pose.
  destruct (type r) eqn:Ht;
    try (intros H; injection H as <-; split; [reflexivity|]; split; [reflexivity|];
         left; split; [discriminate | reflexivity]).
  unfold bind, get, raise, modify.
  destruct (armatures st !! "Armature") as [a0|] eqn:Ha; [|discriminate].
  intros H. injection H as <-. split; [reflexivity|]. split; [reflexivity|].
  right. split; [reflexivity|]. now exists a0.
Qed.

(** *** Step 4: the armature modifiers *)

Lemma emit_all_nil st : emit_all [] st = st.
Proof. destruct st. unfold emit_all. simpl. now rewrite app_nil_r. Qed.

Lemma emit_all_app a b st : emit_all b (emit_all a st) = emit_all (a ++ b) st.
Proof. unfold emit_all. simpl. now rewrite app_assoc. Qed.

Lemma remove_loop_result e mods :
  forall st,
    for_each mods
      (fun md => if is_armature_modifier md then modify (emit e) else ret tt) st =
    Ok tt (emit_all (List.map (fun _ => e) (List.filter is_armature_modifier mods)) st).
Proof.
  induction mods as [|md rest IH]; intros st; simpl.
  - unfold ret. now rewrite emit_all_nil.
  - unfold bind. destruct (is_armature_modifier md); simpl.
    + unfold modify. rewrite IH.
      change (emit e st) with (emit_all [e] st). now rewrite emit_all_app.
    + unfold ret. apply IH.
Qed.

Lemma clear_armature_modifiers_result x st :
  clear_armature_modifiers x st =
  Ok (without_armature_modifiers x) (emit_all (modifier_events x) st).
Proof.
  unfold clear_armature_modifiers, without_armature_modifiers, modifier_events.
  destruct (type x); try (unfold ret; now rewrite emit_all_nil).
  unfold bind. rewrite remove_loop_result. reflexivity.
Qed.

Lemma map_each_clear_result l :
  forall st,
    map_each l clear_armature_modifiers st =
    Ok (List.map without_armature_modifiers l)
       (emit_all (concat (List.map modifier_events l)) st).
Proof.
  induction l as [|x rest IH]; intros st; simpl.
  - unfold ret. now rewrite emit_all_nil.
  - unfold bind. rewrite clear_armature_modifiers_result, IH.
    unfold ret. now rewrite emit_all_app.
Qed.

Lemma clear_object_modifiers_result st c :
  objs_collection_created (settings st) = Some c ->
  clear_object_modifiers st =
  Ok tt (with_created_objects c (List.map without_armature_modifiers (objects c))
           (emit_all (concat (List.map modifier_events (objects c))) st)).
Proof.
  intros Hc. unfold clear_object_modifiers, bind, get. rewrite Hc.
  rewrite map_each_clear_result. unfold store_created_objects. simpl. rewrite Hc.
  reflexivity.
Qed.

(** *** Step 5: the origins *)

Lemma origin_loop_result l :
  forall st,
    exists st',
      for_each l origin_to_center st = Ok tt st' /\
      settings st' = settings st /\
      armatures st' = armatures st /\
      next_oid st' = next_oid st /\
      mode st' = mode st /\
      log st' = log st ++ List.map EvOriginSet (mesh_oids l) /\
      (active st <> None -> active st' <> None) /\
      (mesh_oids l = [] -> selected st' = selected st /\ active st' = active st) /\
      (forall l0 o, mesh_oids l = l0 ++ [o] ->
                    selected st' = [o] /\ active st' = Some o).
Proof.
  induction l as [|x rest IH]; intros st.
  - exists st. split; [reflexivity|]. unfold mesh_oids. simpl. rewrite app_nil_r.
    repeat (split; [reflexivity|]). split; [auto|]. split; [now intros _|].
    intros l0 o H. destruct l0; discriminate H.
  - cbn [for_each]. unfold bind at 1. unfold origin_to_center at 1.
    unfold mesh_oids, is_mesh. cbn [List.filter].
    destruct (type x) eqn:Ht.
    + unfold bind, modify.
      destruct (IH (emit (EvOriginSet (oid x))
                      (with_active (Some (oid x))
                         (select_set (oid x) (with_selected [] st)))))
        as (st' & Hrun & Hs & Ha & Hn & Hm & Hl & Hact & Hnil & Hlast).
      exists st'. split; [exact Hrun|]. simpl in Hs, Ha, Hn, Hm, Hl, Hact, Hnil, Hlast.
      repeat (split; [assumption|]).
      split; [rewrite Hl; cbn [List.map]; now rewrite <- app_assoc|].
      split; [intros _; apply Hact; discriminate|].
      split; [intros H; discriminate H|].
      intros l0 o H. cbn [List.map] in H.
      destruct (mesh_oids rest) as [|y ys] eqn:Hrest.
      * unfold mesh_oids, is_mesh in Hrest. rewrite Hrest in H.
        destruct l0 as [|z [|z' zs]]; try discriminate H.
        injection H as <-. now apply Hnil.
      * unfold mesh_oids, is_mesh in Hrest. rewrite Hrest in H.
        destruct l0 as [|z zs]; [discriminate H|].
        injection H as <- H. now apply (Hlast zs o).
    + unfold ret. apply IH.
    + unfold ret. apply IH.
Qed.

Lemma set_object_origins_inv st st' :
  set_object_origins_to_center st = Ok tt st' ->
  settings st' = settings st /\ armatures st' = armatures st /\
  (is_Some (objs_collection_created (settings st)) -> active st <> None).
Proof.
  unfold set_object_origins_to_center. unfold bind at 1. unfold get.
  destruct (objs_collection_created (settings st)) as [c|] eqn:Hc.
  - intros H. apply bind_inv in H. destruct H as ([] & st1 & Hm & H).
    apply mode_set_inv in Hm. destruct Hm as [Hact ->].
    destruct (origin_loop_result (objects c) (with_mode OBJECT_MODE st))
      as (st2 & Hrun & Hs & Ha & _).
    rewrite Hrun in H. injection H as <-. simpl in Hs, Ha. now repeat split.
  - intros H. injection H as <-. repeat split. intros [c Hc']. discriminate Hc'.
Qed.

(** *** The last two steps and the flag *)

Lemma prepare_suffix_run st c r key a :
  objs_collection_created (settings st) = Some c ->
  rig (settings st) = Some r ->
  data r = ArmatureData key ->
  armatures st !! key = Some a ->
  active st <> None ->
  exists st',
    (set_object_origins_to_center ;;
     parent_objects_to_corresponding_bones ;;
     modify (with_settings (with_prepared true))) st = Ok tt st' /\
    settings st' =
    with_prepared true
      (with_created
         (Some (mkCollection (coll_name c) (List.map (bound_to r (bones a)) (objects c))))
         (settings st)) /\
    armatures st' = <[key := mkArmature POSE (bones a)]> (armatures st) /\
    log st' = log st ++ List.map EvOriginSet (mesh_oids (objects c))
                     ++ concat (List.map (parent_events (bones a)) (objects c))
                     ++ [EvPosePosition key POSE].
Proof.
  intros Hc Hr Hd Ha Hact.
  destruct (origin_loop_result (objects c) (with_mode OBJECT_MODE st))
    as (st5 & Hrun5 & Hs5 & Ha5 & _ & _ & Hl5 & Hact5 & _).
  simpl in Hs5, Ha5, Hl5, Hact5.
  assert (H5 : set_object_origins_to_center st = Ok tt st5).
  { unfold set_object_origins_to_center. unfold bind at 1. unfold get. rewrite Hc.
    unfold bind at 1. now rewrite (mode_set_active _ _ Hact). }
  destruct (parent_objects_result st5 c r key a) as (st6 & H6 & Hs6 & Ha6 & _ & _ & _ & Hl6);
    try congruence; auto.
  eexists. split.
  { rewrite (bind_ok _ _ _ _ _ H5). rewrite (bind_ok _ _ _ _ _ H6). reflexivity. }
  simpl. rewrite Hs6, Hs5, Ha6, Ha5, Hl6, Hl5, <- !app_assoc. now repeat split.
Qed.

Lemma prepare_suffix_no_active st c :
  objs_collection_created (settings st) = Some c ->
  active st = None ->
  (set_object_origins_to_center ;;
   parent_objects_to_corresponding_bones ;;
   modify (with_settings (with_prepared true))) st = Raise RuntimeError.
Proof.
  intros Hc Hact. unfold bind at 1.
  unfold set_object_origins_to_center. unfold bind at 1. unfold get. rewrite Hc.
  unfold bind at 1. now rewrite (mode_set_no_active _ _ Hact).
Qed.

(** *** The first four steps *)

Lemma prepare_prefix st src r key a0 :
  objs_collection_original (settings st) = Some src ->
  rig (settings st) = Some r ->
  data r = ArmatureData key ->
  armatures st !! "Armature" = Some a0 ->
  let s := settings st in
  let nm := String.append (coll_name src) (name_suffix s) in
  let copies := working_copies s (next_oid st) (objects src) in
  let parts := separated (name_suffix s) (weight_threshold s)
                 (next_oid st + List.length copies) copies in
  exists st4,
    prepare_objects st =
    (set_object_origins_to_center ;;
     parent_objects_to_corresponding_bones ;;
     modify (with_settings (with_prepared true))) st4 /\
    settings st4 =
    with_created (Some (mkCollection nm (List.map without_armature_modifiers parts)))
      (update_property s) /\
    armatures st4 = <["Armature" := mkArmature REST (bones a0)]> (armatures st) /\
    log st4 = log st ++ EvCollectionNew nm :: materialize_events s (next_oid st) (objects src)
                     ++ separation_log (next_oid st + List.length copies) copies
                     ++ [EvPosePosition "Armature" REST]
                     ++ concat (List.map modifier_events parts) /\
    (active st4 <> None -> active st <> None \/ some_eligible s (objects src)) /\
    ((forall o, In o (objects src) -> oid o < next_oid st) ->
     active st <> None \/ some_eligible s (objects src) ->
     active st4 <> None).
Proof.
  intros Ho Hr Hd Harm s nm copies parts.
  pose proof (create_working_collection_run st src Ho) as Hrun1. cbv zeta in Hrun1.
  fold s nm copies in Hrun1.
  match type of Hrun1 with _ = Ok _ ?x => set (st1 := x) in Hrun1 end.
  assert (Hoids : List.map oid copies = seq (next_oid st) (List.length copies))
    by apply map_oid_working_copies.
  destruct (separate_loop_run (name_suffix s) (weight_threshold s) nm copies [] [] st1)
    as (st2 & Hrun2 & Hs2 & Ha2 & _ & Hl2 & Hnone2 & Hsome2).
  { unfold st1. cbn. now rewrite app_nil_r. }
  { reflexivity. }
  { reflexivity. }
  { cbn [app]. rewrite Hoids. apply seq_NoDup. }
  cbn [app] in Hs2. unfold st1 in Hs2, Ha2, Hl2, Hnone2, Hsome2.
  cbn [settings armatures next_oid active log] in Hs2, Ha2, Hl2, Hnone2, Hsome2.
  fold (separated (name_suffix s) (weight_threshold s)
          (next_oid st + List.length copies) copies) in Hs2. fold parts in Hs2.
  assert (Harm2 : armatures st2 !! "Armature" = Some a0) by (now rewrite Ha2).
  pose proof (set_rig_to_rest_pose_run r key a0 st2 Hd Harm2) as Hrun3.
  match type of Hrun3 with _ = Ok _ ?x => set (st3 := x) in Hrun3 end.
  assert (Hc3 : objs_collection_created (settings st3)
                = Some (mkCollection nm parts)).
  { unfold st3. cbn [settings emit with_armatures]. now rewrite Hs2. }
  pose proof (clear_object_modifiers_result st3 _ Hc3) as Hrun4.
  match type of Hrun4 with _ = Ok _ ?x => set (st4 := x) in Hrun4 end.
  exists st4. split.
  { unfold prepare_objects. unfold bind at 1. unfold get. rewrite Ho, Hr.
    rewrite (bind_ok _ _ _ _ _ Hrun1).
    rewrite (bind_ok _ _ _ _ _ Hrun2).
    rewrite (bind_ok _ _ _ _ _ Hrun3).
    rewrite (bind_ok _ _ _ _ _ Hrun4).
    reflexivity. }
  assert (Hact4 : active st4 = active st2) by reflexivity.
  split.
  { unfold st4, st3. cbn. rewrite Hs2. reflexivity. }
  split; [unfold st4, st3; cbn; now rewrite Ha2|].
  split.
  { unfold st4, st3. cbn. rewrite Hl2, <- !app_assoc. cbn. reflexivity. }
  split.
  - rewrite Hact4. intros H.
    apply (active_after_materialize_not_none s (objects src) (active st)).
    intros Hn. apply H. now apply Hnone2.
  - intros Hfresh Hcond. rewrite Hact4.
    apply (active_after_materialize_not_none s (objects src) (active st)) in Hcond.
    destruct (active_after_materialize s (active st) (objects src)) as [x|] eqn:Hx;
      [|now contradiction Hcond].
    rewrite (Hsome2 x eq_refl); [discriminate|].
    intros o Hin Heq.
    apply (in_map oid) in Hin. rewrite Hoids in Hin. apply in_seq in Hin.
    destruct (active_after_materialize_some _ _ _ _ Hx) as [[_ Hnil] | (o' & Ho' & Hx')].
    + unfold copies in Hin. rewrite Hnil in Hin. simpl in Hin. lia.
    + apply Hfresh in Ho'. lia.
Qed.

(** What [prepare_objects] needs to return. *)
Lemma prepare_objects_completes_only_if st src r st' :
  objs_collection_original (settings st) = Some src ->
  rig (settings st) = Some r ->
  prepare_objects st = Ok tt st' ->
  exists key,
    data r = ArmatureData key /\
    is_Some (armatures st !! key) /\
    is_Some (armatures st !! "Armature").
Proof.
  intros Ho Hr H.
  pose proof (create_working_collection_run st src Ho) as Hrun1. cbv zeta in Hrun1.
  match type of Hrun1 with _ = Ok (Some (mkCollection ?n ?c)) ?x =>
    set (nm := n) in *; set (copies := c) in *; set (st1 := x) in Hrun1 end.
  destruct (separate_loop_run (name_suffix (settings st)) (weight_threshold (settings st))
              nm copies [] [] st1)
    as (st2 & Hrun2 & Hs2 & Ha2 & _).
  { unfold st1. cbn. now rewrite app_nil_r. }
  { reflexivity. }
  { reflexivity. }
  { cbn [app]. unfold copies. rewrite map_oid_working_copies. apply seq_NoDup. }
  unfold st1 in Hs2, Ha2. cbn [settings armatures] in Hs2, Ha2.
  unfold prepare_objects in H. unfold bind at 1 in H. unfold get in H.
  rewrite Ho, Hr in H.
  rewrite (bind_ok _ _ _ _ _ Hrun1) in H.
  rewrite (bind_ok _ _ _ _ _ Hrun2) in H.
  apply bind_inv in H. destruct H as ([] & st3 & H3 & H).
  apply set_rig_to_rest_pose_inv in H3. destruct H3 as (Hs3 & _ & H3).
  assert (Hc3 : is_Some (objs_collection_created (settings st3))).
  { rewrite Hs3, Hs2. cbn. eauto. }
  destruct Hc3 as [c3 Hc3].
  rewrite (bind_ok _ _ _ _ _ (clear_object_modifiers_result st3 c3 Hc3)) in H.
  apply bind_inv in H. destruct H as ([] & st5 & H5 & H).
  apply set_object_origins_inv in H5. destruct H5 as (Hs5 & Ha5 & _).
  apply bind_inv in H. destruct H as ([] & st6 & H6 & _).
  apply parent_objects_inv in H6.
  destruct H6 as (c6 & r6 & key & a & evs & _ & Hr6 & Hd & Hkey & _).
  rewrite Hs5 in Hr6. cbn in Hr6. rewrite Hs3, Hs2 in Hr6. cbn in Hr6.
  assert (r6 = r) by congruence. subst r6.
  rewrite Ha5 in Hkey. cbn in Hkey.
  exists key. split; [exact Hd|].
  destruct H3 as [[Ht _] | (_ & a0 & Harm & Ha3)].
  - exfalso. apply Ht. unfold type. now rewrite Hd.
  - rewrite Ha2 in Harm, Ha3. rewrite Ha3 in Hkey. split; [|now exists a0].
    destruct (decide (key = "Armature")) as [-> | Hne]; [now exists a0|].
    rewrite lookup_insert_ne in Hkey by congruence. now exists a.
Qed.

(** [prepare_objects] whenever it returns: the state it leaves. *)
Lemma prepare_objects_inv st src r st' :
  objs_collection_original (settings st) = Some src ->
  rig (settings st) = Some r ->
  prepare_objects st = Ok tt st' ->
  let s := settings st in
  let nm := String.append (coll_name src) (name_suffix s) in
  let copies := working_copies s (next_oid st) (objects src) in
  let parts := separated (name_suffix s) (weight_threshold s)
                 (next_oid st + List.length copies) copies in
  let cleared := List.map without_armature_modifiers parts in
  exists key a a0,
    data r = ArmatureData key /\
    armatures st !! key = Some a /\
    armatures st !! "Armature" = Some a0 /\
    (active st <> None \/ some_eligible s (objects src)) /\
    settings st' =
    with_prepared true
      (with_created (Some (mkCollection nm (List.map (bound_to r (bones a)) cleared))) s) /\
    armatures st' =
    <[key := mkArmature POSE (bones a)]>
      (<["Armature" := mkArmature REST (bones a0)]> (armatures st)) /\
    log st' = log st ++ EvCollectionNew nm :: materialize_events s (next_oid st) (objects src)
                     ++ separation_log (next_oid st + List.length copies) copies
                     ++ [EvPosePosition "Armature" REST]
                     ++ concat (List.map modifier_events parts)
                     ++ List.map EvOriginSet (mesh_oids cleared)
                     ++ concat (List.map (parent_events (bones a)) cleared)
                     ++ [EvPosePosition key POSE].
Proof.
  intros Ho Hr H s nm copies parts cleared.
  destruct (prepare_objects_completes_only_if st src r st' Ho Hr H)
    as (key & Hd & [a Hkey] & [a0 Harm]).
  destruct (prepare_prefix st src r key a0 Ho Hr Hd Harm)
    as (st4 & Hpre & Hs4 & Ha4 & Hl4 & Hact4 & _).
  fold s nm copies parts cleared in Hs4, Hl4, Hact4.
  rewrite Hpre in H.
  assert (Hc4 : objs_collection_created (settings st4) = Some (mkCollection nm cleared))
    by (now rewrite Hs4).
  assert (Hr4 : rig (settings st4) = Some r) by (now rewrite Hs4).
  destruct (active st4) as [x|] eqn:Hx;
    [|rewrite (prepare_suffix_no_active st4 _ Hc4 Hx) in H; discriminate H].
  assert (Hkey4 : exists a4, armatures st4 !! key = Some a4 /\ bones a4 = bones a).
  { rewrite Ha4. destruct (decide (key = "Armature")) as [-> | Hne].
    - rewrite lookup_insert_eq. eexists. split; [reflexivity|]. simpl. congruence.
    - rewrite lookup_insert_ne by congruence. now exists a. }
  destruct Hkey4 as (a4 & Hkey4 & Hbones).
  destruct (prepare_suffix_run st4 _ r key a4 Hc4 Hr4 Hd Hkey4)
    as (st'' & Hrun & Hs' & Ha' & Hl'); [now rewrite Hx|].
  rewrite Hrun in H. injection H as <-.
  exists key, a, a0. rewrite Hbones in *.
  split; [exact Hd|]. split; [exact Hkey|]. split; [exact Harm|].
  split; [apply Hact4; discriminate|].
  split; [rewrite Hs', Hs4; reflexivity|].
  split; [rewrite Ha', Ha4; reflexivity|].
  rewrite Hl', Hl4. cbn [coll_name objects]. rewrite <- !app_assoc. cbn [app].
  rewrite <- !app_assoc. reflexivity.
Qed.

(** [prepare_objects] returns when the rig is an armature object, its
    armature and the one called "Armature" exist, and either some object is
    active or some source object is duplicated (and made active by line
    250); the source objects have identities allocated before the run. *)
Lemma prepare_objects_run st src r key :
  objs_collection_original (settings st) = Some src ->
  rig (settings st) = Some r ->
  data r = ArmatureData key ->
  is_Some (armatures st !! key) ->
  is_Some (armatures st !! "Armature") ->
  (forall o, In o (objects src) -> oid o < next_oid st) ->
  active st <> None \/ some_eligible (settings st) (objects src) ->
  exists st', prepare_objects st = Ok tt st'.
Proof.
  intros Ho Hr Hd [a Hkey] [a0 Harm] Hfresh Hcond.
  destruct (prepare_prefix st src r key a0 Ho Hr Hd Harm)
    as (st4 & Hpre & Hs4 & Ha4 & _ & _ & Hact4).
  assert (Hkey4 : is_Some (armatures st4 !! key)).
  { rewrite Ha4. apply lookup_insert_is_Some'. right. now exists a. }
  destruct Hkey4 as [a4 Hkey4].
  assert (Hc4 : is_Some (objs_collection_created (settings st4)))
    by (rewrite Hs4; cbn; eauto).
  destruct Hc4 as [c4 Hc4].
  assert (Hr4 : rig (settings st4) = Some r) by (now rewrite Hs4).
  destruct (prepare_suffix_run st4 c4 r key a4 Hc4 Hr4 Hd Hkey4 (Hact4 Hfresh Hcond))
    as (st' & Hrun & _).
  exists st'. now rewrite Hpre.
Qed.

(** *** What the pieces are *)

Lemma in_all_pieces suffix threshold objs :
  forall n d,
    In d (all_pieces suffix threshold n objs) ->
    exists x m g k,
      In x objs /\ multiple_groups x = true /\ data x = MeshData m /\
      In g (vertex_groups x) /\ d = sub_object suffix threshold x m g k.
Proof.
  induction objs as [|x rest IH]; intros n d Hd; simpl in Hd; [contradiction|].
  apply in_app_or in Hd. destruct Hd as [Hd | Hd].
  - unfold pieces in Hd. destruct (data x) as [m| |] eqn:Hdata; try contradiction.
    destruct (multiple_groups x) eqn:Hm; [|contradiction].
    assert (Hsub : forall vgs n0, In d (sub_objects suffix threshold x m n0 vgs) ->
                                  exists g k, In g vgs /\ d = sub_object suffix threshold x m g k).
    { induction vgs as [|g gs IHg]; intros n0 H0; simpl in H0; [contradiction|].
      destruct H0 as [<- | H0].
      - exists g, n0. split; [now left | reflexivity].
      - destruct (IHg _ H0) as (g' & k & Hg & ->). exists g', k. split; [now right | reflexivity]. }
    destruct (Hsub _ _ Hd) as (g & k & Hg & ->).
    exists x, m, g, k. split; [now left|]. now repeat split.
  - destruct (IH _ _ Hd) as (x' & m & g & k & Hx & H). exists x', m, g, k.
    split; [now right | exact H].
Qed.

Lemma separated_mesh suffix threshold n objs o :
  (forall c, In c objs -> type c = MESH) ->
  In o (separated suffix threshold n objs) ->
  type o = MESH.
Proof.
  intros Hall Ho. unfold separated in Ho. apply in_app_or in Ho. destruct Ho as [Ho | Ho].
  - apply filter_In in Ho. now apply Hall.
  - apply in_all_pieces in Ho. destruct Ho as (x & m & g & k & _ & _ & _ & _ & ->).
    reflexivity.
Qed.

Lemma working_copies_mesh s n objs c :
  In c (working_copies s n objs) -> type c = MESH /\ vertex_groups c <> [].
Proof.
  intros Hc. apply in_working_copies in Hc. destruct Hc as (obj & k & _ & Hs & ->).
  apply should_object_be_processed_iff in Hs. destruct Hs as (Ht & Hne & _).
  split; [now rewrite type_copy_data | exact Hne].
Qed.

Lemma filter_negb_armature_clean mods md :
  In md (List.filter (fun md => negb (is_armature_modifier md)) mods) ->
  mod_type md <> MOD_ARMATURE.
Proof.
  rewrite filter_In. intros [_ H] Heq. unfold is_armature_modifier in H.
  now rewrite Heq in H.
Qed.

Lemma without_armature_modifiers_fields o :
  type (without_armature_modifiers o) = type o /\
  vertex_groups (without_armature_modifiers o) = vertex_groups o /\
  parent (without_armature_modifiers o) = parent o /\
  (type o = MESH ->
   forall md, In md (modifiers (without_armature_modifiers o)) ->
              mod_type md <> MOD_ARMATURE).
Proof.
  unfold without_armature_modifiers. destruct (type o) eqn:Ht.
  - unfold type in *. simpl. repeat split; try assumption.
    intros _ md Hmd. now apply (filter_negb_armature_clean (modifiers o)).
  - repeat split; try assumption. discriminate.
  - repeat split; try assumption. discriminate.
Qed.

Lemma bound_to_fields r rig_bones o :
  oid (bound_to r rig_bones o) = oid o /\
  name (bound_to r rig_bones o) = name o /\
  data (bound_to r rig_bones o) = data o /\
  vertex_groups (bound_to r rig_bones o) = vertex_groups o /\
  modifiers (bound_to r rig_bones o) = modifiers o.
Proof. unfold bound_to. destruct (bone_of rig_bones o); repeat split. Qed.

Lemma bound_to_parent r rig_bones o g gs :
  type o = MESH ->
  vertex_groups o = g :: gs ->
  (In (vg_name g) rig_bones -> parent (bound_to r rig_bones o) = Some (oid r, vg_name g)) /\
  (~ In (vg_name g) rig_bones -> bound_to r rig_bones o = o).
Proof.
  intros Ht Hv. unfold bound_to, bone_of. rewrite Ht, Hv.
  destruct (existsb (String.eqb (vg_name g)) rig_bones) eqn:Hex.
  - apply existsb_eqb_In in Hex. split; [reflexivity | intros Hn; contradiction].
  - split; [|reflexivity]. intros Hin. apply existsb_eqb_In in Hin. congruence.
Qed.

(** *** The pose writes of the run *)

Lemma no_pose_write_materialize s objs :
  forall n, Forall (fun e => pose_write e = false) (materialize_events s n objs).
Proof.
  induction objs as [|x rest IH]; intros n; simpl; [constructor|].
  destruct (should_object_be_processed s x); [constructor; [reflexivity | apply IH] | apply IH].
Qed.

Lemma no_pose_write_separation objs :
  forall n, Forall (fun e => pose_write e = false) (separation_log n objs).
Proof.
  induction objs as [|x rest IH]; intros n; simpl; [constructor|].
  apply Forall_app. split; [|apply IH].
  unfold separation_events. destruct (multiple_groups x); [|constructor].
  apply Forall_app. split; [|repeat constructor].
  generalize n. induction (vertex_groups x) as [|g gs IHg]; intros n0; simpl; constructor;
    [reflexivity | apply IHg].
Qed.

Lemma no_pose_write_modifiers objs :
  Forall (fun e => pose_write e = false) (concat (List.map modifier_events objs)).
Proof.
  induction objs as [|x rest IH]; simpl; [constructor|].
  apply Forall_app. split; [|exact IH].
  unfold modifier_events. destruct (type x); try constructor.
  induction (List.filter is_armature_modifier (modifiers x)); simpl; constructor;
    [reflexivity | assumption].
Qed.

Lemma no_pose_write_origins l :
  Forall (fun e => pose_write e = false) (List.map EvOriginSet l).
Proof. induction l; simpl; constructor; [reflexivity | assumption]. Qed.

Lemma no_pose_write_parents rig_bones objs :
  Forall (fun e => pose_write e = false) (concat (List.map (parent_events rig_bones) objs)).
Proof.
  induction objs as [|x rest IH]; simpl; [constructor|].
  apply Forall_app. split; [|exact IH].
  unfold parent_events. destruct (bone_of rig_bones x); repeat constructor.
Qed.

(** ** C7 *)

(** C7 (prepare sequencing).  With a source collection and a rig
    configured and the source objects in the scene before the run,
    whenever [prepare_objects] returns, [is_objects_prepared] is true and
    what the call added to the log is, in this order: the creation of the
    working collection and one duplication per eligible source object; one
    partition per vertex group and the removal of every working copy with
    more than one vertex group, and of no other; the write of REST; one
    removal per armature modifier of every working object; one origin reset
    per working object; the parentings to bones and the final write of
    POSE.  The working collection then holds the copies that were not
    partitioned followed by the pieces, all of them mesh objects without
    armature modifier, each parented to the rig's bone named like its first
    vertex group when there is one.

    The write of REST goes to the datablock called "Armature", not to the
    datablock of the rig: the only writes of a pose position are that one
    and the final POSE, so a rig whose datablock has another name is never
    put at rest (the defect of C9).

    [prepare_objects] returns exactly when the rig is an armature object,
    its datablock and the one called "Armature" exist and the [mode_set] of
    line 269 finds an active object: one that was active before, or a
    source object that line 250 made active when it duplicated it. *)
Theorem prepare_sequencing st src r :
  objs_collection_original (settings st) = Some src ->
  rig (settings st) = Some r ->
  (forall o, In o (objects src) -> oid o < next_oid st) ->
  let s := settings st in
  let nm := String.append (coll_name src) (name_suffix s) in
  let copies := working_copies s (next_oid st) (objects src) in
  let parts := separated (name_suffix s) (weight_threshold s)
                 (next_oid st + List.length copies) copies in
  let cleared := List.map without_armature_modifiers parts in
  (forall st',
      prepare_objects st = Ok tt st' ->
      is_objects_prepared (settings st') = true /\
      exists key a added,
        data r = ArmatureData key /\
        armatures st !! key = Some a /\
        log st' = log st ++ added /\
        added = EvCollectionNew nm :: materialize_events s (next_oid st) (objects src)
                ++ separation_log (next_oid st + List.length copies) copies
                ++ [EvPosePosition "Armature" REST]
                ++ concat (List.map modifier_events parts)
                ++ List.map EvOriginSet (mesh_oids cleared)
                ++ concat (List.map (parent_events (bones a)) cleared)
                ++ [EvPosePosition key POSE] /\
        partitions_exactly copies
          (separation_log (next_oid st + List.length copies) copies) /\
        mesh_oids cleared = List.map oid parts /\
        (forall k p, In (EvPosePosition k p) added ->
                     (k = "Armature" /\ p = REST) \/ (k = key /\ p = POSE)) /\
        objs_collection_created (settings st')
        = Some (mkCollection nm (List.map (bound_to r (bones a)) cleared)) /\
        (forall o,
            In o (List.map (bound_to r (bones a)) cleared) ->
            type o = MESH /\
            (forall md, In md (modifiers o) -> mod_type md <> MOD_ARMATURE) /\
            (forall g gs, vertex_groups o = g :: gs -> In (vg_name g) (bones a) ->
                          parent o = Some (oid r, vg_name g)))) /\
  ((exists st', prepare_objects st = Ok tt st') <->
   (exists key,
       data r = ArmatureData key /\
       is_Some (armatures st !! key) /\
       is_Some (armatures st !! "Armature")) /\
   (active st <> None \/ some_eligible s (objects src))).
Proof.
  intros Ho Hr Hfresh s nm copies parts cleared.
  assert (Hmesh : forall o, In o parts -> type o = MESH).
  { intros o Hin.
    apply (separated_mesh (name_suffix s) (weight_threshold s)
             (next_oid st + List.length copies) copies); [|exact Hin].
    intros c Hc. now apply (working_copies_mesh s (next_oid st) (objects src)). }
  split.
  - intros st' H.
    destruct (prepare_objects_inv st src r st' Ho Hr H)
      as (key & a & a0 & Hd & Hkey & Harm & Hcond & Hs' & Ha' & Hl').
    fold s nm copies parts cleared in Hs', Hl'.
    split; [now rewrite Hs'|].
    eexists key, a, _. split; [exact Hd|]. split; [exact Hkey|].
    split; [exact Hl'|]. split; [reflexivity|].
    split; [apply partitions_exactly_separation_log|].
    split.
    { unfold cleared, mesh_oids.
      assert (Hall : forall l, (forall o, In o l -> type o = MESH) ->
                 List.map oid (List.filter is_mesh (List.map without_armature_modifiers l))
                 = List.map oid l).
      { induction l as [|x l IH]; intros Hl; simpl; [reflexivity|].
        destruct (without_armature_modifiers_fields x) as (Ht & _).
        unfold is_mesh at 1. rewrite Ht, (Hl x (or_introl eq_refl)). simpl.
        rewrite IH; [|intros o Hin; apply Hl; now right].
        f_equal. unfold without_armature_modifiers. now destruct (type x). }
      now apply Hall. }
    split.
    { intros k p Hin. destruct Hin as [Hin | Hin]; [discriminate Hin|].
      repeat (apply in_app_or in Hin; destruct Hin as [Hin | Hin]).
      - exfalso. pose proof (no_pose_write_materialize s (objects src) (next_oid st)) as F.
        rewrite List.Forall_forall in F. now apply F in Hin.
      - exfalso. pose proof (no_pose_write_separation copies
                               (next_oid st + List.length copies)) as F.
        rewrite List.Forall_forall in F. now apply F in Hin.
      - destruct Hin as [Hin | []]. injection Hin as <- <-. now left.
      - exfalso. pose proof (no_pose_write_modifiers parts) as F.
        rewrite List.Forall_forall in F. now apply F in Hin.
      - exfalso. pose proof (no_pose_write_origins (mesh_oids cleared)) as F.
        rewrite List.Forall_forall in F. now apply F in Hin.
      - exfalso. pose proof (no_pose_write_parents (bones a) cleared) as F.
        rewrite List.Forall_forall in F. now apply F in Hin.
      - destruct Hin as [Hin | []]. injection Hin as <- <-. now right. }
    split; [now rewrite Hs'|].
    intros o Hin. apply in_map_iff in Hin. destruct Hin as (o1 & <- & Hin).
    apply in_map_iff in Hin. destruct Hin as (o2 & <- & Hin).
    destruct (without_armature_modifiers_fields o2) as (Ht1 & Hv1 & _ & Hm1).
    rewrite (Hmesh o2 Hin) in Ht1.
    destruct (bound_to_fields r (bones a) (without_armature_modifiers o2))
      as (_ & _ & Hdata & Hvg & Hmods).
    split; [unfold type in *; now rewrite Hdata|].
    split; [rewrite Hmods; apply Hm1; now apply Hmesh|].
    intros g gs Hg Hbone. rewrite Hvg in Hg.
    now apply (bound_to_parent r (bones a) _ g gs Ht1 Hg).
  - split.
    + intros (st' & H).
      destruct (prepare_objects_inv st src r st' Ho Hr H)
        as (key & a & a0 & Hd & Hkey & Harm & Hcond & _).
      split; [|exact Hcond]. exists key. split; [exact Hd|]. split; eauto.
    + intros [(key & Hd & Hkey & Harm) Hcond].
      now apply (prepare_objects_run st src r key).
Qed.

Lemma prepare_sequencing_witness :
  objs_collection_original (settings demo_state) = Some (mkCollection "Src" [demo_body]) /\
  rig (settings demo_state) = Some demo_rig /\
  (forall o, In o [demo_body] -> oid o < next_oid demo_state) /\
  let s := settings demo_state in
  let nm := String.append "Src" (name_suffix s) in
  let copies := working_copies s (next_oid demo_state) [demo_body] in
  let parts := separated (name_suffix s) (weight_threshold s)
                 (next_oid demo_state + List.length copies) copies in
  let cleared := List.map without_armature_modifiers parts in
  (forall st',
      prepare_objects demo_state = Ok tt st' ->
      is_objects_prepared (settings st') = true /\
      exists key a added,
        data demo_rig = ArmatureData key /\
        armatures demo_state !! key = Some a /\
        log st' = log demo_state ++ added /\
        added = EvCollectionNew nm :: materialize_events s (next_oid demo_state) [demo_body]
                ++ separation_log (next_oid demo_state + List.length copies) copies
                ++ [EvPosePosition "Armature" REST]
                ++ concat (List.map modifier_events parts)
                ++ List.map EvOriginSet (mesh_oids cleared)
                ++ concat (List.map (parent_events (bones a)) cleared)
                ++ [EvPosePosition key POSE] /\
        partitions_exactly copies
          (separation_log (next_oid demo_state + List.length copies) copies) /\
        mesh_oids cleared = List.map oid parts /\
        (forall k p, In (EvPosePosition k p) added ->
                     (k = "Armature" /\ p = REST) \/ (k = key /\ p = POSE)) /\
        objs_collection_created (settings st')
        = Some (mkCollection nm (List.map (bound_to demo_rig (bones a)) cleared)) /\
        (forall o,
            In o (List.map (bound_to demo_rig (bones a)) cleared) ->
            type o = MESH /\
            (forall md, In md (modifiers o) -> mod_type md <> MOD_ARMATURE) /\
            (forall g gs, vertex_groups o = g :: gs -> In (vg_name g) (bones a) ->
                          parent o = Some (oid demo_rig, vg_name g)))) /\
  ((exists st', prepare_objects demo_state = Ok tt st') <->
   (exists key,
       data demo_rig = ArmatureData key /\
       is_Some (armatures demo_state !! key) /\
       is_Some (armatures demo_state !! "Armature")) /\
   (active demo_state <> None \/ some_eligible s [demo_body])).
Proof.
  assert (Hfresh : forall o, In o [demo_body] -> oid o < next_oid demo_state).
  { intros o [<- | []]. simpl. lia. }
  split; [reflexivity|]. split; [reflexivity|]. split; [exact Hfresh|].
  apply (prepare_sequencing demo_state (mkCollection "Src" [demo_body]) demo_rig).
  - reflexivity.
  - reflexivity.
  - exact Hfresh.
Defined.

(** The log of [prepare_objects] on the worked scene, whose rig has the
    datablock "Rig": the rest step writes to "Armature" and the rig is in
    pose position throughout. *)
Example demo_prepare_log :
  exists st',
    prepare_objects demo_state = Ok tt st' /\
    log st' =
    [EvCollectionNew "Src_Solid"; EvMaterialize 2 10;
     EvPartition 10 0 11; EvPartition 10 1 12; EvRemoveObject 10;
     EvPosePosition "Armature" REST;
     EvModifierRemove 11; EvModifierRemove 12;
     EvOriginSet 11; EvOriginSet 12;
     EvParentClear 11; EvParentSet 11 "A"; EvParentClear 12; EvParentSet 12 "B";
     EvPosePosition "Rig" POSE].
Proof. eexists. split; vm_compute; reflexivity. Qed.

(** With nothing to duplicate and no active object the run stops at the
    [mode_set] of line 269 and the flag stays false. *)
Example prepare_without_active_object :
  prepare_objects (with_settings (with_original (Some (mkCollection "Src" [lamp]))) demo_state)
  = Raise RuntimeError.
Proof. vm_compute. reflexivity. Qed.

(** ** C6 *)

Lemma prepare_operator_finished st reports st' :
  SKIN2SOLID_OT_prepare_objects st = (reports, Ok FINISHED st') ->
  is_objects_prepared (settings st') = true.
Proof.
  unfold SKIN2SOLID_OT_prepare_objects, verify_operator. intros H.
  destruct (objs_collection_original (settings st)) as [src|] eqn:Ho;
    [|simpl in H; inversion H].
  destruct (rig (settings st)) as [r|] eqn:Hr; [|simpl in H; inversion H].
  simpl in H. unfold bind, ret in H.
  destruct (prepare_objects st) as [[] st1|] eqn:Hp; inversion H; subst.
  destruct (prepare_objects_inv st src r st' Ho Hr Hp)
    as (key & a & a0 & _ & _ & _ & _ & Hs' & _).
  now rewrite Hs'.
Qed.

(** C6 (invalidation).  Assigning the rig or the source collection stores
    the new value and leaves [is_objects_prepared] false, whatever it was
    before; in particular in the state that the prepare operator leaves
    when it finishes, where the flag is true. *)
Theorem invalidation_resets_prepared :
  (forall s r, rig (set_rig r s) = r /\ is_objects_prepared (set_rig r s) = false) /\
  (forall s c, objs_collection_original (set_objs_collection_original c s) = c /\
               is_objects_prepared (set_objs_collection_original c s) = false) /\
  (forall st reports st',
      SKIN2SOLID_OT_prepare_objects st = (reports, Ok FINISHED st') ->
      is_objects_prepared (settings st') = true /\
      (forall r, is_objects_prepared (set_rig r (settings st')) = false) /\
      (forall c, is_objects_prepared
                   (set_objs_collection_original c (settings st')) = false)).
Proof.
  split; [|split].
  - intros s r. split; reflexivity.
  - intros s c. split; reflexivity.
  - intros st reports st' H. split.
    + exact (prepare_operator_finished st reports st' H).
    + split; intros; reflexivity.
Qed.

(** The prepare operator on the worked scene finishes with the flag set;
    a new rig or a new source collection clears it. *)
Example invalidation_after_prepare :
  exists st',
    SKIN2SOLID_OT_prepare_objects demo_state = ([], Ok FINISHED st') /\
    is_objects_prepared (settings st') = true /\
    is_objects_prepared (set_rig (Some demo_body) (settings st')) = false /\
    is_objects_prepared (set_objs_collection_original None (settings st')) = false.
Proof. eexists. split; [vm_compute; reflexivity|]. repeat split. Qed.

(** ** C9 *)

(** [set_rig_to_rest_pose] does not touch the armature of the rig it is
    given unless that armature is the one called "Armature". *)
Lemma set_rig_to_rest_pose_other_key r key st st' :
  data r = ArmatureData key ->
  key <> "Armature" ->
  set_rig_to_rest_pose r st = Ok tt st' ->
  armatures st' !! key = armatures st !! key /\
  rig_pose_position (with_settings (with_rig (Some r)) st')
  = rig_pose_position (with_settings (with_rig (Some r)) st).
Proof.
  intros Hd Hne H. unfold set_rig_to_rest_pose, type in H. rewrite Hd in H.
  unfold bind, get, raise, modify in H.
  destruct (armatures st !! "Armature") as [a|]; [|discriminate].
  inversion H; subst. unfold rig_pose_position. simpl. rewrite Hd.
  rewrite lookup_insert_ne by congruence. now split.
Qed.

(** C9 fails on the code.  The rig of the worked scene is an armature
    object whose datablock is called "Rig" and is in pose position.
    [set_rig_to_rest_pose] writes REST to the datablock called "Armature";
    the rig is still in pose position after it, and still when the three
    steps before the binding are done and the binder parents the working
    objects.  Without a datablock of that name the call raises. *)
Example rest_pose_misses_rig :
  type demo_rig = ARMATURE /\
  rig (settings demo_state) = Some demo_rig /\
  data demo_rig = ArmatureData "Rig" /\
  (exists st1,
      set_rig_to_rest_pose demo_rig demo_state = Ok tt st1 /\
      log st1 = [EvPosePosition "Armature" REST] /\
      rig_pose_position st1 = Some POSE) /\
  (exists st5 st6,
      (let* created := create_working_collection in
       match created with
       | Some c =>
           for_each (objects c) separate_if_multiple_groups ;;
           set_rig_to_rest_pose demo_rig ;;
           clear_object_modifiers ;;
           set_object_origins_to_center
       | None => raise AttributeError
       end) demo_state = Ok tt st5 /\
      rig_pose_position st5 = Some POSE /\
      parent_objects_to_corresponding_bones st5 = Ok tt st6 /\
      In (EvParentSet 11 "A") (log st6) /\
      In (EvParentSet 12 "B") (log st6) /\
      ~ In (EvPosePosition "Rig" REST) (log st6)) /\
  prepare_objects (with_armatures (delete "Armature" demo_armatures) demo_state)
  = Raise (KeyError "Armature").
Proof.
  split; [reflexivity|]. split; [reflexivity|]. split; [reflexivity|].
  split.
  { eexists. split; [vm_compute; reflexivity|]. split; vm_compute; reflexivity. }
  split.
  { eexists _, _. split; [vm_compute; reflexivity|].
    split; [vm_compute; reflexivity|].
    split; [vm_compute; reflexivity|].
    split; [simpl; tauto|]. split; [simpl; tauto|].
    simpl. intros H. repeat (destruct H as [H | H]; [discriminate|]). exact H. }
  vm_compute. reflexivity.
Qed.

(** * Further properties of the code *)

(** ** The partitioner *)

Lemma filter_sublist {A} (f : A -> bool) (l : list A) : sublist (List.filter f l) l.
Proof.
  induction l as [|x l IH]; simpl; [constructor|].
  destruct (f x); [now apply sublist_skip | now apply sublist_cons].
Qed.

(** X1.  Vertex membership whatever the weight table holds: the duplicate made
    for a group keeps the vertices that have an entry for the group and no
    entry for it under the threshold; with several entries for one group a
    single one under the threshold removes the vertex.  The vertices that
    stay are those of the source, in their order. *)
Theorem partition_membership_any_table st mesh_obj m c :
  data mesh_obj = MeshData m ->
  objs_collection_created (settings st) = Some c ->
  In mesh_obj (objects c) ->
  exists st' l dups,
    separate_mesh_by_vertex_groups mesh_obj st = Ok tt st' /\
    objs_collection_created (settings st') = Some (mkCollection (coll_name c) (l ++ dups)) /\
    forall k g,
      nth_error (vertex_groups mesh_obj) k = Some g ->
      exists d,
        nth_error dups k = Some d /\
        sublist (object_vertices d) (vertices m) /\
        forall v,
          In v (object_vertices d) <->
          In v (vertices m) /\
          (exists w, In (mkVGE (vg_index g) w) (groups v)) /\
          (forall w, In (mkVGE (vg_index g) w) (groups v) ->
                     (weight_threshold (settings st) <= w)%Q).
Proof.
  intros Hdata Hc Hin.
  destruct (separate_mesh_by_vertex_groups_spec st mesh_obj m c Hdata Hc Hin)
    as (l & Hl & Hrun).
  eexists _, l, _. split; [exact Hrun|]. split; [reflexivity|].
  intros k g Hk. rewrite nth_error_sub_objects, Hk. simpl.
  eexists. split; [reflexivity|]. split.
  - unfold object_vertices, sub_object. simpl. apply filter_sublist.
  - intros v. rewrite in_sub_object_vertices, survives_iff. tauto.
Qed.

Lemma partition_membership_any_table_witness :
  data demo_work = MeshData (mkMesh "BodyMesh_Solid" (vertices demo_mesh)) /\
  objs_collection_created (settings demo_work_state)
  = Some (mkCollection "Src_Solid" [demo_work]) /\
  In demo_work [demo_work] /\
  exists st' l dups,
    separate_mesh_by_vertex_groups demo_work demo_work_state = Ok tt st' /\
    objs_collection_created (settings st') = Some (mkCollection "Src_Solid" (l ++ dups)) /\
    forall k g,
      nth_error (vertex_groups demo_work) k = Some g ->
      exists d,
        nth_error dups k = Some d /\
        sublist (object_vertices d) (vertices demo_mesh) /\
        forall v,
          In v (object_vertices d) <->
          In v (vertices demo_mesh) /\
          (exists w, In (mkVGE (vg_index g) w) (groups v)) /\
          (forall w, In (mkVGE (vg_index g) w) (groups v) ->
                     (weight_threshold (settings demo_work_state) <= w)%Q).
Proof.
  split; [reflexivity|]. split; [reflexivity|]. split; [simpl; left; reflexivity|].
  apply (partition_membership_any_table demo_work_state demo_work
           (mkMesh "BodyMesh_Solid" (vertices demo_mesh))
           (mkCollection "Src_Solid" [demo_work])).
  - reflexivity.
  - reflexivity.
  - simpl; left; reflexivity.
Defined.

Lemma survives_monotone gi t1 t2 v :
  (t1 <= t2)%Q -> survives gi t2 v = true -> survives gi t1 v = true.
Proof.
  intros Hle. rewrite !survives_iff. intros [Hex Hall]. split; [exact Hex|].
  intros w Hw. eapply Qle_trans; [exact Hle | now apply Hall].
Qed.

(** X2.  Raising the threshold never brings a vertex back: the duplicate made
    for a group under the higher threshold holds only vertices that the
    one made under the lower threshold holds. *)
Theorem partition_threshold_monotone s1 s2 mesh_obj m g n1 n2 d1 d2 :
  (weight_threshold s1 <= weight_threshold s2)%Q ->
  partition_duplicate s1 mesh_obj m (List.map group_data (vertices m)) g n1 = Some d1 ->
  partition_duplicate s2 mesh_obj m (List.map group_data (vertices m)) g n2 = Some d2 ->
  forall v, In v (object_vertices d2) -> In v (object_vertices d1).
Proof.
  intros Hle H1 H2 v. rewrite partition_duplicate_closed in H1, H2.
  inversion H1; inversion H2; subst. rewrite !in_sub_object_vertices.
  intros [Hv Hs]. split; [exact Hv|]. eapply survives_monotone; eassumption.
Qed.

Lemma partition_threshold_monotone_witness :
  exists d1 d2,
    (weight_threshold demo_settings <= weight_threshold demo_high_settings)%Q /\
    partition_duplicate demo_settings demo_work (mkMesh "BodyMesh_Solid" (vertices demo_mesh))
      (List.map group_data (vertices demo_mesh)) (mkVG 0 "A") 11 = Some d1 /\
    partition_duplicate demo_high_settings demo_work
      (mkMesh "BodyMesh_Solid" (vertices demo_mesh))
      (List.map group_data (vertices demo_mesh)) (mkVG 0 "A") 11 = Some d2 /\
    forall v, In v (object_vertices d2) -> In v (object_vertices d1).
Proof.
  eexists _, _.
  assert (Hle : (weight_threshold demo_settings <= weight_threshold demo_high_settings)%Q)
    by (unfold Qle; simpl; lia).
  split; [exact Hle|].
  split; [vm_compute; reflexivity|].
  split; [vm_compute; reflexivity|].
  apply (partition_threshold_monotone demo_settings demo_high_settings demo_work
           (mkMesh "BodyMesh_Solid" (vertices demo_mesh)) (mkVG 0 "A") 11 11).
  - exact Hle.
  - vm_compute; reflexivity.
  - vm_compute; reflexivity.
Defined.

Lemma keep_relevant_group_unique g vgs :
  List.NoDup (List.map vg_name vgs) ->
  In g vgs ->
  keep_relevant_group (vg_name g) vgs = [g].
Proof.
  intros Hnd Hin. unfold keep_relevant_group.
  assert (Hex : existsb (String.eqb (vg_name g)) (List.map vg_name vgs) = true).
  { apply existsb_exists. exists (vg_name g). split; [now apply in_map | apply String.eqb_refl]. }
  rewrite Hex. clear Hex.
  induction vgs as [|x rest IH]; [contradiction|].
  simpl in Hnd. inversion Hnd as [|? ? Hnotin Hnd']; subst. simpl.
  destruct Hin as [-> | Hin].
  - rewrite String.eqb_refl. f_equal.
    clear IH Hnd Hnd'. induction rest as [|y rest IH]; [reflexivity|]. simpl.
    destruct (String.eqb_spec (vg_name y) (vg_name g)) as [Heq|Hne].
    + exfalso. apply Hnotin. simpl. now left.
    + apply IH. intros H. apply Hnotin. simpl. now right.
  - destruct (String.eqb_spec (vg_name x) (vg_name g)) as [Heq|Hne].
    + exfalso. apply Hnotin. rewrite Heq. now apply in_map.
    + now apply IH.
Qed.

(** X3.  Every duplicate that the partitioner links carries exactly one vertex
    group, the one it was made for, when the group names of the object are
    distinct; so its first vertex group names its bone and the test for
    more than one group does not hold of it. *)
Theorem partition_outputs_carry_one_group st mesh_obj m c :
  data mesh_obj = MeshData m ->
  objs_collection_created (settings st) = Some c ->
  In mesh_obj (objects c) ->
  List.NoDup (List.map vg_name (vertex_groups mesh_obj)) ->
  exists st' l dups,
    separate_mesh_by_vertex_groups mesh_obj st = Ok tt st' /\
    objs_collection_created (settings st') = Some (mkCollection (coll_name c) (l ++ dups)) /\
    List.length dups = List.length (vertex_groups mesh_obj) /\
    forall k g,
      nth_error (vertex_groups mesh_obj) k = Some g ->
      exists d,
        nth_error dups k = Some d /\
        vertex_groups d = [g] /\
        multiple_groups d = false.
Proof.
  intros Hdata Hc Hin Hnd.
  destruct (separate_mesh_by_vertex_groups_spec st mesh_obj m c Hdata Hc Hin)
    as (l & Hl & Hrun).
  eexists _, l, _. split; [exact Hrun|]. split; [reflexivity|].
  split; [apply length_sub_objects|].
  intros k g Hk. rewrite nth_error_sub_objects, Hk. simpl.
  eexists. split; [reflexivity|].
  assert (Hg : vertex_groups
                 (sub_object (name_suffix (settings st)) (weight_threshold (settings st))
                    mesh_obj m g (next_oid st + k)) = [g]).
  { unfold sub_object. simpl. apply keep_relevant_group_unique; [exact Hnd|].
    now apply nth_error_In in Hk. }
  split; [exact Hg|]. unfold multiple_groups. rewrite Hg. reflexivity.
Qed.

Lemma partition_outputs_carry_one_group_witness :
  data demo_work = MeshData (mkMesh "BodyMesh_Solid" (vertices demo_mesh)) /\
  objs_collection_created (settings demo_work_state)
  = Some (mkCollection "Src_Solid" [demo_work]) /\
  In demo_work [demo_work] /\
  List.NoDup (List.map vg_name (vertex_groups demo_work)) /\
  exists st' l dups,
    separate_mesh_by_vertex_groups demo_work demo_work_state = Ok tt st' /\
    objs_collection_created (settings st') = Some (mkCollection "Src_Solid" (l ++ dups)) /\
    List.length dups = List.length (vertex_groups demo_work) /\
    forall k g,
      nth_error (vertex_groups demo_work) k = Some g ->
      exists d,
        nth_error dups k = Some d /\
        vertex_groups d = [g] /\
        multiple_groups d = false.
Proof.
  assert (Hnd : List.NoDup (List.map vg_name (vertex_groups demo_work))).
  { simpl. repeat constructor; simpl; intuition discriminate. }
  split; [reflexivity|]. split; [reflexivity|]. split; [simpl; left; reflexivity|].
  split; [exact Hnd|].
  apply (partition_outputs_carry_one_group demo_work_state demo_work
           (mkMesh "BodyMesh_Solid" (vertices demo_mesh))
           (mkCollection "Src_Solid" [demo_work])).
  - reflexivity.
  - reflexivity.
  - simpl; left; reflexivity.
  - exact Hnd.
Defined.


Lemma unlink_object_length o l :
  forall l', unlink_object o l = Some l' -> List.length l = S (List.length l').
Proof.
  induction l as [|y rest IH]; intros l' H; simpl in H; [discriminate|].
  destruct (oid y =? o).
  - now inversion H.
  - destruct (unlink_object o rest) as [r|]; [|discriminate].
    inversion H; subst. simpl. now rewrite (IH r).
Qed.

Lemma sub_objects_fresh suffix t mesh_obj m vgs :
  forall n d, In d (sub_objects suffix t mesh_obj m n vgs) -> n <= oid d.
Proof.
  induction vgs as [|g rest IH]; intros n d Hd; simpl in Hd; [contradiction|].
  destruct Hd as [<- | Hd]; [simpl; lia|]. apply IH in Hd. lia.
Qed.



(** ** [clear_object_modifiers] *)

(** X5.  [clear_object_modifiers] never raises.  Every mesh object of the
    working collection loses its armature modifiers and keeps its other
    modifiers in their order; every other object, and every other field of
    a mesh object, is as before, and so is the rest of the state but for the
    log, which grows by one event per removed modifier. *)
Theorem clear_object_modifiers_effect st c :
  objs_collection_created (settings st) = Some c ->
  exists st' c',
    clear_object_modifiers st = Ok tt st' /\
    objs_collection_created (settings st') = Some c' /\
    coll_name c' = coll_name c /\
    same_config (settings st) (settings st') /\
    is_objects_prepared (settings st') = is_objects_prepared (settings st) /\
    armatures st' = armatures st /\
    log st' = log st ++ concat (List.map modifier_events (objects c)) /\
    List.length (objects c') = List.length (objects c) /\
    forall i o,
      nth_error (objects c) i = Some o ->
      exists o',
        nth_error (objects c') i = Some o' /\
        oid o' = oid o /\ name o' = name o /\ data o' = data o /\
        vertex_groups o' = vertex_groups o /\ parent o' = parent o /\
        (type o <> MESH -> o' = o) /\
        (type o = MESH ->
         modifiers o' =
         List.filter (fun md => negb (is_armature_modifier md)) (modifiers o) /\
         forall md, In md (modifiers o') -> mod_type md <> MOD_ARMATURE).
Proof.
  intros Hc. eexists _, _. split; [exact (clear_object_modifiers_result st c Hc)|].
  split; [reflexivity|]. split; [reflexivity|].
  split; [unfold same_config; simpl; tauto|].
  split; [reflexivity|]. split; [reflexivity|]. split; [reflexivity|].
  cbn [objects]. split; [apply length_map|].
  intros i o Hi. exists (without_armature_modifiers o).
  split; [rewrite nth_error_map, Hi; reflexivity|].
  unfold without_armature_modifiers. destruct (type o) eqn:Ht; simpl;
    repeat (split; [reflexivity|]); split; try congruence; try reflexivity.
  intros _. split; [reflexivity|]. apply filter_negb_armature_clean.
Qed.

Lemma clear_object_modifiers_effect_witness :
  objs_collection_created (settings demo_work_state)
  = Some (mkCollection "Src_Solid" [demo_work]) /\
  exists st' c',
    clear_object_modifiers demo_work_state = Ok tt st' /\
    objs_collection_created (settings st') = Some c' /\
    coll_name c' = "Src_Solid" /\
    same_config (settings demo_work_state) (settings st') /\
    is_objects_prepared (settings st') = is_objects_prepared (settings demo_work_state) /\
    armatures st' = armatures demo_work_state /\
    log st' = log demo_work_state ++ concat (List.map modifier_events [demo_work]) /\
    List.length (objects c') = List.length [demo_work] /\
    forall i o,
      nth_error [demo_work] i = Some o ->
      exists o',
        nth_error (objects c') i = Some o' /\
        oid o' = oid o /\ name o' = name o /\ data o' = data o /\
        vertex_groups o' = vertex_groups o /\ parent o' = parent o /\
        (type o <> MESH -> o' = o) /\
        (type o = MESH ->
         modifiers o' =
         List.filter (fun md => negb (is_armature_modifier md)) (modifiers o) /\
         forall md, In md (modifiers o') -> mod_type md <> MOD_ARMATURE).
Proof.
  split; [reflexivity|].
  apply (clear_object_modifiers_effect demo_work_state
           (mkCollection "Src_Solid" [demo_work])).
  reflexivity.
Defined.

Lemma filter_filter_same {A} (f : A -> bool) (l : list A) :
  List.filter f (List.filter f l) = List.filter f l.
Proof.
  induction l as [|x l IH]; simpl; [reflexivity|].
  destruct (f x) eqn:E; simpl; [rewrite E; now f_equal | exact IH].
Qed.

Lemma filter_armature_of_clean mods :
  List.filter is_armature_modifier
    (List.filter (fun md => negb (is_armature_modifier md)) mods) = [].
Proof.
  induction mods as [|md rest IH]; simpl; [reflexivity|].
  destruct (is_armature_modifier md) eqn:E; simpl; [exact IH|]. now rewrite E.
Qed.

Lemma without_armature_modifiers_twice o :
  without_armature_modifiers (without_armature_modifiers o) = without_armature_modifiers o /\
  modifier_events (without_armature_modifiers o) = [].
Proof.
  unfold without_armature_modifiers, modifier_events, type.
  destruct o as [i n d vgs mods p]. simpl.
  destruct d; simpl; try (split; reflexivity);
    try (split; [reflexivity|]; fail).
  rewrite filter_filter_same, filter_armature_of_clean. split; reflexivity.
Qed.

(** X6.  A second [clear_object_modifiers] changes nothing, not even the log:
    whatever the state, the call returns a state in which calling it
    again returns that same state. *)
Theorem clear_object_modifiers_idempotent st :
  exists st1,
    clear_object_modifiers st = Ok tt st1 /\
    clear_object_modifiers st1 = Ok tt st1.
Proof.
  destruct (objs_collection_created (settings st)) as [c|] eqn:Hc.
  - rewrite (clear_object_modifiers_result st c Hc).
    eexists. split; [reflexivity|].
    erewrite clear_object_modifiers_result by reflexivity. f_equal.
    cbn [objects coll_name].
    assert (Hobjs : List.map without_armature_modifiers
                      (List.map without_armature_modifiers (objects c))
                    = List.map without_armature_modifiers (objects c)).
    { rewrite List.map_map. apply map_ext. intros o.
      apply without_armature_modifiers_twice. }
    assert (Hevs : concat (List.map modifier_events
                             (List.map without_armature_modifiers (objects c))) = []).
    { clear Hobjs. induction (objects c) as [|o rest IH]; [reflexivity|]. simpl.
      rewrite (proj2 (without_armature_modifiers_twice o)). exact IH. }
    rewrite Hobjs, Hevs, emit_all_nil. reflexivity.
  - exists st. unfold clear_object_modifiers, bind, get. rewrite Hc. split; reflexivity.
Qed.

(** ** [parent_objects_to_corresponding_bones] *)

(** X7.  With a rig that is an armature object and an active object (the
    [mode_set] calls of the binder need one), the binder returns and ends
    in object mode.  A mesh object of the working collection whose first
    vertex group is named like a bone of the rig is parented to the rig at
    that bone; an object that is no mesh, has no vertex group, or whose
    first group names no bone is passed over without an error and is
    exactly as before.  No object changes its name, data, vertex groups or
    modifiers. *)
Theorem parent_objects_effect st c r key a :
  objs_collection_created (settings st) = Some c ->
  rig (settings st) = Some r ->
  data r = ArmatureData key ->
  armatures st !! key = Some a ->
  active st <> None ->
  exists st' c',
    parent_objects_to_corresponding_bones st = Ok tt st' /\
    objs_collection_created (settings st') = Some c' /\
    coll_name c' = coll_name c /\
    same_config (settings st) (settings st') /\
    is_objects_prepared (settings st') = is_objects_prepared (settings st) /\
    mode st' = OBJECT_MODE /\
    List.length (objects c') = List.length (objects c) /\
    forall i o,
      nth_error (objects c) i = Some o ->
      exists o',
        nth_error (objects c') i = Some o' /\
        oid o' = oid o /\ name o' = name o /\ data o' = data o /\
        vertex_groups o' = vertex_groups o /\ modifiers o' = modifiers o /\
        (forall vg0 rest,
            type o = MESH -> vertex_groups o = vg0 :: rest ->
            In (vg_name vg0) (bones a) ->
            parent o' = Some (oid r, vg_name vg0) /\
            In (EvParentSet (oid o) (vg_name vg0)) (log st')) /\
        (type o <> MESH \/ vertex_groups o = [] \/
         (exists vg0 rest, vertex_groups o = vg0 :: rest /\ ~ In (vg_name vg0) (bones a)) ->
         o' = o).
Proof.
  intros Hc Hr Hd Ha Hact.
  destruct (parent_objects_result st c r key a Hc Hr Hd Ha Hact)
    as (st' & Hrun & Hs' & _ & _ & Hmode & _ & Hl').
  exists st', (mkCollection (coll_name c) (List.map (bound_to r (bones a)) (objects c))).
  split; [exact Hrun|]. rewrite Hs'.
  cbn [objs_collection_created with_created coll_name objects is_objects_prepared].
  split; [reflexivity|]. split; [reflexivity|].
  split; [unfold same_config; simpl; tauto|].
  split; [reflexivity|]. split; [exact Hmode|]. split; [apply length_map|].
  intros i o Hi. exists (bound_to r (bones a) o).
  split; [rewrite nth_error_map, Hi; reflexivity|].
  destruct (bound_to_fields r (bones a) o) as (H1 & H2 & H3 & H4 & H5).
  split; [exact H1|]. split; [exact H2|]. split; [exact H3|].
  split; [exact H4|]. split; [exact H5|].
  clear H1 H2 H3 H4 H5. split.
  - intros vg0 rest Ht Hv Hin.
    split; [now apply (bound_to_parent r (bones a) o vg0 rest Ht Hv)|].
    rewrite Hl'. apply in_or_app. right. apply in_or_app. left.
    apply in_concat. exists (parent_events (bones a) o). split.
    + apply in_map. now apply nth_error_In in Hi.
    + apply existsb_eqb_In in Hin.
      unfold parent_events, bone_of. rewrite Ht, Hv, Hin. simpl. tauto.
  - intros H. unfold bound_to, bone_of. destruct (type o) eqn:Ht; try reflexivity.
    destruct (vertex_groups o) as [|v0 vs] eqn:Hv; [reflexivity|].
    destruct (existsb (String.eqb (vg_name v0)) (bones a)) eqn:Hex; [|reflexivity].
    apply existsb_eqb_In in Hex.
    destruct H as [H | [H | (vg0 & rest & Heq & Hnot)]]; [congruence | discriminate|].
    inversion Heq; subst. contradiction.
Qed.

Lemma parent_objects_effect_witness :
  objs_collection_created (settings demo_bind_state)
  = Some (mkCollection "Src_Solid" [demo_work]) /\
  rig (settings demo_bind_state) = Some demo_rig /\
  data demo_rig = ArmatureData "Rig" /\
  armatures demo_bind_state !! "Rig" = Some (mkArmature POSE ["A"; "B"]) /\
  active demo_bind_state <> None /\
  exists st' c',
    parent_objects_to_corresponding_bones demo_bind_state = Ok tt st' /\
    objs_collection_created (settings st') = Some c' /\
    coll_name c' = "Src_Solid" /\
    same_config (settings demo_bind_state) (settings st') /\
    is_objects_prepared (settings st') = is_objects_prepared (settings demo_bind_state) /\
    mode st' = OBJECT_MODE /\
    List.length (objects c') = List.length [demo_work] /\
    forall i o,
      nth_error [demo_work] i = Some o ->
      exists o',
        nth_error (objects c') i = Some o' /\
        oid o' = oid o /\ name o' = name o /\ data o' = data o /\
        vertex_groups o' = vertex_groups o /\ modifiers o' = modifiers o /\
        (forall vg0 rest,
            type o = MESH -> vertex_groups o = vg0 :: rest ->
            In (vg_name vg0) ["A"; "B"] ->
            parent o' = Some (oid demo_rig, vg_name vg0) /\
            In (EvParentSet (oid o) (vg_name vg0)) (log st')) /\
        (type o <> MESH \/ vertex_groups o = [] \/
         (exists vg0 rest, vertex_groups o = vg0 :: rest /\ ~ In (vg_name vg0) ["A"; "B"]) ->
         o' = o).
Proof.
  assert (Ha : armatures demo_bind_state !! "Rig" = Some (mkArmature POSE ["A"; "B"]))
    by (vm_compute; reflexivity).
  assert (Hact : active demo_bind_state <> None) by discriminate.
  split; [reflexivity|]. split; [reflexivity|]. split; [reflexivity|].
  split; [exact Ha|]. split; [exact Hact|].
  apply (parent_objects_effect demo_bind_state (mkCollection "Src_Solid" [demo_work])
           demo_rig "Rig" (mkArmature POSE ["A"; "B"])).
  - reflexivity.
  - reflexivity.
  - reflexivity.
  - exact Ha.
  - exact Hact.
Defined.

(** ** [bake_animation] *)

Lemma select_loop_result l :
  forall st,
    exists st',
      for_each l select_if_mesh st = Ok tt st' /\
      settings st' = settings st /\
      armatures st' = armatures st /\
      next_oid st' = next_oid st /\
      mode st' = mode st /\
      log st' = log st /\
      selected st' = selected st ++ mesh_oids l.
Proof.
  induction l as [|x rest IH]; intros st.
  - exists st. simpl. unfold mesh_oids. simpl. rewrite app_nil_r. repeat split.
  - cbn [for_each]. unfold bind at 1. unfold select_if_mesh at 1.
    unfold mesh_oids, is_mesh. cbn [List.filter].
    destruct (type x).
    + unfold bind, modify. 
      destruct (IH (with_active (Some (oid x)) (select_set (oid x) st)))
        as (st' & Hrun & Hs & Ha & Hn & Hm & Hl & Hsel).
      exists st'. split; [exact Hrun|]. simpl in *.
      repeat (split; [assumption|]).
      rewrite Hsel. unfold mesh_oids, is_mesh. now rewrite <- app_assoc.
    + unfold ret. apply IH.
    + unfold ret. apply IH.
Qed.

Lemma select_and_bake_result c st :
  objs_collection_created (settings st) = Some c ->
  active st <> None ->
  exists st',
    select_and_bake c st = Ok tt st' /\
    settings st' = with_created
                     (Some (mkCollection (coll_name c)
                              (List.map (baked (mesh_oids (objects c))) (objects c))))
                     (settings st) /\
    armatures st' = armatures st /\
    next_oid st' = next_oid st /\
    mode st' = OBJECT_MODE /\
    selected st' = mesh_oids (objects c) /\
    log st' = log st ++ [EvBake (bake_frame_start (settings st))
                           (bake_frame_end (settings st)) (mesh_oids (objects c))].
Proof.
  intros Hc Hact. unfold select_and_bake.
  unfold bind at 1. rewrite (mode_set_active _ _ Hact).
  unfold bind at 1. unfold modify at 1.
  destruct (select_loop_result (objects c)
              (with_selected [] (with_mode OBJECT_MODE st)))
    as (st1 & Hrun & Hs1 & Ha1 & Hn1 & Hm1 & Hl1 & Hsel1).
  simpl in Hs1, Ha1, Hn1, Hm1, Hl1, Hsel1.
  unfold bind at 1. rewrite Hrun.
  unfold nla_bake, bind, get, modify, store_created_objects, ret.
  cbn [settings emit]. rewrite Hs1. cbn [settings with_selected with_mode]. rewrite Hc.
  change (settings (emit ?e st1)) with (settings st1). rewrite Hs1, Hc.
  eexists. split; [reflexivity|].
  cbn [settings armatures next_oid mode selected log with_settings emit].
  rewrite Hsel1, Hl1. unfold baked. repeat split; try assumption. now rewrite Hs1.
Qed.

Lemma baked_fields sel o :
  oid (baked sel o) = oid o /\ name (baked sel o) = name o /\
  data (baked sel o) = data o /\ vertex_groups (baked sel o) = vertex_groups o /\
  modifiers (baked sel o) = modifiers o.
Proof. unfold baked. destruct (existsb _ sel); repeat split. Qed.

Lemma in_mesh_oids o l : In o l -> type o = MESH -> In (oid o) (mesh_oids l).
Proof.
  intros Hin Ht. unfold mesh_oids. apply in_map. apply filter_In. split; [exact Hin|].
  unfold is_mesh. now rewrite Ht.
Qed.

Lemma existsb_nat_eqb_In n l : existsb (Nat.eqb n) l = true <-> In n l.
Proof.
  rewrite existsb_exists. split.
  - intros (x & Hin & Heq). apply Nat.eqb_eq in Heq. now subst.
  - intros Hin. exists n. split; [exact Hin|apply Nat.eqb_refl].
Qed.

Lemma app_one_neq {A} (l : list A) (x : A) : l ++ [x] <> l.
Proof.
  intros H. apply (f_equal (@List.length A)) in H. rewrite length_app in H. simpl in H. lia.
Qed.

(** X8.  [bake_animation] with something to bake (a working collection, and
    an active object or a non-empty collection) returns after exactly one
    [nla.bake] over the configured frame range; what it bakes is the mesh
    objects of the working collection, in collection order, whatever was
    selected before.  Every mesh object loses its parent, an object of the
    collection is otherwise unchanged (its parent cleared, or the object as
    it was), and the configuration, the prepared flag and the armatures are
    those of the start. *)
Theorem bake_animation_effect st c :
  objs_collection_created (settings st) = Some c ->
  active st <> None \/ objects c <> [] ->
  exists st' c',
    bake_animation st = Ok tt st' /\
    objs_collection_created (settings st') = Some c' /\
    coll_name c' = coll_name c /\
    same_config (settings st) (settings st') /\
    is_objects_prepared (settings st') = is_objects_prepared (settings st) /\
    armatures st' = armatures st /\
    log st' = log st ++ [EvBake (bake_frame_start (settings st))
                           (bake_frame_end (settings st)) (mesh_oids (objects c))] /\
    selected st' = mesh_oids (objects c) /\
    List.length (objects c') = List.length (objects c) /\
    forall i o,
      nth_error (objects c) i = Some o ->
      exists o',
        nth_error (objects c') i = Some o' /\
        oid o' = oid o /\ name o' = name o /\ data o' = data o /\
        vertex_groups o' = vertex_groups o /\ modifiers o' = modifiers o /\
        (type o = MESH -> parent o' = None) /\
        (o' = o \/ o' = set_parent None o).
Proof.
  intros Hc Hsome.
  assert (Hgen : forall st0,
             objs_collection_created (settings st0) = Some c ->
             settings st0 = settings st -> armatures st0 = armatures st ->
             log st0 = log st -> active st0 <> None ->
             exists st' c',
               select_and_bake c st0 = Ok tt st' /\
               objs_collection_created (settings st') = Some c' /\
               coll_name c' = coll_name c /\
               same_config (settings st) (settings st') /\
               is_objects_prepared (settings st') = is_objects_prepared (settings st) /\
               armatures st' = armatures st /\
               log st' = log st ++ [EvBake (bake_frame_start (settings st))
                                      (bake_frame_end (settings st)) (mesh_oids (objects c))] /\
               selected st' = mesh_oids (objects c) /\
               List.length (objects c') = List.length (objects c) /\
               forall i o,
                 nth_error (objects c) i = Some o ->
                 exists o',
                   nth_error (objects c') i = Some o' /\
                   oid o' = oid o /\ name o' = name o /\ data o' = data o /\
                   vertex_groups o' = vertex_groups o /\ modifiers o' = modifiers o /\
                   (type o = MESH -> parent o' = None) /\
                   (o' = o \/ o' = set_parent None o)).
  { intros st0 Hc0 Hs0 Ha0 Hl0 Hact0.
    destruct (select_and_bake_result c st0 Hc0 Hact0)
      as (st' & Hrun & Hs & Ha & _ & _ & Hsel & Hl).
    exists st', (mkCollection (coll_name c)
                   (List.map (baked (mesh_oids (objects c))) (objects c))).
    split; [exact Hrun|]. rewrite Hs, Hs0. cbn [objs_collection_created with_created
      is_objects_prepared coll_name objects].
    split; [reflexivity|]. split; [reflexivity|].
    split; [unfold same_config; now repeat split|].
    split; [reflexivity|]. split; [congruence|].
    split; [now rewrite Hl, Hl0, Hs0|]. split; [exact Hsel|].
    split; [apply length_map|].
    intros i o Hnth. exists (baked (mesh_oids (objects c)) o).
    split; [rewrite nth_error_map, Hnth; reflexivity|].
    destruct (baked_fields (mesh_oids (objects c)) o) as (H1 & H2 & H3 & H4 & H5).
    repeat (split; [assumption|]).
    split.
    - intros Ht. unfold baked.
      assert (Hin : existsb (Nat.eqb (oid o)) (mesh_oids (objects c)) = true).
      { apply existsb_nat_eqb_In. apply in_mesh_oids; [|exact Ht].
        eapply nth_error_In; exact Hnth. }
      now rewrite Hin.
    - unfold baked. destruct (existsb _ _); [now right|now left]. }
  unfold bake_animation. unfold bind at 1. unfold get. rewrite Hc.
  destruct (active st) as [a|] eqn:Hact.
  - apply Hgen; auto; congruence.
  - destruct (objects c) as [|first rest] eqn:Hobjs.
    + destruct Hsome as [H|H]; congruence.
    + unfold bind at 1. unfold modify at 1. apply Hgen; auto; discriminate.
Qed.

Lemma bake_animation_effect_witness :
  objs_collection_created (settings demo_work_state)
  = Some (mkCollection "Src_Solid" [demo_work]) /\
  (active demo_work_state <> None \/ [demo_work] <> []) /\
  exists st' c',
    bake_animation demo_work_state = Ok tt st' /\
    objs_collection_created (settings st') = Some c' /\
    coll_name c' = "Src_Solid" /\
    same_config (settings demo_work_state) (settings st') /\
    is_objects_prepared (settings st') = is_objects_prepared (settings demo_work_state) /\
    armatures st' = armatures demo_work_state /\
    log st' = log demo_work_state
              ++ [EvBake (bake_frame_start (settings demo_work_state))
                    (bake_frame_end (settings demo_work_state)) (mesh_oids [demo_work])] /\
    selected st' = mesh_oids [demo_work] /\
    List.length (objects c') = List.length [demo_work] /\
    forall i o,
      nth_error [demo_work] i = Some o ->
      exists o',
        nth_error (objects c') i = Some o' /\
        oid o' = oid o /\ name o' = name o /\ data o' = data o /\
        vertex_groups o' = vertex_groups o /\ modifiers o' = modifiers o /\
        (type o = MESH -> parent o' = None) /\
        (o' = o \/ o' = set_parent None o).
Proof.
  split; [reflexivity|]. split; [right; discriminate|].
  apply (bake_animation_effect demo_work_state (mkCollection "Src_Solid" [demo_work])).
  - reflexivity.
  - right. discriminate.
Defined.

(** X9.  [bake_animation] never raises, and it leaves the session exactly
    as it found it in two cases only: no working collection is set, or no
    object is active and the working collection is empty.  In particular
    with an active object and an empty working collection the bake operator
    of the host is still run (on an empty selection). *)
Theorem bake_animation_unchanged_iff st :
  (exists st', bake_animation st = Ok tt st') /\
  (bake_animation st = Ok tt st <->
   objs_collection_created (settings st) = None \/
   (active st = None /\
    exists c, objs_collection_created (settings st) = Some c /\ objects c = [])).
Proof.
  assert (Hgen : forall c st0,
             objs_collection_created (settings st0) = Some c ->
             log st0 = log st -> active st0 <> None ->
             (exists st', select_and_bake c st0 = Ok tt st') /\
             select_and_bake c st0 <> Ok tt st).
  { intros c st0 Hc0 Hl0 Hact0.
    destruct (select_and_bake_result c st0 Hc0 Hact0)
      as (st' & Hrun & _ & _ & _ & _ & _ & Hl).
    split; [now exists st'|]. rewrite Hrun. intros Heq. injection Heq as ->.
    rewrite Hl0 in Hl. symmetry in Hl. now apply app_one_neq in Hl. }
  unfold bake_animation. unfold bind at 1 3. unfold get.
  destruct (objs_collection_created (settings st)) as [c|] eqn:Hc.
  - destruct (active st) as [a|] eqn:Hact.
    + destruct (Hgen c st Hc eq_refl) as [Hex Hne]; [congruence|].
      split; [exact Hex|]. split; [intros H; now apply Hne in H|].
      intros [H|[H _]]; discriminate H.
    + destruct (objects c) as [|first rest] eqn:Hobjs.
      * split; [now exists st|]. split; [|reflexivity].
        intros _. right. split; [reflexivity|]. now exists c.
      * unfold bind, modify.
        destruct (Hgen c (with_active (Some (oid first)) st) Hc eq_refl) as [Hex Hne];
          [discriminate|].
        split; [exact Hex|]. split; [intros H; now apply Hne in H|].
        intros [H|[_ (c0 & Hc0 & H0)]]; [discriminate H|].
        injection Hc0 as <-. congruence.
  - split; [now exists st|]. split; [|reflexivity]. intros _. now left.
Qed.

(** ** [prepare_objects] from end to end *)

Lemma unlink_object_subset o l :
  forall l' x, unlink_object o l = Some l' -> In x l' -> In x l.
Proof.
  induction l as [|y rest IH]; intros l' x H Hin; simpl in H; [discriminate|].
  destruct (oid y =? o).
  - injection H as <-. now right.
  - destruct (unlink_object o rest) as [rest'|]; [|discriminate].
    injection H as <-. destruct Hin as [->|Hin]; [now left|].
    right. now apply (IH rest').
Qed.

Lemma type_mesh_data o : type o = MESH -> exists m, data o = MeshData m.
Proof. unfold type. destruct (data o) as [m| |]; try discriminate. now exists m. Qed.

Lemma sub_object_single suffix t mesh_obj m g k :
  List.NoDup (List.map vg_name (vertex_groups mesh_obj)) ->
  In g (vertex_groups mesh_obj) ->
  well_grouped (sub_object suffix t mesh_obj m g k) /\
  single_group (sub_object suffix t mesh_obj m g k).
Proof.
  intros Hnd Hg.
  assert (H : vertex_groups (sub_object suffix t mesh_obj m g k) = [g])
    by (unfold sub_object; simpl; now apply keep_relevant_group_unique).
  split.
  - split; [reflexivity|]. rewrite H. split; [discriminate|].
    simpl. apply List.NoDup_cons; [intros []|constructor].
  - now exists g.
Qed.

Lemma same_config_trans s1 s2 s3 :
  same_config s1 s2 -> same_config s2 s3 -> same_config s1 s3.
Proof.
  unfold same_config.
  intros (A1 & A2 & A3 & A4 & A5 & A6) (B1 & B2 & B3 & B4 & B5 & B6).
  repeat split; congruence.
Qed.

Lemma working_copies_well_grouped s objs :
  (forall o, In o objs -> List.NoDup (List.map vg_name (vertex_groups o))) ->
  forall n d, In d (working_copies s n objs) -> well_grouped d.
Proof.
  intros Hnames n d Hd. apply in_working_copies in Hd.
  destruct Hd as (obj & k & Hin & Hs & ->).
  apply should_object_be_processed_iff in Hs. destruct Hs as (Ht & Hne & _).
  split; [now rewrite type_copy_data|]. split; [exact Hne|]. exact (Hnames obj Hin).
Qed.

(** After the loop of line 304 over well-grouped copies every working
    object is a mesh object with one vertex group. *)
Lemma separated_single suffix threshold n copies o :
  (forall c, In c copies -> well_grouped c) ->
  In o (separated suffix threshold n copies) ->
  type o = MESH /\ single_group o.
Proof.
  intros Hall Ho. unfold separated in Ho. apply in_app_or in Ho. destruct Ho as [Ho | Ho].
  - apply filter_In in Ho. destruct Ho as [Ho Hm].
    destruct (Hall o Ho) as (Ht & Hne & _). split; [exact Ht|].
    unfold multiple_groups in Hm. rewrite Ht in Hm.
    apply negb_true_iff, Nat.ltb_ge in Hm. unfold single_group.
    destruct (vertex_groups o) as [|g [|g' gs]]; [contradiction | | simpl in Hm; lia].
    now exists g.
  - apply in_all_pieces in Ho. destruct Ho as (x & m & g & k & Hx & _ & _ & Hg & ->).
    destruct (Hall x Hx) as (_ & _ & Hnd).
    destruct (sub_object_single suffix threshold x m g k Hnd Hg) as [(Ht & _) Hs].
    now split.
Qed.

(** X10.  With the rig an armature object, its armature and the one named
    "Armature" present, an object active or some source object eligible
    (line 250 then makes it active, as the [mode_set] of line 269 needs),
    the source objects in the scene before the run and the vertex groups of
    every source object named differently, [prepare_objects] returns with a
    working collection, named after the source collection plus the suffix,
    in which every object is a rigid piece: a mesh object with exactly one
    vertex group and no armature modifier, parented to the rig's bone of
    that group's name when the rig has such a bone.  The configured source
    collection, rig, frame range, suffix and threshold are those of the
    start. *)
Theorem prepare_objects_leaves_rigid_pieces st src r key a :
  objs_collection_original (settings st) = Some src ->
  rig (settings st) = Some r ->
  data r = ArmatureData key ->
  armatures st !! key = Some a ->
  is_Some (armatures st !! "Armature") ->
  (forall o, In o (objects src) -> oid o < next_oid st) ->
  active st <> None \/ some_eligible (settings st) (objects src) ->
  (forall o, In o (objects src) -> List.NoDup (List.map vg_name (vertex_groups o))) ->
  exists st' c',
    prepare_objects st = Ok tt st' /\
    objs_collection_created (settings st') = Some c' /\
    coll_name c' = String.append (coll_name src) (name_suffix (settings st)) /\
    same_config (settings st) (settings st') /\
    forall o,
      In o (objects c') ->
      type o = MESH /\
      (forall md, In md (modifiers o) -> mod_type md <> MOD_ARMATURE) /\
      exists g,
        vertex_groups o = [g] /\
        (In (vg_name g) (bones a) -> parent o = Some (oid r, vg_name g)).
Proof.
  intros Ho Hr Hd Hkey Harm Hfresh Hcond Hnames.
  destruct (prepare_objects_run st src r key Ho Hr Hd (ex_intro _ a Hkey) Harm Hfresh Hcond)
    as (st' & Hrun).
  destruct (prepare_objects_inv st src r st' Ho Hr Hrun)
    as (key' & a' & a0 & Hd' & Hkey' & _ & _ & Hs' & _).
  assert (key' = key) by congruence. subst key'.
  assert (a' = a) by congruence. subst a'.
  eexists st', _. split; [exact Hrun|]. rewrite Hs'.
  cbn [objs_collection_created with_prepared with_created coll_name objects].
  split; [reflexivity|]. split; [reflexivity|].
  split; [unfold same_config; simpl; tauto|].
  intros o Hin. apply in_map_iff in Hin. destruct Hin as (o1 & <- & Hin).
  apply in_map_iff in Hin. destruct Hin as (o2 & <- & Hin).
  apply separated_single in Hin;
    [|now apply (working_copies_well_grouped (settings st) (objects src) Hnames (next_oid st))].
  destruct Hin as (Ht & g & Hg).
  destruct (without_armature_modifiers_fields o2) as (Ht1 & Hv1 & _ & Hm1).
  rewrite Ht in Ht1. rewrite Hg in Hv1.
  destruct (bound_to_fields r (bones a) (without_armature_modifiers o2))
    as (_ & _ & Hdata & Hvg & Hmods).
  split; [unfold type in *; now rewrite Hdata|].
  split; [rewrite Hmods; now apply Hm1|].
  exists g. split; [now rewrite Hvg|].
  now apply (bound_to_parent r (bones a) _ g [] Ht1 Hv1).
Qed.

Lemma prepare_objects_leaves_rigid_pieces_witness :
  objs_collection_original (settings demo_state) = Some (mkCollection "Src" [demo_body]) /\
  rig (settings demo_state) = Some demo_rig /\
  data demo_rig = ArmatureData "Rig" /\
  armatures demo_state !! "Rig" = Some (mkArmature POSE ["A"; "B"]) /\
  is_Some (armatures demo_state !! "Armature") /\
  (forall o, In o [demo_body] -> oid o < next_oid demo_state) /\
  (active demo_state <> None \/ some_eligible (settings demo_state) [demo_body]) /\
  (forall o, In o [demo_body] -> List.NoDup (List.map vg_name (vertex_groups o))) /\
  exists st' c',
    prepare_objects demo_state = Ok tt st' /\
    objs_collection_created (settings st') = Some c' /\
    coll_name c' = String.append "Src" (name_suffix (settings demo_state)) /\
    same_config (settings demo_state) (settings st') /\
    forall o,
      In o (objects c') ->
      type o = MESH /\
      (forall md, In md (modifiers o) -> mod_type md <> MOD_ARMATURE) /\
      exists g,
        vertex_groups o = [g] /\
        (In (vg_name g) ["A"; "B"] -> parent o = Some (oid demo_rig, vg_name g)).
Proof.
  assert (Hkey : armatures demo_state !! "Rig" = Some (mkArmature POSE ["A"; "B"]))
    by (vm_compute; reflexivity).
  assert (Harm : is_Some (armatures demo_state !! "Armature"))
    by (vm_compute; eexists; reflexivity).
  assert (Hfresh : forall o, In o [demo_body] -> oid o < next_oid demo_state).
  { intros o [<- | []]. simpl. lia. }
  assert (Hcond : active demo_state <> None \/ some_eligible (settings demo_state) [demo_body]).
  { right. exists demo_body. split; [now left | reflexivity]. }
  assert (Hnames : forall o, In o [demo_body] ->
                             List.NoDup (List.map vg_name (vertex_groups o))).
  { intros o [<-|[]]. simpl. repeat constructor; simpl; intuition discriminate. }
  split; [reflexivity|]. split; [reflexivity|]. split; [reflexivity|].
  split; [exact Hkey|]. split; [exact Harm|]. split; [exact Hfresh|].
  split; [exact Hcond|]. split; [exact Hnames|].
  apply (prepare_objects_leaves_rigid_pieces demo_state (mkCollection "Src" [demo_body])
           demo_rig "Rig" (mkArmature POSE ["A"; "B"])).
  - reflexivity.
  - reflexivity.
  - reflexivity.
  - exact Hkey.
  - exact Harm.
  - exact Hfresh.
  - exact Hcond.
  - exact Hnames.
Defined.

(** ** The operators, one after the other *)

(** [prepare_objects] whenever it returns: the configuration is kept, a
    working collection is set and the flag is true. *)
Lemma prepare_objects_config st src r st' :
  objs_collection_original (settings st) = Some src ->
  rig (settings st) = Some r ->
  prepare_objects st = Ok tt st' ->
  same_config (settings st) (settings st') /\
  is_objects_prepared (settings st') = true /\
  is_Some (objs_collection_created (settings st')).
Proof.
  intros Ho Hr H.
  destruct (prepare_objects_inv st src r st' Ho Hr H)
    as (key & a & a0 & _ & _ & _ & _ & Hs' & _).
  rewrite Hs'. split; [unfold same_config; simpl; tauto|].
  split; [reflexivity|]. cbn. eauto.
Qed.

(** X11.  When the prepare operator has finished, the bake operator run in
    the state it left is not cancelled: it reports nothing and finishes, the
    flag [is_objects_prepared] and the configuration stay as they are (so the
    bake can be run again), the working collection keeps its objects, and
    every mesh object in it ends without a parent.  Unless the working
    collection is empty, exactly one [nla.bake] is run, over the configured
    frame range and on the mesh objects of the working collection. *)
Theorem bake_runs_after_prepare st reports st1 :
  SKIN2SOLID_OT_prepare_objects st = (reports, Ok FINISHED st1) ->
  exists c1 st2 c2,
    objs_collection_created (settings st1) = Some c1 /\
    SKIN2SOLID_OT_bake_animation st1 = ([], Ok FINISHED st2) /\
    is_objects_prepared (settings st2) = true /\
    same_config (settings st) (settings st2) /\
    (objects c1 <> [] ->
     log st2 = log st1 ++ [EvBake (bake_frame_start (settings st))
                             (bake_frame_end (settings st)) (mesh_oids (objects c1))]) /\
    objs_collection_created (settings st2) = Some c2 /\
    List.map oid (objects c2) = List.map oid (objects c1) /\
    forall o, In o (objects c2) -> type o = MESH -> parent o = None.
Proof.
  unfold SKIN2SOLID_OT_prepare_objects, verify_operator. intros H.
  destruct (objs_collection_original (settings st)) as [src|] eqn:Ho;
    [|simpl in H; inversion H].
  destruct (rig (settings st)) as [r|] eqn:Hr; [|simpl in H; inversion H].
  simpl in H. unfold bind, ret in H.
  destruct (prepare_objects st) as [[] st1'|] eqn:Hp; inversion H; subst.
  destruct (prepare_objects_config st src r st1 Ho Hr Hp) as (Hcfg & Hprep & [c1 Hc1]).
  pose proof Hcfg as (Ho1 & Hr1 & Hfs & Hfe & _).
  assert (Hgen : forall st0,
             objs_collection_created (settings st0) = Some c1 ->
             settings st0 = settings st1 -> log st0 = log st1 -> active st0 <> None ->
             exists st2,
               select_and_bake c1 st0 = Ok tt st2 /\
               settings st2 = with_created
                                (Some (mkCollection (coll_name c1)
                                         (List.map (baked (mesh_oids (objects c1)))
                                            (objects c1))))
                                (settings st1) /\
               log st2 = log st1 ++ [EvBake (bake_frame_start (settings st))
                                       (bake_frame_end (settings st))
                                       (mesh_oids (objects c1))]).
  { intros st0 Hc0 Hs0 Hl0 Hact0.
    destruct (select_and_bake_result c1 st0 Hc0 Hact0)
      as (s2 & Hrun0 & Hs20 & _ & _ & _ & _ & Hl20).
    exists s2. split; [exact Hrun0|]. split; [now rewrite Hs20, Hs0|].
    rewrite Hl20, Hl0, Hs0, Hfs, Hfe. reflexivity. }
  assert (Hbake : exists st2,
             bake_animation st1 = Ok tt st2 /\
             settings st2 = with_created
                              (Some (mkCollection (coll_name c1)
                                       (List.map (baked (mesh_oids (objects c1)))
                                          (objects c1))))
                              (settings st1) /\
             (objects c1 <> [] ->
              log st2 = log st1 ++ [EvBake (bake_frame_start (settings st))
                                      (bake_frame_end (settings st))
                                      (mesh_oids (objects c1))])).
  { unfold bake_animation. unfold bind at 1. unfold get. rewrite Hc1.
    destruct (active st1) as [act|] eqn:Hact1.
    - destruct (Hgen st1 Hc1 eq_refl eq_refl) as (s2 & A & B & C); [congruence|].
      exists s2. split; [exact A|]. split; [exact B|now intros _].
    - destruct (objects c1) as [|first rest] eqn:Hobjs.
      + exists st1. split; [reflexivity|]. split; [|intros Hne; now contradiction Hne].
        destruct (settings st1); simpl in *. rewrite Hc1. destruct c1; simpl in *.
        now rewrite Hobjs.
      + unfold bind at 1. unfold modify at 1.
        destruct (Hgen (with_active (Some (oid first)) st1) Hc1 eq_refl eq_refl)
          as (s2 & A & B & C); [discriminate|].
        exists s2. split; [exact A|]. split; [exact B|now intros _]. }
  clear Hgen. destruct Hbake as (st2 & Hrun & Hs2 & Hl2).
  exists c1, st2,
    (mkCollection (coll_name c1) (List.map (baked (mesh_oids (objects c1))) (objects c1))).
  split; [exact Hc1|]. split.
  { unfold SKIN2SOLID_OT_bake_animation, verify_operator.
    rewrite Ho1, Ho, Hr1, Hr, Hprep. simpl. unfold bind, ret. now rewrite Hrun. }
  rewrite Hs2. cbn [is_objects_prepared with_created objs_collection_created].
  split; [exact Hprep|].
  split.
  { eapply same_config_trans; [exact Hcfg|]. unfold same_config. simpl. now repeat split. }
  split; [exact Hl2|]. split; [reflexivity|].
  cbn [objects]. split.
  - rewrite map_map. apply map_ext. intros o. apply baked_fields.
  - intros o Hin Ht. apply in_map_iff in Hin. destruct Hin as (o0 & <- & Hin).
    destruct (baked_fields (mesh_oids (objects c1)) o0) as (_ & _ & Hdata & _).
    assert (Ht0 : type o0 = MESH) by (unfold type in *; now rewrite <- Hdata).
    unfold baked.
    assert (Hex : existsb (Nat.eqb (oid o0)) (mesh_oids (objects c1)) = true)
      by (apply existsb_nat_eqb_In; now apply in_mesh_oids).
    now rewrite Hex.
Qed.

Lemma bake_runs_after_prepare_witness :
  SKIN2SOLID_OT_prepare_objects demo_state = ([], Ok FINISHED demo_prepared_state) /\
  exists c1 st2 c2,
    objs_collection_created (settings demo_prepared_state) = Some c1 /\
    SKIN2SOLID_OT_bake_animation demo_prepared_state = ([], Ok FINISHED st2) /\
    is_objects_prepared (settings st2) = true /\
    same_config (settings demo_state) (settings st2) /\
    (objects c1 <> [] ->
     log st2 = log demo_prepared_state
               ++ [EvBake (bake_frame_start (settings demo_state))
                     (bake_frame_end (settings demo_state)) (mesh_oids (objects c1))]) /\
    objs_collection_created (settings st2) = Some c2 /\
    List.map oid (objects c2) = List.map oid (objects c1) /\
    forall o, In o (objects c2) -> type o = MESH -> parent o = None.
Proof.
  assert (H : SKIN2SOLID_OT_prepare_objects demo_state
              = ([], Ok FINISHED demo_prepared_state)) by (vm_compute; reflexivity).
  split; [exact H|].
  exact (bake_runs_after_prepare demo_state [] demo_prepared_state H).
Defined.

(** ** Edge cases of [separate_mesh_by_vertex_groups] *)

Lemma unlink_object_absent o l :
  (forall x, In x l -> oid x <> o) -> unlink_object o l = None.
Proof.
  induction l as [|y rest IH]; intros H; simpl; [reflexivity|].
  destruct (oid y =? o) eqn:E.
  - apply Nat.eqb_eq in E. exfalso. apply (H y); [now left|exact E].
  - rewrite IH; [reflexivity|]. intros x Hx. apply H. now right.
Qed.

(** X12.  [separate_mesh_by_vertex_groups] at its edges.  For an object
    that is not a mesh, or with no working collection set, it returns and
    changes nothing.  For a mesh object that is not linked in the working
    collection it raises the host's [RuntimeError] (at the unlink of line
    87); the object is one that exists already, so that no duplicate made
    meanwhile has its identity.  For a linked mesh object without vertex
    groups it returns having only removed the object: no duplicate is
    linked in its place. *)
Theorem separate_edge_cases st mesh_obj :
  (type mesh_obj <> MESH -> separate_mesh_by_vertex_groups mesh_obj st = Ok tt st) /\
  (objs_collection_created (settings st) = None ->
   separate_mesh_by_vertex_groups mesh_obj st = Ok tt st) /\
  (forall c,
      type mesh_obj = MESH ->
      objs_collection_created (settings st) = Some c ->
      oid mesh_obj < next_oid st ->
      (forall o, In o (objects c) -> oid o <> oid mesh_obj) ->
      separate_mesh_by_vertex_groups mesh_obj st = Raise RuntimeError) /\
  (forall c,
      type mesh_obj = MESH ->
      objs_collection_created (settings st) = Some c ->
      In mesh_obj (objects c) ->
      vertex_groups mesh_obj = [] ->
      exists st' c',
        separate_mesh_by_vertex_groups mesh_obj st = Ok tt st' /\
        objs_collection_created (settings st') = Some c' /\
        unlink_object (oid mesh_obj) (objects c) = Some (objects c') /\
        S (List.length (objects c')) = List.length (objects c) /\
        (forall o, In o (objects c') -> In o (objects c)) /\
        next_oid st' = next_oid st /\
        log st' = log st ++ [EvRemoveObject (oid mesh_obj)]).
Proof.
  split; [|split; [|split]].
  - intros Ht. unfold separate_mesh_by_vertex_groups. unfold type in Ht.
    destruct (data mesh_obj); [now contradiction Ht|reflexivity|reflexivity].
  - intros Hc. unfold separate_mesh_by_vertex_groups.
    destruct (data mesh_obj); try reflexivity.
    unfold bind, get. now rewrite Hc.
  - intros c Ht Hc Hlt Habs.
    destruct (type_mesh_data mesh_obj Ht) as (m & Hdata).
    unfold separate_mesh_by_vertex_groups. rewrite Hdata.
    unfold bind at 1. unfold get. rewrite Hc.
    unfold bind at 1. rewrite (separate_loop _ _ _ _ _ Hc).
    unfold bind, unlink_created. simpl.
    rewrite unlink_object_absent; [reflexivity|].
    intros x Hx. apply in_app_or in Hx. destruct Hx as [Hx|Hx]; [now apply Habs|].
    apply sub_objects_fresh in Hx. lia.
  - intros c Ht Hc Hin Hv.
    destruct (type_mesh_data mesh_obj Ht) as (m & Hdata).
    destruct (separate_mesh_by_vertex_groups_spec st mesh_obj m c Hdata Hc Hin)
      as (l & Hl & Hrun).
    rewrite Hv in Hrun. simpl in Hrun. rewrite app_nil_r, Nat.add_0_r in Hrun.
    eexists _, (mkCollection (coll_name c) l). split; [exact Hrun|].
    simpl. split; [reflexivity|]. split; [exact Hl|].
    split; [symmetry; now apply (unlink_object_length (oid mesh_obj))|].
    split; [intros o Ho; now apply (unlink_object_subset _ _ _ _ Hl)|].
    split; reflexivity.
Qed.

(** ** The operators *)

Lemma then_finished_not_cancelled (c : Cmd unit) st st' :
  (c ;; ret FINISHED) st <> Ok CANCELLED st'.
Proof.
  unfold bind, ret. destruct (c st) as [[] s|e]; intros H; discriminate H.
Qed.

(** X13.  Every operator either is cancelled, with exactly one error
    report and the session state untouched, or runs without reporting
    anything and then never answers [CANCELLED].  The separation and prepare
    operators are cancelled exactly when the source collection or the rig is
    missing; the bake operator also when the objects are not prepared. *)
Theorem operators_cancel_or_run st active_object :
  (unconfigured (settings st) ->
   cancelled_unchanged st (SKIN2SOLID_OT_separate_by_vertex_groups active_object st) /\
   cancelled_unchanged st (SKIN2SOLID_OT_prepare_objects st) /\
   cancelled_unchanged st (SKIN2SOLID_OT_bake_animation st)) /\
  (~ unconfigured (settings st) ->
   ran_unreported (SKIN2SOLID_OT_separate_by_vertex_groups active_object st) /\
   ran_unreported (SKIN2SOLID_OT_prepare_objects st) /\
   (is_objects_prepared (settings st) = true ->
    ran_unreported (SKIN2SOLID_OT_bake_animation st)) /\
   (is_objects_prepared (settings st) = false ->
    cancelled_unchanged st (SKIN2SOLID_OT_bake_animation st))).
Proof.
  unfold unconfigured, cancelled_unchanged, ran_unreported,
    SKIN2SOLID_OT_separate_by_vertex_groups, SKIN2SOLID_OT_prepare_objects,
    SKIN2SOLID_OT_bake_animation, verify_operator.
  destruct (objs_collection_original (settings st)) as [src|].
  - destruct (rig (settings st)) as [r|].
    + split; [intros [H|H]; discriminate H|]. intros _.
      cbn [andb negb fst snd]. split; [|split; [|split]].
      * destruct active_object as [obj|]; cbn [fst snd].
        -- split; [reflexivity|]. intros st'. apply then_finished_not_cancelled.
        -- split; [reflexivity|]. intros st' H. discriminate H.
      * split; [reflexivity|]. intros st'. apply then_finished_not_cancelled.
      * intros ->. cbn [andb negb fst snd]. split; [reflexivity|].
        intros st'. apply then_finished_not_cancelled.
      * intros ->. cbn [andb negb]. eexists. reflexivity.
    + split; [|intros H; exfalso; apply H; now right].
      intros _. cbn [negb]. repeat split; eexists; reflexivity.
  - split; [|intros H; exfalso; apply H; now left].
    intros _. cbn [negb]. repeat split; eexists; reflexivity.
Qed.

(** ** [create_working_collection] *)

Lemma length_working_copies s objs :
  forall n,
    List.length (working_copies s n objs)
    = List.length (List.filter (should_object_be_processed s) objs).
Proof.
  induction objs as [|x rest IH]; intros n; simpl; [reflexivity|].
  destruct (should_object_be_processed s x); simpl; now rewrite IH.
Qed.

Lemma nth_error_working_copies s objs :
  forall n i o,
    nth_error (List.filter (should_object_be_processed s) objs) i = Some o ->
    nth_error (working_copies s n objs) i = Some (working_copy (name_suffix s) o (n + i)).
Proof.
  induction objs as [|x rest IH]; intros n i o H; simpl in H.
  - destruct i; discriminate H.
  - simpl. destruct (should_object_be_processed s x).
    + destruct i as [|i]; simpl in H |- *.
      * injection H as ->. now rewrite Nat.add_0_r.
      * rewrite (IH (S n) i o H). f_equal. f_equal. lia.
    + now apply IH.
Qed.

(** X14.  [create_working_collection] with a source collection set returns
    a new collection that becomes the working collection, whatever that was
    before: it holds one duplicate per source object passing
    [should_object_be_processed], in the order of the source collection,
    with consecutive fresh identities, the source's name plus the suffix,
    and the source's vertex groups, modifiers and parent.  Storing it resets
    [is_objects_prepared] to false; the source collection and the rest of
    the configuration are not touched. *)
Theorem working_copies_in_source_order st src :
  objs_collection_original (settings st) = Some src ->
  exists st' coll,
    create_working_collection st = Ok (Some coll) st' /\
    objs_collection_created (settings st') = Some coll /\
    is_objects_prepared (settings st') = false /\
    same_config (settings st) (settings st') /\
    armatures st' = armatures st /\
    List.length (objects coll)
    = List.length (List.filter (should_object_be_processed (settings st)) (objects src)) /\
    next_oid st' = next_oid st + List.length (objects coll) /\
    forall i o,
      nth_error (List.filter (should_object_be_processed (settings st)) (objects src)) i
      = Some o ->
      exists d,
        nth_error (objects coll) i = Some d /\
        oid d = next_oid st + i /\
        name d = String.append (name o) (name_suffix (settings st)) /\
        vertex_groups d = vertex_groups o /\
        modifiers d = modifiers o /\
        parent d = parent o /\
        object_vertices d = object_vertices o.
Proof.
  intros Ho.
  destruct (create_working_collection_spec st src Ho)
    as (st' & coll & Hrun & Hcoll & Hs' & Ha' & Hn' & _).
  exists st', coll. split; [exact Hrun|]. rewrite Hs'.
  split; [reflexivity|]. split; [reflexivity|].
  split; [unfold same_config; simpl; now repeat split|].
  split; [exact Ha'|]. rewrite Hcoll. cbn [objects].
  split; [apply length_working_copies|].
  split; [rewrite Hn', Hcoll; reflexivity|].
  intros i o Hi.
  exists (working_copy (name_suffix (settings st)) o (next_oid st + i)).
  split; [apply nth_error_working_copies; exact Hi|].
  repeat (split; [reflexivity|]). apply object_vertices_working_copy.
Qed.

Lemma working_copies_in_source_order_witness :
  objs_collection_original (settings mixed_state)
  = Some (mkCollection "Src" [plain_mesh; demo_body; foreign_mesh; lamp; demo_rig]) /\
  exists st' coll,
    create_working_collection mixed_state = Ok (Some coll) st' /\
    objs_collection_created (settings st') = Some coll /\
    is_objects_prepared (settings st') = false /\
    same_config (settings mixed_state) (settings st') /\
    armatures st' = armatures mixed_state /\
    List.length (objects coll)
    = List.length (List.filter (should_object_be_processed (settings mixed_state))
                     [plain_mesh; demo_body; foreign_mesh; lamp; demo_rig]) /\
    next_oid st' = next_oid mixed_state + List.length (objects coll) /\
    forall i o,
      nth_error (List.filter (should_object_be_processed (settings mixed_state))
                   [plain_mesh; demo_body; foreign_mesh; lamp; demo_rig]) i
      = Some o ->
      exists d,
        nth_error (objects coll) i = Some d /\
        oid d = next_oid mixed_state + i /\
        name d = String.append (name o) (name_suffix (settings mixed_state)) /\
        vertex_groups d = vertex_groups o /\
        modifiers d = modifiers o /\
        parent d = parent o /\
        object_vertices d = object_vertices o.
Proof.
  split; [reflexivity|].
  apply (working_copies_in_source_order mixed_state
           (mkCollection "Src" [plain_mesh; demo_body; foreign_mesh; lamp; demo_rig])).
  reflexivity.
Defined.

(** ** [set_object_origins_to_center] *)

(** X15.  [set_object_origins_to_center] with a working collection set
    needs an active object: without one the [mode_set] of line 269 raises
    the host's [RuntimeError] before any origin is reset.  With one it
    returns after one [origin_set] per mesh object of the collection, in
    collection order, in object mode; the settings (and so the working
    objects) and the armatures are as before.  It leaves the user's
    selection changed: the last mesh object alone is selected and active;
    without any mesh object the selection is as it was. *)
Theorem set_object_origins_effect st c :
  objs_collection_created (settings st) = Some c ->
  (active st = None -> set_object_origins_to_center st = Raise RuntimeError) /\
  (active st <> None ->
   exists st',
     set_object_origins_to_center st = Ok tt st' /\
     settings st' = settings st /\
     armatures st' = armatures st /\
     mode st' = OBJECT_MODE /\
     log st' = log st ++ List.map EvOriginSet (mesh_oids (objects c)) /\
     (mesh_oids (objects c) = [] ->
      selected st' = selected st /\ active st' = active st) /\
     (forall l0 o, mesh_oids (objects c) = l0 ++ [o] ->
                   selected st' = [o] /\ active st' = Some o)).
Proof.
  intros Hc.
  assert (E : set_object_origins_to_center st
              = (mode_set OBJECT_MODE ;; for_each (objects c) origin_to_center) st).
  { unfold set_object_origins_to_center. unfold bind at 1. unfold get. now rewrite Hc. }
  rewrite E. clear E. split.
  - intros Hact. unfold bind. now rewrite (mode_set_no_active _ _ Hact).
  - intros Hact. unfold bind at 1. rewrite (mode_set_active _ _ Hact).
    destruct (origin_loop_result (objects c) (with_mode OBJECT_MODE st))
      as (st' & Hrun & Hs & Ha & _ & Hm & Hl & _ & Hnil & Hlast).
    exists st'. split; [exact Hrun|]. simpl in Hs, Ha, Hm, Hl, Hnil, Hlast.
    now repeat (split; [assumption|]).
Qed.

Lemma set_object_origins_effect_witness :
  objs_collection_created (settings demo_bind_state)
  = Some (mkCollection "Src_Solid" [demo_work]) /\
  (active demo_bind_state = None ->
   set_object_origins_to_center demo_bind_state = Raise RuntimeError) /\
  (active demo_bind_state <> None ->
   exists st',
     set_object_origins_to_center demo_bind_state = Ok tt st' /\
     settings st' = settings demo_bind_state /\
     armatures st' = armatures demo_bind_state /\
     mode st' = OBJECT_MODE /\
     log st' = log demo_bind_state ++ List.map EvOriginSet (mesh_oids [demo_work]) /\
     (mesh_oids [demo_work] = [] ->
      selected st' = selected demo_bind_state /\ active st' = active demo_bind_state) /\
     (forall l0 o, mesh_oids [demo_work] = l0 ++ [o] ->
                   selected st' = [o] /\ active st' = Some o)).
Proof.
  split; [reflexivity|].
  apply (set_object_origins_effect demo_bind_state (mkCollection "Src_Solid" [demo_work])).
  reflexivity.
Defined.

(** ** The partition name when there is nothing to strip *)

Lemma interleave_empty s : PyStr.interleave "" s = s.
Proof. induction s as [|c s IH]; simpl; [reflexivity|]. now rewrite append_nil_l, IH. Qed.

(** X16.  The name of line 74 when the stripping finds nothing: with a
    suffix that does not occur in [name + "_" + group] the partition is
    named [name + "_" + group + suffix], and with the empty suffix it is
    named [name + "_" + group]. *)
Theorem partition_name_nothing_to_strip mesh_obj_name group_name :
  (forall suffix,
      PyStr.occurs suffix (String.append mesh_obj_name (String.append "_" group_name)) = false ->
      partition_name suffix mesh_obj_name group_name
      = String.append (String.append mesh_obj_name (String.append "_" group_name)) suffix) /\
  partition_name "" mesh_obj_name group_name
  = String.append mesh_obj_name (String.append "_" group_name).
Proof.
  split.
  - intros suffix Hocc. unfold partition_name. f_equal.
    destruct suffix as [|ch old].
    + simpl. apply interleave_empty.
    + simpl. now apply replace_scan_none.
  - unfold partition_name. simpl. rewrite interleave_empty. apply append_empty_r.
Qed.

(** ** Baking twice *)

Lemma baked_twice sel o : baked sel (baked sel o) = baked sel o.
Proof.
  unfold baked. destruct (existsb (Nat.eqb (oid o)) sel) eqn:E; simpl; now rewrite E.
Qed.

Lemma mesh_oids_baked sel l : mesh_oids (List.map (baked sel) l) = mesh_oids l.
Proof.
  unfold mesh_oids. induction l as [|x rest IH]; simpl; [reflexivity|].
  destruct (baked_fields sel x) as (Hoid & _ & Hdata & _).
  assert (Hm : is_mesh (baked sel x) = is_mesh x)
    by (unfold is_mesh, type; now rewrite Hdata).
  rewrite Hm. destruct (is_mesh x); simpl; now rewrite ?Hoid, IH.
Qed.

(** X17.  Baking again changes no object: whatever the state,
    [bake_animation] returns, and run once more in the state it left it
    returns with the same settings (the same working objects, none of them
    with a parent it did not have after the first bake), the same armatures
    and the same selection. *)
Theorem bake_animation_twice st :
  exists st1 st2,
    bake_animation st = Ok tt st1 /\
    bake_animation st1 = Ok tt st2 /\
    settings st2 = settings st1 /\
    armatures st2 = armatures st1 /\
    selected st2 = selected st1.
Proof.
  assert (Hsecond : forall c st1,
             objs_collection_created (settings st1) = Some c ->
             List.map (baked (mesh_oids (objects c))) (objects c) = objects c ->
             exists st2,
               bake_animation st1 = Ok tt st2 /\
               settings st2 = settings st1 /\
               armatures st2 = armatures st1 /\
               (selected st1 = mesh_oids (objects c) -> selected st2 = selected st1)).
  { intros c st1 Hc Hfix.
    assert (Hgen : forall st0,
               settings st0 = settings st1 -> armatures st0 = armatures st1 ->
               active st0 <> None ->
               exists st2,
                 select_and_bake c st0 = Ok tt st2 /\
                 settings st2 = settings st1 /\
                 armatures st2 = armatures st1 /\
                 (selected st1 = mesh_oids (objects c) -> selected st2 = selected st1)).
    { intros st0 Hs0 Ha0 Hact0.
      destruct (select_and_bake_result c st0) as (s2 & Hrun & Hs & Ha & _ & _ & Hsel & _);
        [now rewrite Hs0 | exact Hact0 |].
      exists s2. split; [exact Hrun|]. split.
      - rewrite Hs, Hfix, Hs0. destruct (settings st1); simpl in *. rewrite Hc.
        now destruct c.
      - split; [congruence|]. intros H. congruence. }
    unfold bake_animation. unfold bind at 1. unfold get. rewrite Hc.
    destruct (active st1) eqn:Hact1.
    - apply Hgen; auto; congruence.
    - destruct (objects c) as [|first rest] eqn:Hobjs.
      + exists st1. now repeat split.
      + unfold bind at 1. unfold modify at 1. apply Hgen; auto; discriminate. }
  assert (Hfirst : forall c st0,
             objs_collection_created (settings st0) = Some c ->
             settings st0 = settings st -> active st0 <> None ->
             exists st1 st2,
               select_and_bake c st0 = Ok tt st1 /\
               bake_animation st1 = Ok tt st2 /\
               settings st2 = settings st1 /\
               armatures st2 = armatures st1 /\
               selected st2 = selected st1).
  { intros c st0 Hc Hs0 Hact0.
    destruct (select_and_bake_result c st0 Hc Hact0)
      as (s1 & Hrun & Hs & _ & _ & _ & Hsel & _).
    destruct (Hsecond (mkCollection (coll_name c)
                         (List.map (baked (mesh_oids (objects c))) (objects c))) s1)
      as (s2 & Hrun2 & Hs2 & Ha2 & Hsel2).
    - rewrite Hs. reflexivity.
    - cbn [objects]. rewrite mesh_oids_baked, map_map. apply map_ext.
      intros o. apply baked_twice.
    - exists s1, s2. split; [exact Hrun|]. split; [exact Hrun2|].
      split; [exact Hs2|]. split; [exact Ha2|].
      apply Hsel2. cbn [objects]. now rewrite mesh_oids_baked. }
  unfold bake_animation at 1. unfold bind at 1. unfold get.
  destruct (objs_collection_created (settings st)) as [c|] eqn:Hc.
  - destruct (active st) eqn:Hact.
    + destruct (Hfirst c st Hc eq_refl) as (s1 & s2 & A & B & C & D & E); [congruence|].
      exists s1, s2. now repeat split.
    + destruct (objects c) as [|first rest] eqn:Hobjs.
      * exists st, st. split; [reflexivity|]. split.
        -- unfold bake_animation, bind, get. now rewrite Hc, Hact, Hobjs.
        -- repeat split.
      * unfold bind at 1. unfold modify at 1.
        destruct (Hfirst c (with_active (Some (oid first)) st) Hc eq_refl)
          as (s1 & s2 & A & B & C & D & E); [discriminate|].
        exists s1, s2. now repeat split.
  - exists st, st. split; [reflexivity|]. split.
    + unfold bake_animation, bind, get. now rewrite Hc.
    + repeat split.
Qed.
